(** * Meal-ordering app: order grid, week selection and order text

    A shallow embedding of the order logic of the meal-ordering app.  The
    repository holds several versions of the one-screen component [App]:

    - [Picker]   (src/App.tsx, first component): weeks 1..48 chosen in a
      modal list, fixed prices;
    - [Menus]    (src/App.tsx, the component that loads menus.json at run
      time): weeks moved with steppers through [setWeekSafely], a detailed
      on-screen summary and a simplified WhatsApp text;
    - [Priced]   (src/unnamed/part_000): menus.json bundled, per-week prices.

    - [Single]   (src/App.tsx, second component): one week, Meat and Veg
      only, no notes and no week validation.

    Modelling conventions.

    - A JavaScript [number] that holds a week is a value of [number]: a
      rational (every finite double is one), NaN or an infinity.
    - Quantities and the amounts at the fixed prices are whole numbers (the
      quantities start at 0 and the steppers add or subtract 1); the
      functions on them are modelled in [Z], which is the arithmetic of
      numbers as long as the values stay within 2^53 in absolute value.
    - The prices of menus.json may be any numbers: [round64], [num_add] and
      [num_mul] are the binary64 arithmetic, and the functions whose name
      ends in [_num] are the code on such numbers.
    - A JavaScript string is the list of its UTF-16 code units.
    - React state is a record; an event handler is a function from the state
      of the render it closes over to the next state, paired with the alert
      it raises, if any. *)

From Stdlib Require Import ZArith QArith Qabs Qround Qpower List Bool Lia Lqa.
From Stdlib Require Import Sorted Permutation.
From Stdlib Require Import Ascii String DecimalString.
Import ListNotations.

Open Scope Z_scope.

(* ================================================================== *)
(** ** Strings *)

Definition jsstring := list N.

(** The code units of an ASCII literal. *)
Definition js (s : string) : jsstring :=
  map N_of_ascii (list_ascii_of_string s).

Definition LF : jsstring := [10%N].
(** U+00B7 MIDDLE DOT, used in the total lines. *)
Definition MIDDOT : jsstring := [183%N].

(** ECMAScript WhiteSpace and LineTerminator code points, the characters
    [String.prototype.trim] strips. *)
Definition isWhiteSpace (c : N) : bool :=
  ((9 <=? c) && (c <=? 13) || (c =? 32) || (c =? 160) || (c =? 5760)
   || (8192 <=? c) && (c <=? 8202) || (c =? 8232) || (c =? 8233)
   || (c =? 8239) || (c =? 8287) || (c =? 12288) || (c =? 65279))%N.

Fixpoint trimStart (s : jsstring) : jsstring :=
  match s with
  | c :: s' => if isWhiteSpace c then trimStart s' else s
  | [] => []
  end.

Definition trimEnd (s : jsstring) : jsstring := rev (trimStart (rev s)).

Definition trim (s : jsstring) : jsstring := trimEnd (trimStart s).

(** Truthiness of a string: non-empty. *)
Definition truthy (s : jsstring) : bool :=
  match s with [] => false | _ => true end.

(** [lines.join(sep)]. *)
Fixpoint join (sep : jsstring) (lines : list jsstring) : jsstring :=
  match lines with
  | [] => []
  | [l] => l
  | l :: rest => l ++ sep ++ join sep rest
  end.

(** [s.padStart(n, "0")]. *)
Definition padStart0 (n : nat) (s : jsstring) : jsstring :=
  repeat 48%N (n - List.length s) ++ s.

Fixpoint startsWith (p s : jsstring) : bool :=
  match p, s with
  | [], _ => true
  | a :: p', b :: s' => (a =? b)%N && startsWith p' s'
  | _ :: _, [] => false
  end.

(** [s.includes(p)]. *)
Fixpoint includes (p s : jsstring) : bool :=
  startsWith p s || match s with [] => false | _ :: s' => includes p s' end.

(** Decimal digits of an integer: [String(n)] and template interpolation of
    an integer-valued number. *)
Definition String_Z (z : Z) : jsstring :=
  js (NilZero.string_of_int (Z.to_int z)).

(** [amount.toFixed(2)] at an integer amount below 10^21; [toFixed2_num]
    below is [toFixed(2)] on any number. *)
Definition toFixed2 (amount : Z) : jsstring := String_Z amount ++ js ".00".

Definition formatRand (amount : Z) : jsstring := js "R" ++ toFixed2 amount.

(* ================================================================== *)
(** ** Numbers *)

Inductive number : Type :=
| Fin (q : Q)
| NaN
| PosInf
| NegInf.

Definition num (z : Z) : number := Fin (inject_Z z).

Definition isFinite (n : number) : bool :=
  match n with Fin _ => true | _ => false end.

(** [a === b] on numbers. *)
Definition strict_eq (a b : number) : bool :=
  match a, b with
  | Fin x, Fin y => Qeq_bool x y
  | PosInf, PosInf | NegInf, NegInf => true
  | _, _ => false
  end.

(** [a <= b]; false as soon as one side is NaN. *)
Definition num_le (a b : number) : bool :=
  match a, b with
  | NaN, _ | _, NaN => false
  | NegInf, _ | _, PosInf => true
  | Fin x, Fin y => Qle_bool x y
  | _, _ => false
  end.

(** [a < b]. *)
Definition num_lt (a b : number) : bool :=
  match a, b with
  | NaN, _ | _, NaN => false
  | _, _ => negb (num_le b a)
  end.

Definition Math_max (a b : number) : number :=
  match a, b with
  | NaN, _ | _, NaN => NaN
  | _, _ => if num_le a b then b else a
  end.

Definition Math_min (a b : number) : number :=
  match a, b with
  | NaN, _ | _, NaN => NaN
  | _, _ => if num_le a b then a else b
  end.

(** A week that lies in 1..48. *)
Definition in_range (n : number) : Prop :=
  match n with Fin q => (1 <= q /\ q <= 48)%Q | _ => False end.

(** [arr.find(w => w !== x)]. *)
Definition find_other (x : number) (arr : list number) : option number :=
  find (fun w => negb (strict_eq w x)) arr.

(** [set.has(x)] for a set built from finite numbers. *)
Definition has (arr : list number) (x : number) : bool :=
  existsb (fun w => strict_eq w x) arr.

(* ================================================================== *)
(** ** Arithmetic of JavaScript numbers

    [a + b] and [a * b] on numbers are the exact sum and product rounded to
    the nearest binary64 number.  The sign of a zero is not modelled: no
    function of the order logic can tell +0 from -0. *)

(** The integer nearest to [n / d] for [d > 0], ties going to the even one. *)
Definition round_half_even (n d : Z) : Z :=
  let f := n / d in
  let r := n mod d in
  if 2 * r <? d then f
  else if d <? 2 * r then f + 1
  else if Z.even f then f else f + 1.

(** [(a / d) / 2^e] as a fraction. *)
Definition scale (a d e : Z) : Z * Z :=
  if 0 <=? e then (a, d * 2 ^ e) else (a * 2 ^ (- e), d).

(** [2^k <= a / d]. *)
Definition reaches (a d k : Z) : bool :=
  let '(n, m) := scale a d k in m <=? n.

(** The exponent of the last place of the binary64 numbers around a
    positive [a / d]: the [e] with [2^52 <= (a / d) / 2^e < 2^53], and
    [-1074] for the subnormal numbers. *)
Definition last_place (a d : Z) : Z :=
  let e0 := Z.log2 a - Z.log2 d - 53 in
  Z.max (-1074) (if reaches a d (e0 + 53) then e0 + 1 else e0).

(** [2^e] as a rational. *)
Definition pow2 (e : Z) : Q :=
  if 0 <=? e then inject_Z (2 ^ e) else 1 # Z.to_pos (2 ^ (- e)).

(** The binary64 number nearest to a rational, ties going to the even
    significand; an infinity from 2^1024 on. *)
Definition round64 (q : Q) : number :=
  let r := Qred q in
  let a := Z.abs (Qnum r) in
  let d := Z.pos (Qden r) in
  if a =? 0 then Fin 0
  else
    let e := last_place a d in
    let '(n, m) := scale a d e in
    let s := round_half_even n m in
    if (0 <=? e) && (2 ^ 1024 <=? s * 2 ^ e)
    then (if Qnum r <? 0 then NegInf else PosInf)
    else Fin (Qred (inject_Z (Z.sgn (Qnum r) * s) * pow2 e)).

(** [a + b]. *)
Definition num_add (a b : number) : number :=
  match a, b with
  | NaN, _ | _, NaN => NaN
  | PosInf, NegInf | NegInf, PosInf => NaN
  | PosInf, _ | _, PosInf => PosInf
  | NegInf, _ | _, NegInf => NegInf
  | Fin x, Fin y => round64 (x + y)
  end.



(** [clamp0] applied to a number: [n < 0 ? 0 : n]. *)
Definition clamp0_num (n : number) : number :=
  if num_lt n (num 0) then num 0 else n.

(* ================================================================== *)
(** ** The order grid *)

Inductive MealType := Meat | Veg | LowCarb.
Inductive DayName := Monday | Tuesday | Wednesday | Thursday | Friday.
Inductive Which := A | B.

Definition MEAL_TYPES : list MealType := [Meat; Veg; LowCarb].
Definition DAYS : list DayName := [Monday; Tuesday; Wednesday; Thursday; Friday].

(** [Record<MealType, number>]. *)
Record DayQuantities := mkDay { qMeat : Z; qVeg : Z; qLowCarb : Z }.

(** [Record<DayName, Record<MealType, number>>]. *)
Record WeekQuantities := mkWeek {
  qMonday : DayQuantities;
  qTuesday : DayQuantities;
  qWednesday : DayQuantities;
  qThursday : DayQuantities;
  qFriday : DayQuantities
}.

Definition day_get (r : DayQuantities) (m : MealType) : Z :=
  match m with Meat => qMeat r | Veg => qVeg r | LowCarb => qLowCarb r end.

Definition day_set (r : DayQuantities) (m : MealType) (v : Z) : DayQuantities :=
  match m with
  | Meat => mkDay v (qVeg r) (qLowCarb r)
  | Veg => mkDay (qMeat r) v (qLowCarb r)
  | LowCarb => mkDay (qMeat r) (qVeg r) v
  end.

Definition week_get (q : WeekQuantities) (d : DayName) : DayQuantities :=
  match d with
  | Monday => qMonday q | Tuesday => qTuesday q | Wednesday => qWednesday q
  | Thursday => qThursday q | Friday => qFriday q
  end.

Definition week_set (q : WeekQuantities) (d : DayName) (r : DayQuantities)
  : WeekQuantities :=
  match d with
  | Monday => mkWeek r (qTuesday q) (qWednesday q) (qThursday q) (qFriday q)
  | Tuesday => mkWeek (qMonday q) r (qWednesday q) (qThursday q) (qFriday q)
  | Wednesday => mkWeek (qMonday q) (qTuesday q) r (qThursday q) (qFriday q)
  | Thursday => mkWeek (qMonday q) (qTuesday q) (qWednesday q) r (qFriday q)
  | Friday => mkWeek (qMonday q) (qTuesday q) (qWednesday q) (qThursday q) r
  end.

(** [quantities[d][m]]. *)
Definition cell (q : WeekQuantities) (d : DayName) (m : MealType) : Z :=
  day_get (week_get q d) m.

Definition emptyWeekQuantities : WeekQuantities :=
  let z := mkDay 0 0 0 in mkWeek z z z z z.

Definition clamp0 (n : Z) : Z := if n <? 0 then 0 else n.

(** The state updater of [changeQty] in [Picker] and [Priced]:
    [{...prev, [day]: {...prev[day], [meal]: clamp0(prev[day][meal] + delta)}}].
    The sum is the sum of numbers while it stays within 2^53. *)
Definition bump (day : DayName) (meal : MealType) (delta : Z)
  (prev : WeekQuantities) : WeekQuantities :=
  week_set prev day
    (day_set (week_get prev day) meal (clamp0 (cell prev day meal + delta))).

(** [x || 0] on a number. *)
Definition or0 (x : Z) : Z := if x =? 0 then 0 else x.

(** The state updater of [changeQty] in [Menus]: the day is copied, the cell
    becomes [Math.max(0, (next[day][meal] || 0) + delta)]. *)
Definition bump_max (day : DayName) (meal : MealType) (delta : Z)
  (prev : WeekQuantities) : WeekQuantities :=
  let cur := or0 (cell prev day meal) in
  week_set prev day (day_set (week_get prev day) meal (Z.max 0 (cur + delta))).

Definition MealType_eqb (a b : MealType) : bool :=
  match a, b with
  | Meat, Meat | Veg, Veg | LowCarb, LowCarb => true
  | _, _ => false
  end.

Definition DayName_eqb (a b : DayName) : bool :=
  match a, b with
  | Monday, Monday | Tuesday, Tuesday | Wednesday, Wednesday
  | Thursday, Thursday | Friday, Friday => true
  | _, _ => false
  end.

Definition Which_eqb (a b : Which) : bool :=
  match a, b with A, A | B, B => true | _, _ => false end.

(** The alerts the handlers raise ([Alert.alert]). *)
Inductive Alert : Type :=
| WeekARange         (* "Week A must be between 1 and 48." *)
| WeekBRange         (* "Week B must be between 1 and 48." *)
| WeekBDifferent     (* "Week B must be different from Week A." *)
| NotAllowedA        (* "Not allowed", "Week A cannot be the same as Week B." *)
| NotAllowedB        (* "Not allowed", "Week B cannot be the same as Week A." *)
| MenuNotAvailable (week : number).
                     (* "Menu not available", "Week NN is not in menus.json." *)

(** [Array.from({ length: 48 }, (_, i) => i + 1)]. *)
Definition WEEK_OPTIONS : list number :=
  map (fun i => num (Z.of_nat i + 1)) (seq 0 48).

(** [arr.sort((a, b) => a - b)] on finite numbers. *)
Fixpoint insert_asc (x : number) (l : list number) : list number :=
  match l with
  | [] => [x]
  | y :: l' => if num_le x y then x :: l else y :: insert_asc x l'
  end.

Definition sort_asc (l : list number) : list number :=
  fold_right insert_asc [] l.

(** [while (lines.length > 0 && lines[lines.length - 1] === "") lines.pop()]. *)
Fixpoint dropEmptyHead (l : list jsstring) : list jsstring :=
  match l with
  | [] :: l' => dropEmptyHead l'
  | _ => l
  end.

Definition popEmptyTail (lines : list jsstring) : list jsstring :=
  rev (dropEmptyHead (rev lines)).

Definition MealType_label (m : MealType) : jsstring :=
  match m with Meat => js "Meat" | Veg => js "Veg" | LowCarb => js "Low Carb" end.

Definition DayName_label (d : DayName) : jsstring :=
  match d with
  | Monday => js "Monday" | Tuesday => js "Tuesday"
  | Wednesday => js "Wednesday" | Thursday => js "Thursday"
  | Friday => js "Friday"
  end.

(** [String(n)] on a week number.  The digits of a finite number that is not
    an integer below 10^21 are left to [String_other], the run time's
    Number::toString at those values. *)
Definition String_number (String_other : Q -> jsstring) (n : number) : jsstring :=
  match n with
  | NaN => js "NaN"
  | PosInf => js "Infinity"
  | NegInf => js "-Infinity"
  | Fin q =>
      let r := Qred q in
      if (Z.pos (Qden r) =? 1) && (Z.abs (Qnum r) <? 10 ^ 21)
      then String_Z (Qnum r)
      else String_other q
  end.

(** [String(n).padStart(2, "0")]. *)
Definition pad2 (String_other : Q -> jsstring) (n : number) : jsstring :=
  padStart0 2 (String_number String_other n).

(** [amount.toFixed(2)] on a number: the sign, then the multiple of 0.01
    nearest to the absolute value (the larger one at a tie) with two
    decimals.  From 10^21 on the digits are those of Number::toString, left
    to [String_other]. *)
Definition toFixed2_num (String_other : Q -> jsstring) (amount : number)
  : jsstring :=
  match amount with
  | NaN => js "NaN"
  | PosInf => js "Infinity"
  | NegInf => js "-Infinity"
  | Fin q =>
      let x := Qabs q in
      (if Qnum q <? 0 then js "-" else [])
      ++ (if Qle_bool (inject_Z (10 ^ 21)) x then String_other x
          else
            let n := Qfloor (x * 100 + (1 # 2)) in
            String_Z (n / 100) ++ js "." ++ padStart0 2 (String_Z (n mod 100)))
  end.


(** [name?.trim() ? name.trim() : "[name]"]. *)
Definition nameOrPlaceholder (name : jsstring) : jsstring :=
  if truthy (trim name) then trim name else js "[name]".

(** [n + k] for an integer [k]: [weekA + 1], [weekA - 1]. *)
Definition num_plus (n : number) (k : Z) : number :=
  match n with Fin q => Fin (q + inject_Z k) | other => other end.

(** Truthiness of a number: neither 0 nor NaN. *)
Definition truthy_num (n : number) : bool :=
  match n with NaN => false | other => negb (strict_eq other (num 0)) end.

(** The part of React Native's [Linking] that [sendWhatsApp] awaits:
    [canOpenURL(url)] resolves to a boolean or rejects ([None]);
    [openURL(url)] resolves ([true]) or rejects ([false]). *)
Record Linking := mkLinking {
  canOpenURL : jsstring -> option bool;
  openURL : jsstring -> bool
}.

(** The alerts of the send step that are not week alerts. *)
Inductive SendAlert : Type :=
| CouldNotOpen     (* "Could not open WhatsApp" *)
| NoSelections     (* "No selections yet" *)
| NumberNotSet     (* "WhatsApp number not set" *)
| CannotOpen       (* "Cannot open WhatsApp" *)
| WeekANotAvailable (* "Week A not available" *)
| WeekBNotAvailable (* "Week B not available" *)
| WeekBSame.        (* "Week B must be different from Week A." *)

(** How a call of [sendWhatsApp] ends: stopped by the week validation,
    stopped by another alert, a URL handed to [Linking.openURL], or a
    promise rejected without handler. *)
Inductive SendResult : Type :=
| Invalid (a : Alert)
| Failed (a : SendAlert)
| Opened (url : jsstring)
| Uncaught.

(* ================================================================== *)
(** ** [Picker]: src/App.tsx, first component *)

Module Picker.

Definition BASE_PRICE : Z := 90.
Definition LOW_CARB_EXTRA : Z := 10.

Definition sumWeekMeals (quantities : WeekQuantities) : Z :=
  fold_left
    (fun total d =>
       fold_left (fun total m => total + cell quantities d m) MEAL_TYPES total)
    DAYS 0.

Definition sumWeekCost (quantities : WeekQuantities) : Z :=
  fold_left
    (fun total d =>
       fold_left
         (fun total m =>
            let qty := cell quantities d m in
            let price :=
              if MealType_eqb m LowCarb then BASE_PRICE + LOW_CARB_EXTRA
              else BASE_PRICE in
            total + qty * price)
         MEAL_TYPES total)
    DAYS 0.

Record State := mkState {
  name : jsstring;
  notes : jsstring;
  weekA : number;
  useWeekB : bool;
  weekB : number;
  qtyA : WeekQuantities;
  qtyB : WeekQuantities;
  weekPickerOpen : option Which
}.

Definition initial : State :=
  mkState [] [] (num 1) false (num 2)
    emptyWeekQuantities emptyWeekQuantities None.

Definition setWeekA (v : number) (s : State) : State :=
  mkState (name s) (notes s) v (useWeekB s) (weekB s) (qtyA s) (qtyB s)
    (weekPickerOpen s).

Definition setWeekB (v : number) (s : State) : State :=
  mkState (name s) (notes s) (weekA s) (useWeekB s) v (qtyA s) (qtyB s)
    (weekPickerOpen s).

Definition setUseWeekB (v : bool) (s : State) : State :=
  mkState (name s) (notes s) (weekA s) v (weekB s) (qtyA s) (qtyB s)
    (weekPickerOpen s).

Definition setNotes (v : jsstring) (s : State) : State :=
  mkState (name s) v (weekA s) (useWeekB s) (weekB s) (qtyA s) (qtyB s)
    (weekPickerOpen s).

Definition setQtyA (f : WeekQuantities -> WeekQuantities) (s : State) : State :=
  mkState (name s) (notes s) (weekA s) (useWeekB s) (weekB s) (f (qtyA s))
    (qtyB s) (weekPickerOpen s).

Definition setQtyB (f : WeekQuantities -> WeekQuantities) (s : State) : State :=
  mkState (name s) (notes s) (weekA s) (useWeekB s) (weekB s) (qtyA s)
    (f (qtyB s)) (weekPickerOpen s).

Definition setWeekPickerOpen (v : option Which) (s : State) : State :=
  mkState (name s) (notes s) (weekA s) (useWeekB s) (weekB s) (qtyA s)
    (qtyB s) v.

Definition weekATotalMeals (s : State) : Z := sumWeekMeals (qtyA s).
Definition weekATotalCost (s : State) : Z := sumWeekCost (qtyA s).
Definition weekBTotalMeals (s : State) : Z :=
  if useWeekB s then sumWeekMeals (qtyB s) else 0.
Definition weekBTotalCost (s : State) : Z :=
  if useWeekB s then sumWeekCost (qtyB s) else 0.
Definition totalMeals (s : State) : Z := weekATotalMeals s + weekBTotalMeals s.
Definition totalCost (s : State) : Z := weekATotalCost s + weekBTotalCost s.

Definition changeQty (which : Which) (day : DayName) (meal : MealType)
  (delta : Z) (s : State) : State :=
  let setter := match which with A => setQtyA | B => setQtyB end in
  setter (bump day meal delta) s.

Definition clearOrder (s : State) : State :=
  mkState [] [] (num 1) false (num 2)
    emptyWeekQuantities emptyWeekQuantities None.

(** The switch of the second week: [setUseWeekB((v) => !v)]. *)
Definition toggleWeekB (s : State) : State := setUseWeekB (negb (useWeekB s)) s.

(** The validation that opens [sendWhatsApp]: the alert that stops the
    send, if any. *)
Definition sendWhatsApp_check (s : State) : option Alert :=
  if num_lt (weekA s) (num 1) || num_lt (num 48) (weekA s) then Some WeekARange
  else if useWeekB s then
    if num_lt (weekB s) (num 1) || num_lt (num 48) (weekB s) then Some WeekBRange
    else if strict_eq (weekB s) (weekA s) then Some WeekBDifferent
    else None
  else None.

Definition pickWeek (which : Which) (value : number) (s : State)
  : State * option Alert :=
  match which with
  | A =>
      if useWeekB s && strict_eq value (weekB s) then (s, Some NotAllowedA)
      else (setWeekPickerOpen None (setWeekA value s), None)
  | B =>
      if strict_eq value (weekA s) then (s, Some NotAllowedB)
      else (setWeekPickerOpen None (setWeekB value s), None)
  end.

Section Text.
Variable String_other : Q -> jsstring.

(** The day lines of one week in [buildOrderText]. *)
Definition dayLines (q : WeekQuantities) : list jsstring :=
  flat_map
    (fun d =>
       let parts :=
         flat_map
           (fun m =>
              let n := cell q d m in
              if 0 <? n then [String_Z n ++ js " " ++ MealType_label m] else [])
           MEAL_TYPES in
       match parts with
       | [] => []
       | _ => [js "- " ++ DayName_label d ++ js ": " ++ join (js " + ") parts]
       end)
    DAYS.

(** The lines of one week in [buildOrderText]; the source writes them out
    twice, for week A and for week B. *)
Definition weekBlock (week : number) (q : WeekQuantities) (meals cost : Z)
  : list jsstring :=
  let w := pad2 String_other week in
  [js "Week " ++ w ++ js ":"]
  ++ dayLines q
  ++ [js "Total meals (Week " ++ w ++ js "): " ++ String_Z meals;
      js "Cost (Week " ++ w ++ js "): " ++ formatRand cost;
      []].

(** The array [lines] of [buildOrderText] when it is joined. *)
Definition orderLines (s : State) : list jsstring :=
  [js "Meal Order"; js "Name: " ++ nameOrPlaceholder (name s); []]
  ++ weekBlock (weekA s) (qtyA s) (weekATotalMeals s) (weekATotalCost s)
  ++ (if useWeekB s
      then weekBlock (weekB s) (qtyB s) (weekBTotalMeals s) (weekBTotalCost s)
      else [])
  ++ [js "Total meals: " ++ String_Z (totalMeals s);
      js "Total cost: " ++ formatRand (totalCost s)]
  ++ (if truthy (trim (notes s))
      then [[]; js "Notes: " ++ trim (notes s)]
      else []).

Definition buildOrderText (s : State) : jsstring := join LF (orderLines s).

End Text.

Definition setName (v : jsstring) (s : State) : State :=
  mkState v (notes s) (weekA s) (useWeekB s) (weekB s) (qtyA s) (qtyB s)
    (weekPickerOpen s).

Definition openWeekPicker (which : Which) (s : State) : State :=
  setWeekPickerOpen (Some which) s.

(** A row of the week list in [WeekPickerModal]:
    [onPress={() => !disabled && pickWeek(which, item)}]. *)
Definition pressWeekItem (which : Which) (item : number) (s : State)
  : State * option Alert :=
  let other := match which with A => weekB s | B => weekA s end in
  let otherEnabled := match which with A => useWeekB s | B => true end in
  let disabled := otherEnabled && strict_eq item other in
  if negb disabled then pickWeek which item s else (s, None).

Definition WHATSAPP_PHONE_E164 : jsstring := js "27719531885".

Section Send.
Variable String_other : Q -> jsstring.
(** [encodeURIComponent], which throws on a lone surrogate ([None]). *)
Variable encodeURIComponent : jsstring -> option jsstring.
(** [Platform.OS === "web"]. *)
Variable isWeb : bool.
Variable linking : Linking.

Definition deepLink (encoded : jsstring) : jsstring :=
  js "whatsapp://send?phone=" ++ WHATSAPP_PHONE_E164 ++ js "&text=" ++ encoded.

Definition webLink (encoded : jsstring) : jsstring :=
  js "https://wa.me/" ++ WHATSAPP_PHONE_E164 ++ js "?text=" ++ encoded.

Definition sendWhatsApp (s : State) : SendResult :=
  match sendWhatsApp_check s with
  | Some a => Invalid a
  | None =>
      match encodeURIComponent (buildOrderText String_other s) with
      | None => Uncaught
      | Some encoded =>
          let openWeb :=
            if openURL linking (webLink encoded) then Opened (webLink encoded)
            else Failed CouldNotOpen in
          if negb isWeb then
            match canOpenURL linking (js "whatsapp://send") with
            | None => Failed CouldNotOpen
            | Some true =>
                if openURL linking (deepLink encoded)
                then Opened (deepLink encoded)
                else Failed CouldNotOpen
            | Some false => openWeb
            end
          else openWeb
      end
  end.

End Send.

End Picker.

(* ================================================================== *)
(** ** [Menus]: src/App.tsx, the component that loads menus.json *)

Module Menus.

Record MenuItem := mkItem { itemName : jsstring; description : jsstring }.

Record DayMenu := mkDayMenu {
  dmMeat : option MenuItem;
  dmVeg : option MenuItem;
  note : option jsstring
}.

Record WeeklyMenu := mkMenu {
  title : jsstring;
  dateRange : option jsstring;
  days : DayName -> option DayMenu
}.

(** What the component reads of [menusByWeek]: the numbers [Number(k)] of
    its keys, and the menu found under a week number. *)
Record MenusByWeek := mkMenus {
  weekKeys : list number;
  getMenuForWeek : number -> option WeeklyMenu
}.

(** The state before menus.json is loaded, and after a failed load: [{}]. *)
Definition noMenus : MenusByWeek := mkMenus [] (fun _ => None).

Definition PRICE_MEAT : Z := 90.
Definition PRICE_VEG : Z := 90.
Definition PRICE_LOW_CARB : Z := 100.

Definition LOW_CARB_NOTE : jsstring :=
  js "Low Carb meals follow the same menu as above; however, starchy sides (e.g., potatoes, rice, pasta, couscous) will be substituted with a suitable low-carb alternative such as cauliflower rice or seasonal vegetables, where appropriate.".

Definition DAY_SHORT (d : DayName) : jsstring :=
  match d with
  | Monday => js "Mon" | Tuesday => js "Tue" | Wednesday => js "Wed"
  | Thursday => js "Thu" | Friday => js "Fri"
  end.

Definition MEALS : list MealType := [Meat; Veg; LowCarb].

Definition priceFor (meal : MealType) : Z :=
  if MealType_eqb meal Meat then PRICE_MEAT
  else if MealType_eqb meal Veg then PRICE_VEG
  else PRICE_LOW_CARB.

Definition sumWeekMeals (qty : WeekQuantities) : Z :=
  fold_left
    (fun total day =>
       fold_left (fun total meal => total + or0 (cell qty day meal))
         MEALS total)
    DAYS 0.

Definition sumWeekCost (qty : WeekQuantities) : Z :=
  fold_left
    (fun total day =>
       fold_left
         (fun total meal => total + or0 (cell qty day meal) * priceFor meal)
         MEALS total)
    DAYS 0.

Record State := mkState {
  name : jsstring;
  notes : jsstring;
  useWeekB : bool;
  qtyA : WeekQuantities;
  qtyB : WeekQuantities;
  menusLoaded : bool;
  weekA : number;
  weekB : number;
  expandedDesc : list (jsstring * bool)
}.

Definition initial : State :=
  mkState [] [] false emptyWeekQuantities emptyWeekQuantities false
    (num 1) (num 2) [].

Definition setWeekA (v : number) (s : State) : State :=
  mkState (name s) (notes s) (useWeekB s) (qtyA s) (qtyB s) (menusLoaded s)
    v (weekB s) (expandedDesc s).

Definition setWeekB (v : number) (s : State) : State :=
  mkState (name s) (notes s) (useWeekB s) (qtyA s) (qtyB s) (menusLoaded s)
    (weekA s) v (expandedDesc s).

Definition setUseWeekB (v : bool) (s : State) : State :=
  mkState (name s) (notes s) v (qtyA s) (qtyB s) (menusLoaded s)
    (weekA s) (weekB s) (expandedDesc s).

Definition setNotes (v : jsstring) (s : State) : State :=
  mkState (name s) v (useWeekB s) (qtyA s) (qtyB s) (menusLoaded s)
    (weekA s) (weekB s) (expandedDesc s).

Definition setQtyA (f : WeekQuantities -> WeekQuantities) (s : State) : State :=
  mkState (name s) (notes s) (useWeekB s) (f (qtyA s)) (qtyB s)
    (menusLoaded s) (weekA s) (weekB s) (expandedDesc s).

Definition setQtyB (f : WeekQuantities -> WeekQuantities) (s : State) : State :=
  mkState (name s) (notes s) (useWeekB s) (qtyA s) (f (qtyB s))
    (menusLoaded s) (weekA s) (weekB s) (expandedDesc s).

Definition setExpandedDesc (v : list (jsstring * bool)) (s : State) : State :=
  mkState (name s) (notes s) (useWeekB s) (qtyA s) (qtyB s) (menusLoaded s)
    (weekA s) (weekB s) v.

Definition setMenusLoaded (v : bool) (s : State) : State :=
  mkState (name s) (notes s) (useWeekB s) (qtyA s) (qtyB s) v
    (weekA s) (weekB s) (expandedDesc s).

Definition changeQty (which : Which) (day : DayName) (meal : MealType)
  (delta : Z) (s : State) : State :=
  let setter := match which with A => setQtyA | B => setQtyB end in
  setter (bump_max day meal delta) s.

Definition clearOrder (s : State) : State :=
  setNotes [] (setQtyB (fun _ => emptyWeekQuantities)
                 (setQtyA (fun _ => emptyWeekQuantities) s)).

Definition weekATotalMeals (s : State) : Z := sumWeekMeals (qtyA s).
Definition weekATotalCost (s : State) : Z := sumWeekCost (qtyA s).
Definition weekBTotalMeals (s : State) : Z :=
  if useWeekB s then sumWeekMeals (qtyB s) else 0.
Definition weekBTotalCost (s : State) : Z :=
  if useWeekB s then sumWeekCost (qtyB s) else 0.
Definition totalMeals (s : State) : Z := weekATotalMeals s + weekBTotalMeals s.
Definition totalCost (s : State) : Z := weekATotalCost s + weekBTotalCost s.
Definition hasAnySelections (s : State) : bool := 0 <? totalMeals s.

Section WithMenus.
Variable menusByWeek : MenusByWeek.

Definition availableWeeks : list number :=
  sort_asc (filter isFinite (weekKeys menusByWeek)).

(** The effect "Default selected weeks from menus.json", run once the menus
    are loaded. *)
Definition defaultWeeks (s : State) : State :=
  if negb (menusLoaded s) then s
  else
    match availableWeeks with
    | [] => s
    | first :: _ =>
        let second :=
          match find_other first availableWeeks with
          | Some w => w
          | None => first
          end in
        let s' := setWeekB second (setWeekA first s) in
        if (List.length availableWeeks <? 2)%nat then setUseWeekB false s' else s'
    end.

Definition clampWeek (n : number) : number :=
  if negb (isFinite n) then
    match availableWeeks with w :: _ => w | [] => num 1 end
  else Math_min (num 48) (Math_max (num 1) n).

Definition setWeekSafely (which : Which) (n : number) (s : State)
  : State * option Alert :=
  let next := clampWeek n in
  if (0 <? List.length availableWeeks)%nat && negb (has availableWeeks next)
  then (s, Some (MenuNotAvailable next))
  else
    match which with
    | A =>
        let s1 :=
          if useWeekB s && strict_eq next (weekB s)
             && (1 <? List.length availableWeeks)%nat
          then
            match find_other next availableWeeks with
            | Some alt => setWeekB alt s
            | None => s
            end
          else s in
        (setWeekA next s1, None)
    | B =>
        let s1 :=
          if useWeekB s && strict_eq next (weekA s)
             && (1 <? List.length availableWeeks)%nat
          then
            match find_other next availableWeeks with
            | Some alt => setWeekA alt s
            | None => s
            end
          else s in
        (setWeekB next s1, None)
    end.

Definition getMealParts (menu : option WeeklyMenu) (day : DayName)
  (meal : MealType) : MenuItem :=
  let dayMenu :=
    match menu with Some m => days m day | None => None end in
  if MealType_eqb meal LowCarb then mkItem (js "Low Carb") LOW_CARB_NOTE
  else
    let item :=
      match dayMenu with
      | Some dm => if MealType_eqb meal Meat then dmMeat dm else dmVeg dm
      | None => None
      end in
    match item with
    | None => mkItem (js "Menu item coming soon.") []
    | Some it => mkItem (itemName it) (description it)
    end.

Variable String_other : Q -> jsstring.

(** [`Week ${pad2(weekNumber)}${menu?.dateRange ? ` (${menu.dateRange})` : ""}`]. *)
Definition weekHeading (weekNumber : number) : jsstring :=
  let menu := getMenuForWeek menusByWeek weekNumber in
  js "Week " ++ pad2 String_other weekNumber
  ++ match menu with
     | Some m =>
         match dateRange m with
         | Some r => if truthy r then js " (" ++ r ++ js ")" else []
         | None => []
         end
     | None => []
     end.

Definition buildDetailedLinesForWeek (weekNumber : number) (qty : WeekQuantities)
  : list jsstring :=
  let menu := getMenuForWeek menusByWeek weekNumber in
  [weekHeading weekNumber]
  ++ flat_map
       (fun day =>
          let dayLines :=
            flat_map
              (fun meal =>
                 let count := or0 (cell qty day meal) in
                 if count <=? 0 then []
                 else
                   let parts := getMealParts menu day meal in
                   let nameOnly :=
                     if MealType_eqb meal LowCarb then js "Low Carb"
                     else if truthy (itemName parts) then itemName parts
                          else js "Menu item" in
                   [js "- " ++ MealType_label meal ++ js ": " ++ String_Z count
                    ++ js " (" ++ nameOnly ++ js ")"])
              MEALS in
          match dayLines with
          | [] => []
          | _ => DayName_label day :: dayLines
          end)
       DAYS
  ++ [js "Subtotal: " ++ String_Z (sumWeekMeals qty) ++ js " meals "
      ++ MIDDOT ++ js " " ++ formatRand (sumWeekCost qty);
      []].

(** [`TOTAL: ${totalMeals} meals · ${formatRand(totalCost)}`]. *)
Definition totalLine (s : State) : jsstring :=
  js "TOTAL: " ++ String_Z (totalMeals s) ++ js " meals " ++ MIDDOT ++ js " "
  ++ formatRand (totalCost s).

(** [if (notes?.trim()) { lines.push(""); lines.push(`Notes: ...`) }]. *)
Definition notesLines (notes : jsstring) : list jsstring :=
  if truthy (trim notes) then [[]; js "Notes: " ++ trim notes] else [].

(** The array [lines] of [onScreenSummaryText] before trailing blanks go. *)
Definition summaryLines (s : State) : list jsstring :=
  [js "Meal Order"; js "Name: " ++ nameOrPlaceholder (name s); []]
  ++ buildDetailedLinesForWeek (weekA s) (qtyA s)
  ++ (if useWeekB s && negb (strict_eq (weekB s) (weekA s))
      then buildDetailedLinesForWeek (weekB s) (qtyB s)
      else [])
  ++ [totalLine s]
  ++ notesLines (notes s).

Definition onScreenSummaryText (s : State) : jsstring :=
  if negb (hasAnySelections s) then []
  else join LF (popEmptyTail (summaryLines s)).

Definition buildWhatsAppWeekLines (weekNumber : number) (qty : WeekQuantities)
  : list jsstring :=
  [weekHeading weekNumber]
  ++ flat_map
       (fun day =>
          let meat := or0 (qMeat (week_get qty day)) in
          let veg := or0 (qVeg (week_get qty day)) in
          let low := or0 (qLowCarb (week_get qty day)) in
          let parts :=
            (if 0 <? meat then [js "x" ++ String_Z meat ++ js " Meat"] else [])
            ++ (if 0 <? veg then [js "x" ++ String_Z veg ++ js " Veg"] else [])
            ++ (if 0 <? low then [js "x" ++ String_Z low ++ js " Low Carb"]
                else []) in
          match parts with
          | [] => []
          | _ => [DAY_SHORT day ++ js ": " ++ join (js " ") parts]
          end)
       DAYS.

(** The array [lines] of [whatsappText] before trailing blanks go. *)
Definition whatsappLines (s : State) : list jsstring :=
  [js "Meal Order"; js "Name: " ++ nameOrPlaceholder (name s); []]
  ++ buildWhatsAppWeekLines (weekA s) (qtyA s)
  ++ (if useWeekB s && negb (strict_eq (weekB s) (weekA s))
      then [] :: buildWhatsAppWeekLines (weekB s) (qtyB s)
      else [])
  ++ [[]; totalLine s]
  ++ notesLines (notes s).

Definition whatsappText (s : State) : jsstring :=
  if negb (hasAnySelections s) then []
  else join LF (popEmptyTail (whatsappLines s)).

End WithMenus.

Definition setName (v : jsstring) (s : State) : State :=
  mkState v (notes s) (useWeekB s) (qtyA s) (qtyB s) (menusLoaded s)
    (weekA s) (weekB s) (expandedDesc s).

(** *** The texts as [useMemo] values

    Both texts are computed inside [useMemo(compute, deps)].  From one
    render to the next React keeps the value of the previous render when
    every dependency is identical (Object.is) to what it was then, and calls
    [compute] otherwise.  Identical dependencies hold equal values: numbers,
    strings and booleans are compared by value, and the grids and the menus
    are objects that the component replaces and never changes in place. *)

(** The dependency list of both texts:
    [[hasAnySelections, name, notes, useWeekB, weekA, weekB, qtyA, qtyB,
      totalMeals, totalCost, menusByWeek]]. *)
Record TextDeps := mkDeps {
  depHasAnySelections : bool;
  depName : jsstring;
  depNotes : jsstring;
  depUseWeekB : bool;
  depWeekA : number;
  depWeekB : number;
  depQtyA : WeekQuantities;
  depQtyB : WeekQuantities;
  depTotalMeals : Z;
  depTotalCost : Z;
  depMenus : MenusByWeek
}.

Definition textDeps (menusByWeek : MenusByWeek) (s : State) : TextDeps :=
  mkDeps (hasAnySelections s) (name s) (notes s) (useWeekB s) (weekA s)
    (weekB s) (qtyA s) (qtyB s) (totalMeals s) (totalCost s) menusByWeek.

(** One render: the memo cell after it, from the cell before it ([None] at
    the first render).  The cell may be recomputed at any render; it can be
    kept only under the dependencies it was computed from. *)
Inductive useMemo (compute : jsstring) (deps : TextDeps)
  : option (TextDeps * jsstring) -> TextDeps * jsstring -> Prop :=
| memo_first : useMemo compute deps None (deps, compute)
| memo_recompute cell : useMemo compute deps (Some cell) (deps, compute)
| memo_keep value : useMemo compute deps (Some (deps, value)) (deps, value).

(** The memo cell of a text after the renders of a list of states of the
    component (the loaded menus and the rest), oldest first. *)
Inductive rendered (text : MenusByWeek -> State -> jsstring)
  : list (MenusByWeek * State) -> option (TextDeps * jsstring) -> Prop :=
| rendered_nil : rendered text [] None
| rendered_snoc history cell menusByWeek s cell' :
    rendered text history cell ->
    useMemo (text menusByWeek s) (textDeps menusByWeek s) cell cell' ->
    rendered text (history ++ [(menusByWeek, s)]) (Some cell').

(** The dish that [getMealParts] looks up: [menu?.days?.[day]?.Meat] or
    [...?.Veg]. *)
Definition dishOf (menu : option WeeklyMenu) (day : DayName) (meal : MealType)
  : option MenuItem :=
  match menu with
  | Some m =>
      match days m day with
      | Some dm => if MealType_eqb meal Meat then dmMeat dm else dmVeg dm
      | None => None
      end
  | None => None
  end.

Definition WHATSAPP_NUMBER : jsstring := js "27719531885".

Section Send.
Variable menusByWeek : MenusByWeek.
Variable String_other : Q -> jsstring.
(** [encodeURIComponent], which throws on a lone surrogate ([None]). *)
Variable encodeURIComponent : jsstring -> option jsstring.
(** [Platform.OS === "web"]. *)
Variable isWeb : bool.
Variable linking : Linking.

(** The "-" and "+" buttons of a week: [setWeekSafely(which, week - 1)] and
    [setWeekSafely(which, week + 1)]. *)
Definition stepWeek (which : Which) (k : Z) (s : State) : State * option Alert :=
  let week := match which with A => weekA s | B => weekB s end in
  setWeekSafely menusByWeek which (num_plus week k) s.

Definition waLink (encoded : jsstring) : jsstring :=
  js "https://wa.me/" ++ WHATSAPP_NUMBER ++ js "?text=" ++ encoded.

Definition appLink (encoded : jsstring) : jsstring :=
  js "whatsapp://send?phone=" ++ WHATSAPP_NUMBER ++ js "&text=" ++ encoded.

Definition sendWhatsApp (s : State) : SendResult :=
  if negb (hasAnySelections s) then Failed NoSelections
  else if negb (truthy WHATSAPP_NUMBER) || includes (js "X") WHATSAPP_NUMBER
  then Failed NumberNotSet
  else
    match encodeURIComponent (whatsappText menusByWeek String_other s) with
    | None => Uncaught
    | Some encoded =>
        let url := if isWeb then waLink encoded else appLink encoded in
        match canOpenURL linking url with
        | None => Uncaught
        | Some false =>
            let fallback := waLink encoded in
            match canOpenURL linking fallback with
            | None => Uncaught
            | Some false => Failed CannotOpen
            | Some true =>
                if openURL linking fallback then Opened fallback else Uncaught
            end
        | Some true => if openURL linking url then Opened url else Uncaught
        end
    end.

End Send.

End Menus.

(* ================================================================== *)
(** ** [Priced]: src/unnamed/part_000, menus.json bundled *)

Module Priced.

(** The fields of [WeeklyMenu] that the order logic reads; [price] and
    [lowCarbExtra] are present when the JSON holds a number there.  The
    record and the functions on it take the prices to be whole rands;
    [sumWeekCost_num] below reads the cost function on any numbers. *)
Record WeeklyMenu := mkMenu {
  title : jsstring;
  dateRange : option jsstring;
  price : option Z;
  lowCarbExtra : option Z
}.

Record MenusByWeek := mkMenus {
  weekKeys : list number;
  getMenuForWeek : number -> option WeeklyMenu
}.

Definition DEFAULT_BASE_PRICE : Z := 90.
Definition DEFAULT_LOW_CARB_EXTRA : Z := 10.

Definition sumWeekMeals (quantities : WeekQuantities) : Z :=
  fold_left
    (fun total d =>
       total + (cell quantities d Meat + cell quantities d Veg
                + cell quantities d LowCarb))
    DAYS 0.

(** [sumWeekCost] at whole prices, exact while the total stays within
    2^53. *)
Definition sumWeekCost (quantities : WeekQuantities) (basePrice lowCarbExtra : Z)
  : Z :=
  fold_left
    (fun total d =>
       let total := total + cell quantities d Meat * basePrice in
       let total := total + cell quantities d Veg * basePrice in
       total + cell quantities d LowCarb * (basePrice + lowCarbExtra))
    DAYS 0.


Record State := mkState {
  name : jsstring;
  notes : jsstring;
  weekA : number;
  useWeekB : bool;
  weekB : number;
  qtyA : WeekQuantities;
  qtyB : WeekQuantities;
  weekPickerOpen : option Which
}.

Definition setWeekA (v : number) (s : State) : State :=
  mkState (name s) (notes s) v (useWeekB s) (weekB s) (qtyA s) (qtyB s)
    (weekPickerOpen s).

Definition setWeekB (v : number) (s : State) : State :=
  mkState (name s) (notes s) (weekA s) (useWeekB s) v (qtyA s) (qtyB s)
    (weekPickerOpen s).

Definition setUseWeekB (v : bool) (s : State) : State :=
  mkState (name s) (notes s) (weekA s) v (weekB s) (qtyA s) (qtyB s)
    (weekPickerOpen s).

Definition setQtyA (f : WeekQuantities -> WeekQuantities) (s : State) : State :=
  mkState (name s) (notes s) (weekA s) (useWeekB s) (weekB s) (f (qtyA s))
    (qtyB s) (weekPickerOpen s).

Definition setQtyB (f : WeekQuantities -> WeekQuantities) (s : State) : State :=
  mkState (name s) (notes s) (weekA s) (useWeekB s) (weekB s) (qtyA s)
    (f (qtyB s)) (weekPickerOpen s).

Definition setWeekPickerOpen (v : option Which) (s : State) : State :=
  mkState (name s) (notes s) (weekA s) (useWeekB s) (weekB s) (qtyA s)
    (qtyB s) v.

Definition changeQty (which : Which) (day : DayName) (meal : MealType)
  (delta : Z) (s : State) : State :=
  let setter := match which with A => setQtyA | B => setQtyB end in
  setter (bump day meal delta) s.

Definition toggleWeekB (s : State) : State := setUseWeekB (negb (useWeekB s)) s.

Section WithMenus.
Variable menusByWeek : MenusByWeek.

Definition availableWeeks : list number :=
  let nums := sort_asc (filter isFinite (weekKeys menusByWeek)) in
  match nums with
  | [] => WEEK_OPTIONS
  | _ => nums
  end.

(** [availableWeeks[0] ?? 1]. *)
Definition firstWeek : number :=
  match availableWeeks with w :: _ => w | [] => num 1 end.

(** [first === 48 ? 47 : first + 1]. *)
Definition nextTo (first : number) : number :=
  if strict_eq first (num 48) then num 47 else num_add first (num 1).

(** The initialiser of [weekB], and its reset in [clearOrder]. *)
Definition secondWeek (first : number) : number :=
  match find_other first availableWeeks with
  | Some second => second
  | None => nextTo first
  end.

Definition initial : State :=
  mkState [] [] firstWeek false (secondWeek firstWeek)
    emptyWeekQuantities emptyWeekQuantities None.

Definition getPricingForWeek (weekNumber : number) : Z * Z :=
  let m := getMenuForWeek menusByWeek weekNumber in
  let basePrice :=
    match m with
    | Some w => match price w with Some p => p | None => DEFAULT_BASE_PRICE end
    | None => DEFAULT_BASE_PRICE
    end in
  let lowCarbExtra :=
    match m with
    | Some w =>
        match lowCarbExtra w with Some e => e | None => DEFAULT_LOW_CARB_EXTRA end
    | None => DEFAULT_LOW_CARB_EXTRA
    end in
  (basePrice, lowCarbExtra).

Definition weekATotalMeals (s : State) : Z := sumWeekMeals (qtyA s).
Definition weekBTotalMeals (s : State) : Z :=
  if useWeekB s then sumWeekMeals (qtyB s) else 0.
Definition weekATotalCost (s : State) : Z :=
  let '(basePriceA, lowCarbExtraA) := getPricingForWeek (weekA s) in
  sumWeekCost (qtyA s) basePriceA lowCarbExtraA.
Definition weekBTotalCost (s : State) : Z :=
  let '(basePriceB, lowCarbExtraB) := getPricingForWeek (weekB s) in
  if useWeekB s then sumWeekCost (qtyB s) basePriceB lowCarbExtraB else 0.
Definition totalMeals (s : State) : Z := weekATotalMeals s + weekBTotalMeals s.
Definition totalCost (s : State) : Z := weekATotalCost s + weekBTotalCost s.

Definition clearOrder (s : State) : State :=
  let first := firstWeek in
  mkState [] [] first false (secondWeek first)
    emptyWeekQuantities emptyWeekQuantities None.

Definition pickWeek (which : Which) (value : number) (s : State)
  : State * option Alert :=
  match which with
  | A =>
      if useWeekB s && strict_eq value (weekB s) then (s, Some NotAllowedA)
      else
        let s1 := setWeekA value s in
        let s2 :=
          if useWeekB s
             && (negb (has availableWeeks (weekB s)) || strict_eq (weekB s) value)
          then
            match find_other value availableWeeks with
            | Some next => if strict_eq next (num 0) then s1 else setWeekB next s1
            | None => s1
            end
          else s1 in
        (setWeekPickerOpen None s2, None)
  | B =>
      if strict_eq value (weekA s) then (s, Some NotAllowedB)
      else (setWeekPickerOpen None (setWeekB value s), None)
  end.

End WithMenus.

Definition setName (v : jsstring) (s : State) : State :=
  mkState v (notes s) (weekA s) (useWeekB s) (weekB s) (qtyA s) (qtyB s)
    (weekPickerOpen s).

Definition setNotes (v : jsstring) (s : State) : State :=
  mkState (name s) v (weekA s) (useWeekB s) (weekB s) (qtyA s) (qtyB s)
    (weekPickerOpen s).

Definition openWeekPicker (which : Which) (s : State) : State :=
  setWeekPickerOpen (Some which) s.

Section UI.
Variable menusByWeek : MenusByWeek.

(** The effect "If menus.json changes and weekA/weekB aren't valid, fix them
    automatically"; both tests read the weeks of the render it closes over. *)
Definition fixWeeks (s : State) : State :=
  let avail := availableWeeks menusByWeek in
  let s1 :=
    if negb (has avail (weekA s)) then setWeekA (firstWeek menusByWeek) s
    else s in
  if negb (has avail (weekB s)) || strict_eq (weekB s) (weekA s) then
    match find_other (weekA s) avail with
    | Some pick => if truthy_num pick then setWeekB pick s1 else s1
    | None => s1
    end
  else s1.

(** The validation that opens [sendWhatsApp]. *)
Definition sendWhatsApp_check (s : State) : option SendAlert :=
  let avail := availableWeeks menusByWeek in
  if negb (has avail (weekA s)) then Some WeekANotAvailable
  else if useWeekB s then
    if negb (has avail (weekB s)) then Some WeekBNotAvailable
    else if strict_eq (weekB s) (weekA s) then Some WeekBSame
    else None
  else None.

(** A row of the week list in [WeekPickerModal]. *)
Definition pressWeekItem (which : Which) (item : number) (s : State)
  : State * option Alert :=
  let other := match which with A => weekB s | B => weekA s end in
  let otherEnabled := match which with A => useWeekB s | B => true end in
  let disabled := otherEnabled && strict_eq item other in
  if negb disabled then pickWeek menusByWeek which item s else (s, None).

End UI.

End Priced.

(* ================================================================== *)
(** ** [Single]: src/App.tsx, second component (one week, Meat and Veg) *)

Module Single.

Definition MEAL_PRICE : Z := 90.

Record DayOrder := mkDayOrder { meat : Z; veg : Z }.

(** [Record<DayKey, DayOrder>]. *)
Record WeekOrder := mkWeekOrder {
  oMonday : DayOrder;
  oTuesday : DayOrder;
  oWednesday : DayOrder;
  oThursday : DayOrder;
  oFriday : DayOrder
}.

(** ["meat" | "veg"]. *)
Inductive Field := FMeat | FVeg.

Definition emptyWeek : WeekOrder :=
  mkWeekOrder (mkDayOrder 0 0) (mkDayOrder 0 0) (mkDayOrder 0 0)
    (mkDayOrder 0 0) (mkDayOrder 0 0).

Definition getDay (o : WeekOrder) (d : DayName) : DayOrder :=
  match d with
  | Monday => oMonday o | Tuesday => oTuesday o | Wednesday => oWednesday o
  | Thursday => oThursday o | Friday => oFriday o
  end.

Definition setDay (o : WeekOrder) (d : DayName) (r : DayOrder) : WeekOrder :=
  match d with
  | Monday =>
      mkWeekOrder r (oTuesday o) (oWednesday o) (oThursday o) (oFriday o)
  | Tuesday =>
      mkWeekOrder (oMonday o) r (oWednesday o) (oThursday o) (oFriday o)
  | Wednesday =>
      mkWeekOrder (oMonday o) (oTuesday o) r (oThursday o) (oFriday o)
  | Thursday =>
      mkWeekOrder (oMonday o) (oTuesday o) (oWednesday o) r (oFriday o)
  | Friday =>
      mkWeekOrder (oMonday o) (oTuesday o) (oWednesday o) (oThursday o) r
  end.

Definition getField (r : DayOrder) (f : Field) : Z :=
  match f with FMeat => meat r | FVeg => veg r end.

(** The value the "-" button of [Stepper] passes to [onChange]. *)
Definition stepDown (value : Z) : Z := Z.max 0 (value - 1).

(** The value the "+" button of [Stepper] passes to [onChange]. *)
Definition stepUp (value : Z) : Z := value + 1.

Record State := mkState {
  name : jsstring;
  week : Z;
  order : WeekOrder;
  vegan : bool;
  lowCarb : bool
}.

Definition initial : State := mkState (js "Stephanie") 1 emptyWeek false false.

Definition setWeek (v : Z) (s : State) : State :=
  mkState (name s) v (order s) (vegan s) (lowCarb s).

Definition setName (v : jsstring) (s : State) : State :=
  mkState v (week s) (order s) (vegan s) (lowCarb s).

Definition setVegan (v : bool) (s : State) : State :=
  mkState (name s) (week s) (order s) v (lowCarb s).

Definition setLowCarb (v : bool) (s : State) : State :=
  mkState (name s) (week s) (order s) (vegan s) v.

Definition updateDay (day : DayName) (field : Field) (value : Z) (s : State)
  : State :=
  let prev := order s in
  let r :=
    match field with
    | FMeat => mkDayOrder value (veg (getDay prev day))
    | FVeg => mkDayOrder (meat (getDay prev day)) value
    end in
  mkState (name s) (week s) (setDay prev day r) (vegan s) (lowCarb s).

Definition totalMeals (s : State) : Z :=
  fold_left
    (fun totalMeals d =>
       totalMeals + (meat (getDay (order s) d) + veg (getDay (order s) d)))
    DAYS 0.

Definition totalCost (s : State) : Z := totalMeals s * MEAL_PRICE.

(** The line of one day in [buildWhatsAppMessage]. *)
Definition dayLine (s : State) (d : DayName) : jsstring :=
  let day := getDay (order s) d in
  let parts :=
    (if 0 <? meat day then [js "x" ++ String_Z (meat day) ++ js " Meat"] else [])
    ++ (if 0 <? veg day then [js "x" ++ String_Z (veg day) ++ js " Veg"] else [])
  in
  DayName_label d ++ js ": "
  ++ match parts with [] => js "-" | _ => join (js " ") parts end.

(** The array [lines] of [buildWhatsAppMessage] when it is joined. *)
Definition messageLines (s : State) : list jsstring :=
  [js "Evening Meal Order" ++ LF;
   js "Name: " ++ name s;
   js "Week: " ++ padStart0 2 (String_Z (week s)) ++ LF]
  ++ map (dayLine s) DAYS
  ++ [[];
      js "Vegan: " ++ (if vegan s then js "Yes" else js "No");
      js "Low Carb: " ++ (if lowCarb s then js "Yes" else js "No");
      [];
      js "Total Meals: " ++ String_Z (totalMeals s);
      js "Total Cost: R" ++ toFixed2 (totalCost s)].

Definition buildWhatsAppMessage
  (encodeURIComponent : jsstring -> option jsstring) (s : State)
  : option jsstring :=
  encodeURIComponent (join LF (messageLines s)).

(** What the user can do on the form. *)
Inductive Event : Type :=
| TypeName (v : jsstring)
| WeekMinus
| WeekPlus
| QtyMinus (d : DayName) (f : Field)
| QtyPlus (d : DayName) (f : Field)
| SwitchVegan (v : bool)
| SwitchLowCarb (v : bool).

Definition step (s : State) (e : Event) : State :=
  match e with
  | TypeName v => setName v s
  | WeekMinus => setWeek (stepDown (week s)) s
  | WeekPlus => setWeek (stepUp (week s)) s
  | QtyMinus d f => updateDay d f (stepDown (getField (getDay (order s) d) f)) s
  | QtyPlus d f => updateDay d f (stepUp (getField (getDay (order s) d) f)) s
  | SwitchVegan v => setVegan v s
  | SwitchLowCarb v => setLowCarb v s
  end.

Definition run (events : list Event) (s : State) : State :=
  fold_left step events s.

End Single.

(* ================================================================== *)
(** ** Sequences of quantity changes *)

(** One press of a stepper: [changeQty(which, day, meal, delta)]. *)
Record Call := mkCall {
  target : Which;
  day : DayName;
  meal : MealType;
  delta : Z
}.

Definition Picker_grid (w : Which) (s : Picker.State) : WeekQuantities :=
  match w with A => Picker.qtyA s | B => Picker.qtyB s end.

Definition Menus_grid (w : Which) (s : Menus.State) : WeekQuantities :=
  match w with A => Menus.qtyA s | B => Menus.qtyB s end.

Definition Priced_grid (w : Which) (s : Priced.State) : WeekQuantities :=
  match w with A => Priced.qtyA s | B => Priced.qtyB s end.

Definition Picker_changeAll (calls : list Call) (s : Picker.State) : Picker.State :=
  fold_left
    (fun s c => Picker.changeQty (target c) (day c) (meal c) (delta c) s)
    calls s.

Definition Menus_changeAll (calls : list Call) (s : Menus.State) : Menus.State :=
  fold_left
    (fun s c => Menus.changeQty (target c) (day c) (meal c) (delta c) s)
    calls s.

Definition Priced_changeAll (calls : list Call) (s : Priced.State) : Priced.State :=
  fold_left
    (fun s c => Priced.changeQty (target c) (day c) (meal c) (delta c) s)
    calls s.

Definition hits (w : Which) (d : DayName) (m : MealType) (c : Call) : bool :=
  Which_eqb (target c) w && DayName_eqb (day c) d && MealType_eqb (meal c) m.

(** The deltas of the calls that target one cell, in call order. *)
Definition deltasFor (w : Which) (d : DayName) (m : MealType)
  (calls : list Call) : list Z :=
  map delta (filter (hits w d m) calls).

Definition sumZ (l : list Z) : Z := fold_right Z.add 0 l.

(** The quantity of a cell after calls of [changeQty] with the deltas [ds]
    from 0, computed as the code does: [clamp0(prev + delta)] on numbers. *)
Definition walk_num (ds : list Z) : number :=
  fold_left (fun q d => clamp0_num (num_add q (num d))) ds (num 0).

(** The lowest running total of a sequence of deltas, the empty prefix
    included (so it is at most 0). *)
Fixpoint lowest (ds : list Z) : Z :=
  match ds with
  | [] => 0
  | d :: ds' => Z.min 0 (d + lowest ds')
  end.

(* ================================================================== *)
(** ** Totals as the specification words them *)

Definition all_cells : list (DayName * MealType) :=
  [(Monday, Meat); (Monday, Veg); (Monday, LowCarb);
   (Tuesday, Meat); (Tuesday, Veg); (Tuesday, LowCarb);
   (Wednesday, Meat); (Wednesday, Veg); (Wednesday, LowCarb);
   (Thursday, Meat); (Thursday, Veg); (Thursday, LowCarb);
   (Friday, Meat); (Friday, Veg); (Friday, LowCarb)].

(** Sum of the quantities of all cells. *)
Definition cells_total (q : WeekQuantities) : Z :=
  sumZ (map (fun dm => cell q (fst dm) (snd dm)) all_cells).

(** [basePrice + lowCarbExtra] for Low Carb, [basePrice] otherwise. *)
Definition unit_price (basePrice lowCarbExtra : Z) (m : MealType) : Z :=
  match m with
  | LowCarb => basePrice + lowCarbExtra
  | _ => basePrice
  end.

(** Sum over all cells of quantity times unit price. *)
Definition cells_cost (basePrice lowCarbExtra : Z) (q : WeekQuantities) : Z :=
  sumZ (map (fun dm =>
               cell q (fst dm) (snd dm) * unit_price basePrice lowCarbExtra (snd dm))
          all_cells).



(** A whole number that binary64 represents, with all whole numbers up to
    it: at most 2^53 in absolute value. *)
Definition safe (z : Z) : Prop := Z.abs z <= 2 ^ 53.




(** Monday Meat = 2, Wednesday Veg = 1, every other cell zero. *)
Definition scenarioGrid : WeekQuantities :=
  let z := mkDay 0 0 0 in
  mkWeek (mkDay 2 0 0) z (mkDay 0 1 0) z z.

(** The lines of a text: [text.split("\n")]. *)
Fixpoint lines_of (text : jsstring) : list jsstring :=
  match text with
  | [] => [[]]
  | c :: rest =>
      if (c =? 10)%N then [] :: lines_of rest
      else match lines_of rest with
           | l :: ls => (c :: l) :: ls
           | [] => [[c]]
           end
  end.

(** A string without line break. *)
Definition one_line (s : jsstring) : bool :=
  forallb (fun c => negb (c =? 10)%N) s.




(** The text a notes field adds after the total line of a non-empty text. *)
Definition notesSuffix (notes : jsstring) : jsstring :=
  if truthy (trim notes) then LF ++ LF ++ js "Notes: " ++ trim notes else [].

(* ================================================================== *)
(** ** Week slots and sample catalogs *)

Definition Menus_slot (w : Which) (s : Menus.State) : number :=
  match w with A => Menus.weekA s | B => Menus.weekB s end.

(** A menus.json whose only key is "52". *)
Definition menus52 : Menus.MenusByWeek := Menus.mkMenus [num 52] (fun _ => None).

(** A menus.json with the keys "48" and "52". *)
Definition menus48_52 : Menus.MenusByWeek :=
  Menus.mkMenus [num 48; num 52] (fun _ => None).

(** A menus.json with the keys "3" and "4" and no date ranges or dishes. *)
Definition menus34 : Menus.MenusByWeek :=
  Menus.mkMenus [num 4; num 3]
    (fun _ => Some (Menus.mkMenu (js "Menu") None (fun _ => None))).

(* ================================================================== *)
(** ** User events of the versions with a week picker *)

(** What the user can do on the form of [Picker] and [Priced]; [PressItem i]
    is a press on row [i] of the open week list. *)
Inductive UIEvent : Type :=
| TypeName (v : jsstring)
| TypeNotes (v : jsstring)
| OpenPicker (w : Which)
| ClosePicker
| PressItem (i : nat)
| ToggleWeekB
| PressMinus (w : Which) (d : DayName) (m : MealType)
| PressPlus (w : Which) (d : DayName) (m : MealType)
| PressClear.

Definition Picker_step (s : Picker.State) (e : UIEvent)
  : Picker.State * option Alert :=
  match e with
  | TypeName v => (Picker.setName v s, None)
  | TypeNotes v => (Picker.setNotes v s, None)
  | OpenPicker w => (Picker.openWeekPicker w s, None)
  | ClosePicker => (Picker.setWeekPickerOpen None s, None)
  | PressItem i =>
      match Picker.weekPickerOpen s, nth_error WEEK_OPTIONS i with
      | Some which, Some item => Picker.pressWeekItem which item s
      | _, _ => (s, None)
      end
  | ToggleWeekB => (Picker.toggleWeekB s, None)
  | PressMinus w d m => (Picker.changeQty w d m (-1) s, None)
  | PressPlus w d m => (Picker.changeQty w d m 1 s, None)
  | PressClear => (Picker.clearOrder s, None)
  end.

Definition Priced_step (mb : Priced.MenusByWeek) (s : Priced.State)
  (e : UIEvent) : Priced.State * option Alert :=
  match e with
  | TypeName v => (Priced.setName v s, None)
  | TypeNotes v => (Priced.setNotes v s, None)
  | OpenPicker w => (Priced.openWeekPicker w s, None)
  | ClosePicker => (Priced.setWeekPickerOpen None s, None)
  | PressItem i =>
      match Priced.weekPickerOpen s, nth_error (Priced.availableWeeks mb) i with
      | Some which, Some item => Priced.pressWeekItem mb which item s
      | _, _ => (s, None)
      end
  | ToggleWeekB => (Priced.toggleWeekB s, None)
  | PressMinus w d m => (Priced.changeQty w d m (-1) s, None)
  | PressPlus w d m => (Priced.changeQty w d m 1 s, None)
  | PressClear => (Priced.clearOrder mb s, None)
  end.

(** The state after a list of events, and the alerts raised on the way. *)
Definition run_events {St : Type} (step : St -> UIEvent -> St * option Alert)
  (events : list UIEvent) (s : St) : St * list Alert :=
  fold_left
    (fun acc e =>
       let '(s', a) := step (fst acc) e in
       (s', snd acc ++ match a with Some x => [x] | None => [] end))
    events (s, []).

(** Every cell of a grid is non-negative. *)
Definition nonneg (q : WeekQuantities) : Prop :=
  forall d m, 0 <= cell q d m.

(** Some meal is ordered on day [d]. *)
Definition dayHasOrder (q : WeekQuantities) (d : DayName) : bool :=
  existsb (fun m => 0 <? cell q d m) MEAL_TYPES.

(** The number of cells of day [d] with a positive quantity. *)
Definition dishesOn (q : WeekQuantities) (d : DayName) : nat :=
  List.length (filter (fun m => 0 <? cell q d m) MEAL_TYPES).

(* ================================================================== *)
(** ** Invariants *)

(** A list of numbers in ascending order. *)
Definition ascending (l : list number) : Prop :=
  StronglySorted (fun a b => num_le a b = true) l.

(** What every state of [Picker] reached from the form satisfies. *)
Definition Picker_inv (s : Picker.State) : Prop :=
  In (Picker.weekA s) WEEK_OPTIONS /\ In (Picker.weekB s) WEEK_OPTIONS
  /\ nonneg (Picker.qtyA s) /\ nonneg (Picker.qtyB s).

(** What every state of [Priced] reached from the form satisfies. *)
Definition Priced_inv (mb : Priced.MenusByWeek) (s : Priced.State) : Prop :=
  In (Priced.weekA s) (Priced.availableWeeks mb)
  /\ (find_other (Priced.firstWeek mb) (Priced.availableWeeks mb) <> None ->
      In (Priced.weekB s) (Priced.availableWeeks mb))
  /\ nonneg (Priced.qtyA s) /\ nonneg (Priced.qtyB s).

(** What every state of [Single] reached from the form satisfies. *)
Definition Single_inv (s : Single.State) : Prop :=
  0 <= Single.week s
  /\ forall d f, 0 <= Single.getField (Single.getDay (Single.order s) d) f.

(* ================================================================== *)
(** * Properties *)

(** ** Whole numbers in binary64 *)

Lemma round_half_even_exact k : round_half_even k 1 = k.
Proof. unfold round_half_even. now rewrite Z.div_1_r, Z.mod_1_r. Qed.

Lemma Qred_inject_Z z : Qred (inject_Z z) = inject_Z z.
Proof.
  unfold Qred, inject_Z.
  pose proof (Z.ggcd_gcd z 1) as Hg.
  pose proof (Z.ggcd_correct_divisors z 1) as Hd.
  destruct (Z.ggcd z 1) as [g [r1 r2]]. cbn [fst snd] in *.
  rewrite Z.gcd_1_r in Hg. subst g. destruct Hd as [H1 H2].
  rewrite !Z.mul_1_l in *. now subst.
Qed.

Lemma Qred_whole q z : q == inject_Z z -> Qred q = inject_Z z.
Proof. intros H. rewrite <- (Qred_inject_Z z). now apply Qred_complete. Qed.

(** Rounding leaves a whole number up to 2^53 as it is. *)
Lemma round64_whole q z : safe z -> q == inject_Z z -> round64 q = num z.
Proof.
  unfold safe. intros Hz Hq. unfold round64, num. rewrite (Qred_whole q z Hq).
  cbn [inject_Z Qnum Qden].
  destruct (Z.eqb_spec (Z.abs z) 0) as [H0|H0].
  - f_equal. assert (z = 0) by lia. now subst.
  - assert (Ha : 0 < Z.abs z) by lia.
    pose proof (Z.log2_spec _ Ha) as [Hlo Hhi].
    pose proof (Z.log2_nonneg (Z.abs z)) as Hl0.
    pose proof (Z.abs_sgn z) as Hs.
    set (L := Z.log2 (Z.abs z)) in *.
    assert (HL : L <= 53).
    { destruct (Z_le_gt_dec L 53) as [H|H]; [exact H|].
      assert (2 ^ 54 <= 2 ^ L) by (apply Z.pow_le_mono_r; lia).
      assert (2 ^ 53 < 2 ^ 54) by (apply Z.pow_lt_mono_r; lia). lia. }
    assert (He : last_place (Z.abs z) 1 = L - 52).
    { unfold last_place. fold L. change (Z.log2 1) with 0.
      replace (L - 0 - 53 + 53) with L by lia.
      unfold reaches, scale.
      replace (0 <=? L) with true by (symmetry; apply Z.leb_le; lia).
      replace (1 * 2 ^ L <=? Z.abs z) with true
        by (symmetry; apply Z.leb_le; lia).
      lia. }
    rewrite He. unfold scale, pow2.
    destruct (Z.leb_spec 0 (L - 52)) as [Hpos|Hneg].
    + assert (L = 52 \/ L = 53) as [->| ->] by lia.
      * change (52 - 52) with 0. change (2 ^ 0) with 1.
        rewrite round_half_even_exact.
        replace (2 ^ 1024 <=? Z.abs z * 1) with false.
        2:{ symmetry. apply Z.leb_gt.
            assert (2 ^ 53 < 2 ^ 1024) by (apply Z.pow_lt_mono_r; lia). lia. }
        cbn [andb]. f_equal. apply Qred_whole.
        unfold Qeq. cbn [Qnum Qden inject_Z Qmult]. lia.
      * change (53 - 52) with 1. change (2 ^ 1) with 2.
        assert (Hz53 : Z.abs z = 2 ^ 53) by lia.
        rewrite Hz53 in *.
        replace (round_half_even (2 ^ 53) (1 * 2)) with (2 ^ 52)
          by (vm_compute; reflexivity).
        replace (2 ^ 1024 <=? 2 ^ 52 * 2) with false
          by (vm_compute; reflexivity).
        cbn [andb]. f_equal. apply Qred_whole.
        unfold Qeq. cbn [Qnum Qden inject_Z Qmult].
        change (2 ^ 52) with 4503599627370496.
        change (2 ^ 53) with 9007199254740992 in Hs. lia.
    + rewrite round_half_even_exact. cbn [andb]. f_equal. apply Qred_whole.
      assert (Hp : 0 < 2 ^ (- (L - 52))) by (apply Z.pow_pos_nonneg; lia).
      unfold Qeq. cbn [Qnum Qden inject_Z Qmult].
      rewrite Pos.mul_1_l, Z2Pos.id by exact Hp.
      rewrite !Z.mul_1_r, Z.mul_assoc, (Z.mul_comm (Z.sgn z)), Hs. reflexivity.
Qed.

Lemma num_add_whole a b : safe (a + b) -> num_add (num a) (num b) = num (a + b).
Proof.
  intros H. cbn [num_add num]. apply round64_whole; [exact H|].
  now rewrite inject_Z_plus.
Qed.


(** Adding a whole number to a number that is [===] a whole number. *)
Lemma num_add_whole_eq n z k :
  strict_eq n (num z) = true -> safe (z + k) -> num_add n (num k) = num (z + k).
Proof.
  destruct n as [q| | |]; try discriminate. cbn [strict_eq num].
  intros Hq H. apply Qeq_bool_iff in Hq. cbn [num_add].
  apply round64_whole; [exact H|]. now rewrite Hq, inject_Z_plus.
Qed.

Lemma num_lt_whole a b : num_lt (num a) (num b) = (a <? b).
Proof.
  cbn. destruct (Z.ltb_spec a b) as [H|H].
  - destruct (Qle_bool (inject_Z b) (inject_Z a)) eqn:E; [|reflexivity].
    apply Qle_bool_iff in E. rewrite <- Zle_Qle in E. lia.
  - apply negb_false_iff, Qle_bool_iff. now rewrite <- Zle_Qle.
Qed.

Lemma clamp0_num_whole z : clamp0_num (num z) = num (clamp0 z).
Proof. unfold clamp0_num, clamp0. rewrite num_lt_whole. now destruct (z <? 0). Qed.

Lemma strict_eq_whole a b : strict_eq (num a) (num b) = (a =? b).
Proof.
  cbn. destruct (Z.eqb_spec a b) as [->|H].
  - apply Qeq_bool_iff. reflexivity.
  - destruct (Qeq_bool (inject_Z a) (inject_Z b)) eqn:E; [|reflexivity].
    apply Qeq_bool_iff in E. unfold Qeq in E. cbn in E. lia.
Qed.

(** ** Quantities *)

Lemma clamp0_max (n : Z) : clamp0 n = Z.max 0 n.
Proof. unfold clamp0. destruct (Z.ltb_spec n 0); lia. Qed.

Lemma or0_id (x : Z) : or0 x = x.
Proof. unfold or0. destruct (Z.eqb_spec x 0); congruence. Qed.

Lemma bump_max_bump d m delta q : bump_max d m delta q = bump d m delta q.
Proof. unfold bump_max, bump. now rewrite or0_id, clamp0_max. Qed.

(** A change touches exactly one cell. *)
Lemma cell_bump d m delta q d' m' :
  cell (bump d m delta q) d' m' =
  if DayName_eqb d d' && MealType_eqb m m'
  then clamp0 (cell q d' m' + delta)
  else cell q d' m'.
Proof. destruct q, d, m, d', m'; reflexivity. Qed.

Lemma Picker_grid_changeQty w w' d m delta s :
  Picker_grid w (Picker.changeQty w' d m delta s) =
  if Which_eqb w' w then bump d m delta (Picker_grid w s) else Picker_grid w s.
Proof. destruct w, w'; reflexivity. Qed.

Lemma Menus_grid_changeQty w w' d m delta s :
  Menus_grid w (Menus.changeQty w' d m delta s) =
  if Which_eqb w' w then bump d m delta (Menus_grid w s) else Menus_grid w s.
Proof. destruct w, w'; simpl; now rewrite ?bump_max_bump. Qed.

Lemma Priced_grid_changeQty w w' d m delta s :
  Priced_grid w (Priced.changeQty w' d m delta s) =
  if Which_eqb w' w then bump d m delta (Priced_grid w s) else Priced_grid w s.
Proof. destruct w, w'; reflexivity. Qed.

Lemma lowest_nonpos ds : lowest ds <= 0.
Proof. destruct ds; simpl; lia. Qed.

Lemma lowest_le_sum ds : lowest ds <= sumZ ds.
Proof. induction ds as [|d ds IH]; simpl; lia. Qed.

(** Repeated clamped addition, from any non-negative start. *)
Lemma clamped_walk ds : forall q, 0 <= q ->
  fold_left (fun q d => clamp0 (q + d)) ds q =
  Z.max (q + sumZ ds) (sumZ ds - lowest ds).
Proof.
  induction ds as [|d ds IH]; intros q Hq; simpl.
  - lia.
  - rewrite IH by (rewrite clamp0_max; lia).
    rewrite clamp0_max. pose proof (lowest_nonpos ds). lia.
Qed.

Section Changes.
Context {St : Type} (grid : Which -> St -> WeekQuantities)
  (change : Which -> DayName -> MealType -> Z -> St -> St).
Hypothesis grid_change : forall w w' d m delta s,
  grid w (change w' d m delta s) =
  if Which_eqb w' w then bump d m delta (grid w s) else grid w s.

(** After any calls, a cell holds the clamped walk of its own deltas. *)
Lemma cell_changeAll calls : forall s w d m,
  cell (grid w (fold_left
                  (fun s c => change (target c) (day c) (meal c) (delta c) s)
                  calls s)) d m =
  fold_left (fun q x => clamp0 (q + x)) (deltasFor w d m calls)
    (cell (grid w s) d m).
Proof.
  induction calls as [|c calls IH]; intros s w d m; [reflexivity|].
  cbn [fold_left]. rewrite IH, grid_change.
  unfold deltasFor, hits. cbn [filter].
  destruct (Which_eqb (target c) w); cbn [andb]; [|reflexivity].
  rewrite cell_bump.
  destruct (DayName_eqb (day c) d); cbn [andb]; [|reflexivity].
  destruct (MealType_eqb (meal c) m); reflexivity.
Qed.

End Changes.

(** C1, as stated, fails: a decrement at zero followed by an increment
    leaves Monday/Meat at 1, while max(0, sum of the deltas) is 0. *)
Lemma decrement_then_increment_gives_one :
  let calls := [mkCall A Monday Meat (-1); mkCall A Monday Meat 1] in
  cell (Picker.qtyA (Picker_changeAll calls Picker.initial)) Monday Meat = 1
  /\ Z.max 0 (sumZ (deltasFor A Monday Meat calls)) = 0
  /\ cell (Picker.qtyA (Picker_changeAll calls Picker.initial)) Monday Meat
     <> Z.max 0 (sumZ (deltasFor A Monday Meat calls)).
Proof. cbv. repeat split; congruence. Qed.

Lemma sum_abs_nonneg ds : 0 <= sumZ (map Z.abs ds).
Proof.
  unfold sumZ. induction ds as [|d ds IH]; cbn [map fold_right]; lia.
Qed.

(** While every running value stays within 2^53, the walk computed on
    numbers is the walk computed on integers. *)
Lemma walk_num_whole ds : forall q,
  0 <= q -> q + sumZ (map Z.abs ds) <= 2 ^ 53 ->
  fold_left (fun q d => clamp0_num (num_add q (num d))) ds (num q)
  = num (fold_left (fun q d => clamp0 (q + d)) ds q).
Proof.
  induction ds as [|d ds IH]; intros q Hq Hb; [reflexivity|].
  change (sumZ (map Z.abs (d :: ds)))
    with (Z.abs d + sumZ (map Z.abs ds)) in Hb.
  cbn [fold_left].
  pose proof (sum_abs_nonneg ds).
  rewrite num_add_whole by (unfold safe; lia).
  rewrite clamp0_num_whole.
  apply IH; rewrite clamp0_max; lia.
Qed.

(** C1 (amended): after any finite sequence of [changeQty] calls from the
    empty grids, with whole-number deltas whose absolute values add up to at
    most 2^53 on the cell (so that every sum the code forms is exact), a
    cell holds the sum of the deltas aimed at it minus their lowest running
    total (each decrement below zero is absorbed when it happens); this is
    also the value that [clamp0(prev + delta)] gives step by step in
    binary64 arithmetic.  The quantity is never negative, is at least
    max(0, sum of the deltas), and equals it when no running total drops
    below zero.  This holds for the three versions of [changeQty]. *)
Theorem quantity_is_clamped_walk (calls : list Call) (w : Which)
  (d : DayName) (m : MealType) (mb : Priced.MenusByWeek) :
  let ds := deltasFor w d m calls in
  let q := cell (Picker_grid w (Picker_changeAll calls Picker.initial)) d m in
  sumZ (map Z.abs ds) <= 2 ^ 53 ->
  q = sumZ ds - lowest ds
  /\ walk_num ds = num q
  /\ cell (Menus_grid w (Menus_changeAll calls Menus.initial)) d m = q
  /\ cell (Priced_grid w (Priced_changeAll calls (Priced.initial mb))) d m = q
  /\ 0 <= q
  /\ Z.max 0 (sumZ ds) <= q
  /\ (lowest ds = 0 -> q = Z.max 0 (sumZ ds)).
Proof.
  intros ds q Hb.
  pose proof (lowest_nonpos ds). pose proof (lowest_le_sum ds).
  assert (Hw : q = fold_left (fun q x => clamp0 (q + x)) ds 0).
  { subst q. unfold Picker_changeAll.
    rewrite (cell_changeAll Picker_grid Picker.changeQty Picker_grid_changeQty).
    fold ds. now replace (cell _ d m) with 0 by (destruct w, d, m; reflexivity). }
  assert (Hq : q = sumZ ds - lowest ds).
  { rewrite Hw, clamped_walk by lia. lia. }
  repeat split; try lia.
  - unfold walk_num. change (num 0) with (num 0).
    rewrite (walk_num_whole ds 0) by lia. now rewrite <- Hw.
  - unfold Menus_changeAll.
    rewrite (cell_changeAll Menus_grid Menus.changeQty Menus_grid_changeQty).
    fold ds. replace (cell _ d m) with 0 by (destruct w, d, m; reflexivity).
    rewrite clamped_walk by lia. lia.
  - unfold Priced_changeAll.
    rewrite (cell_changeAll Priced_grid Priced.changeQty Priced_grid_changeQty).
    fold ds. replace (cell _ d m) with 0 by (destruct w, d, m; reflexivity).
    rewrite clamped_walk by lia. lia.
Qed.

Lemma quantity_is_clamped_walk_witness :
  let calls := [mkCall A Monday Meat 1; mkCall B Friday Veg (-1);
                mkCall A Monday Meat 1; mkCall A Monday Meat (-1)] in
  sumZ (map Z.abs (deltasFor A Monday Meat calls)) <= 2 ^ 53
  /\ lowest (deltasFor A Monday Meat calls) = 0
  /\ cell (Picker.qtyA (Picker_changeAll calls Picker.initial)) Monday Meat
     = Z.max 0 (sumZ (deltasFor A Monday Meat calls)).
Proof.
  intro calls.
  assert (Hb : sumZ (map Z.abs (deltasFor A Monday Meat calls)) <= 2 ^ 53)
    by (vm_compute; discriminate).
  split; [exact Hb|]. split; [reflexivity|].
  apply (quantity_is_clamped_walk calls A Monday Meat
           (Priced.mkMenus [] (fun _ => None)) Hb).
  reflexivity.
Defined.

(** ** Totals *)

(** The cells and the costs written out. *)
Lemma cells_of_grid q :
  cells_total q
  = cell q Monday Meat + cell q Monday Veg + cell q Monday LowCarb
    + cell q Tuesday Meat + cell q Tuesday Veg + cell q Tuesday LowCarb
    + cell q Wednesday Meat + cell q Wednesday Veg + cell q Wednesday LowCarb
    + cell q Thursday Meat + cell q Thursday Veg + cell q Thursday LowCarb
    + cell q Friday Meat + cell q Friday Veg + cell q Friday LowCarb.
Proof. unfold cells_total, all_cells. cbn [map sumZ fold_right fst snd]. lia. Qed.


(** The three versions of [sumWeekMeals] and [sumWeekCost] as sums over the
    cells. *)
Lemma Picker_sums q :
  Picker.sumWeekMeals q = cells_total q
  /\ Picker.sumWeekCost q = cells_cost 90 10 q.
Proof.
  destruct q as [[? ? ?] [? ? ?] [? ? ?] [? ? ?] [? ? ?]].
  split; cbv -[Z.add Z.mul]; lia.
Qed.

Lemma Menus_sums q :
  Menus.sumWeekMeals q = cells_total q
  /\ Menus.sumWeekCost q = cells_cost 90 10 q.
Proof.
  unfold Menus.sumWeekMeals, Menus.sumWeekCost.
  destruct q as [[? ? ?] [? ? ?] [? ? ?] [? ? ?] [? ? ?]].
  split; cbv -[Z.add Z.mul or0]; rewrite ?or0_id; lia.
Qed.

Lemma Priced_sums q b e :
  Priced.sumWeekMeals q = cells_total q
  /\ Priced.sumWeekCost q b e = cells_cost b e q.
Proof.
  destruct q as [[? ? ?] [? ? ?] [? ? ?] [? ? ?] [? ? ?]].
  split; cbv -[Z.add Z.mul]; lia.
Qed.




(* ------------------------------------------------------------------ *)
(** *** The rounding error of binary64

    Every operation on numbers rounds its exact result to binary64, with a
    relative error of at most 2^-53 in the normal range.  For amounts in
    cents up to 10^13 the errors of a whole cost computation stay far below
    half a cent, so [toFixed(2)] prints the exact sum of the cells. *)


Section Rounding.
Local Open Scope Q_scope.



























Lemma Qfloor_between z (x : Q) :
  inject_Z z <= x -> x < inject_Z (z + 1) -> Qfloor x = z.
Proof.
  intros H1 H2.
  apply Qfloor_resp_le in H1. rewrite Qfloor_Z in H1.
  pose proof (Qfloor_le x) as H3.
  assert (H4 : inject_Z (Qfloor x) < inject_Z (z + 1))
    by (eapply Qle_lt_trans; eassumption).
  rewrite <- Zlt_Qlt in H4. lia.
Qed.

Lemma Qabs_nonneg_eq (y : Q) : 0 <= y -> Qabs y = y.
Proof.
  destruct y as [n d]. unfold Qle. cbn [Qnum Qden Qabs]. intros H.
  rewrite Z.abs_eq by lia. reflexivity.
Qed.



End Rounding.

(** On a whole amount from 0 to below 10^21, [toFixed(2)] prints the amount
    and two zeros. *)
Lemma toFixed2_num_whole so z :
  0 <= z < 10 ^ 21 -> toFixed2_num so (num z) = toFixed2 z.
Proof.
  intros [H0 H1]. unfold toFixed2_num, toFixed2, num.
  assert (Hz : (0 <= inject_Z z)%Q) by (now rewrite Zle_Qle in H0).
  rewrite (Qabs_nonneg_eq _ Hz). change (Qnum (inject_Z z)) with z.
  replace (z <? 0) with false by (symmetry; apply Z.ltb_ge; exact H0).
  assert (Hbig : Qle_bool (inject_Z (10 ^ 21)) (inject_Z z) = false).
  { destruct (Qle_bool (inject_Z (10 ^ 21)) (inject_Z z)) eqn:Eb;
      [|reflexivity].
    apply Qle_bool_iff in Eb. rewrite <- Zle_Qle in Eb. lia. }
  rewrite Hbig.
  assert (Hf : Qfloor (inject_Z z * 100 + (1 # 2)) = z * 100).
  { apply Qfloor_between.
    - unfold Qle. cbn. lia.
    - unfold Qlt. cbn. lia. }
  cbv zeta. rewrite Hf, Z.div_mul, Z.mod_mul by lia. reflexivity.
Qed.



(** C5: whenever [useWeekB] is false, [totalMeals] and [totalCost] are the
    totals of grid A alone, whatever quantities grid B holds (also nonzero
    ones left from a time when the second week was switched on). *)
Theorem weekB_inert_when_disabled :
  (forall s, Picker.useWeekB s = false -> forall qB,
      let s' := Picker.setQtyB (fun _ => qB) s in
      Picker.totalMeals s' = Picker.sumWeekMeals (Picker.qtyA s)
      /\ Picker.totalCost s' = Picker.sumWeekCost (Picker.qtyA s))
  /\ (forall s, Menus.useWeekB s = false -> forall qB,
      let s' := Menus.setQtyB (fun _ => qB) s in
      Menus.totalMeals s' = Menus.sumWeekMeals (Menus.qtyA s)
      /\ Menus.totalCost s' = Menus.sumWeekCost (Menus.qtyA s))
  /\ (forall mb s, Priced.useWeekB s = false -> forall qB,
      let s' := Priced.setQtyB (fun _ => qB) s in
      Priced.totalMeals s' = Priced.sumWeekMeals (Priced.qtyA s)
      /\ Priced.totalCost mb s'
         = Priced.sumWeekCost (Priced.qtyA s)
             (fst (Priced.getPricingForWeek mb (Priced.weekA s)))
             (snd (Priced.getPricingForWeek mb (Priced.weekA s)))).
Proof.
  repeat split.
  - unfold Picker.totalMeals, Picker.weekBTotalMeals, Picker.weekATotalMeals.
    cbn. rewrite H. lia.
  - unfold Picker.totalCost, Picker.weekBTotalCost, Picker.weekATotalCost.
    cbn. rewrite H. lia.
  - unfold Menus.totalMeals, Menus.weekBTotalMeals, Menus.weekATotalMeals.
    cbn. rewrite H. lia.
  - unfold Menus.totalCost, Menus.weekBTotalCost, Menus.weekATotalCost.
    cbn. rewrite H. lia.
  - unfold Priced.totalMeals, Priced.weekBTotalMeals, Priced.weekATotalMeals.
    cbn. rewrite H. lia.
  - unfold Priced.totalCost, Priced.weekBTotalCost, Priced.weekATotalCost.
    cbn [Priced.setQtyB Priced.useWeekB Priced.weekA Priced.weekB Priced.qtyA].
    rewrite H.
    destruct (Priced.getPricingForWeek mb (Priced.weekA s)).
    destruct (Priced.getPricingForWeek mb (Priced.weekB s)).
    cbn [fst snd]. lia.
Qed.

Lemma weekB_inert_when_disabled_witness :
  let s := Picker.toggleWeekB
             (Picker.changeQty B Monday Meat 1
                (Picker.changeQty B Friday LowCarb 1
                   (Picker.changeQty A Tuesday Veg 1
                      (Picker.toggleWeekB Picker.initial)))) in
  Picker.useWeekB s = false
  /\ Picker.sumWeekMeals (Picker.qtyB s) = 2
  /\ Picker.totalMeals s = Picker.sumWeekMeals (Picker.qtyA s)
  /\ Picker.totalCost s = Picker.sumWeekCost (Picker.qtyA s).
Proof.
  intro s. split; [reflexivity|]. split; [reflexivity|].
  exact (proj1 weekB_inert_when_disabled s eq_refl (Picker.qtyB s)).
Defined.

(** ** Week selection *)

Lemma in_range_num_1 : in_range (num 1).
Proof. split; unfold Qle; simpl; lia. Qed.

Lemma in_range_num_48 : in_range (num 48).
Proof. split; unfold Qle; simpl; lia. Qed.

(** Clamping of a finite number: the nearer bound outside 1..48, the number
    itself inside. *)
Lemma clamp_finite (q : Q) :
  Math_min (num 48) (Math_max (num 1) (Fin q)) =
  if Qle_bool 1 q then (if Qle_bool 48 q then num 48 else Fin q) else num 1.
Proof.
  unfold Math_max, Math_min, num, inject_Z. cbn [num_le].
  destruct (Qle_bool 1 q); reflexivity.
Qed.

Lemma clamp_finite_in_range (q : Q) :
  in_range (Math_min (num 48) (Math_max (num 1) (Fin q))).
Proof.
  rewrite clamp_finite.
  destruct (Qle_bool 1 q) eqn:H1; [|apply in_range_num_1].
  destruct (Qle_bool 48 q) eqn:H48; [apply in_range_num_48|].
  apply Qle_bool_iff in H1. split; [exact H1|].
  destruct (Qlt_le_dec q 48) as [Hlt|Hge].
  - now apply Qlt_le_weak.
  - apply Qle_bool_iff in Hge. congruence.
Qed.

Lemma in_range_finite n : in_range n -> isFinite n = true.
Proof. destruct n; simpl; tauto. Qed.

Lemma insert_asc_In x y l : In y (insert_asc x l) -> y = x \/ In y l.
Proof.
  induction l as [|z l IH]; simpl.
  - intuition.
  - destruct (num_le x z); simpl; intuition.
Qed.

Lemma sort_asc_In y l : In y (sort_asc l) -> In y l.
Proof.
  induction l as [|x l IH]; simpl; [tauto|].
  intros H. apply insert_asc_In in H. intuition.
Qed.

(** [availableWeeks] holds finite numbers only ([filter(Number.isFinite)]). *)
Lemma availableWeeks_finite mb w :
  In w (Menus.availableWeeks mb) -> isFinite w = true.
Proof.
  unfold Menus.availableWeeks. intros H.
  apply sort_asc_In, filter_In in H. tauto.
Qed.

Lemma find_other_Some x arr alt :
  find_other x arr = Some alt -> In alt arr /\ strict_eq alt x = false.
Proof.
  unfold find_other. intros H. apply find_some in H.
  destruct H as [Hin Hne]. split; [exact Hin|].
  now destruct (strict_eq alt x).
Qed.

Lemma has_and_other_two x arr alt :
  has arr x = true -> find_other x arr = Some alt ->
  (1 <? List.length arr)%nat = true.
Proof.
  destruct arr as [|a [|b arr]]; simpl; try reflexivity; try discriminate.
  unfold find_other. simpl. destruct (strict_eq a x); simpl; discriminate.
Qed.

Lemma clampWeek_finite mb n : isFinite (Menus.clampWeek mb n) = true.
Proof.
  unfold Menus.clampWeek. destruct n as [q| | |]; cbn [isFinite negb].
  - apply in_range_finite, clamp_finite_in_range.
  - destruct (Menus.availableWeeks mb) eqn:E; [reflexivity|].
    apply (availableWeeks_finite mb). rewrite E. now left.
  - destruct (Menus.availableWeeks mb) eqn:E; [reflexivity|].
    apply (availableWeeks_finite mb). rewrite E. now left.
  - destruct (Menus.availableWeeks mb) eqn:E; [reflexivity|].
    apply (availableWeeks_finite mb). rewrite E. now left.
Qed.

Lemma clampWeek_in_range mb n :
  Forall in_range (Menus.availableWeeks mb) -> in_range (Menus.clampWeek mb n).
Proof.
  intros Hall. unfold Menus.clampWeek.
  destruct n as [q| | |]; cbn [isFinite negb];
    try apply clamp_finite_in_range;
    (destruct (Menus.availableWeeks mb); [apply in_range_num_1|];
     now inversion Hall).
Qed.

(** What [setWeekSafely] can leave in a slot: the old value, the clamped
    argument, or an available week. *)
Lemma setWeekSafely_stores mb which n s w :
  let r := fst (Menus.setWeekSafely mb which n s) in
  Menus_slot w r = Menus_slot w s
  \/ Menus_slot w r = Menus.clampWeek mb n
  \/ In (Menus_slot w r) (Menus.availableWeeks mb).
Proof.
  unfold Menus.setWeekSafely.
  destruct (_ && negb _); [now left|].
  destruct which;
    (destruct (_ && _ && _);
     [destruct (find_other _ _) as [alt|] eqn:E;
      [apply find_other_Some in E; destruct E as [Hin _]|]|]);
    destruct w; cbn; auto.
Qed.

(** C3, as stated, fails: with no menus loaded, [setWeekSafely("A", 49)] from
    the initial state raises no alert and stores the clamped week 48 in
    slot A, which held 1. *)
Lemma week_49_is_stored_as_48 :
  let r := Menus.setWeekSafely Menus.noMenus A (num 49) Menus.initial in
  snd r = None
  /\ Menus.weekA Menus.initial = num 1
  /\ Menus.weekA (fst r) = num 48
  /\ ~ (snd r <> None /\ Menus.weekA (fst r) = Menus.weekA Menus.initial).
Proof.
  cbv zeta. repeat split.
  intros [Halert _]. apply Halert. reflexivity.
Qed.

(** C3 (amended): [setWeekSafely] does not reject a finite week number
    outside 1..48 as out of range; it clamps it to the nearer bound (49
    becomes 48, 0 becomes 1).  When menus are loaded and do not list the
    clamped week, the call raises the "Menu not available" alert and leaves
    the state unchanged; otherwise it raises no alert and stores the clamped
    week in the slot.  In the version with the week picker the range 1..48
    is checked when the order is sent: [sendWhatsApp] stops with the alert
    "Week A must be between 1 and 48.", or with the one for week B when the
    second week is switched on. *)
Theorem out_of_range_week_is_clamped :
  (forall (mb : Menus.MenusByWeek) (which : Which) (q : Q) (s : Menus.State),
     (q < 1 \/ 48 < q)%Q ->
     let next := if Qle_bool 1 q then num 48 else num 1 in
     let avail := Menus.availableWeeks mb in
     let r := Menus.setWeekSafely mb which (Fin q) s in
     Menus.clampWeek mb (Fin q) = next
     /\ (avail <> [] -> has avail next = false ->
         r = (s, Some (MenuNotAvailable next)))
     /\ (avail = [] \/ has avail next = true ->
         snd r = None /\ Menus_slot which (fst r) = next))
  /\ (forall p : Picker.State,
       num_lt (Picker.weekA p) (num 1) = true
       \/ num_lt (num 48) (Picker.weekA p) = true ->
       Picker.sendWhatsApp_check p = Some WeekARange)
  /\ (forall p : Picker.State,
       Picker.sendWhatsApp_check p <> Some WeekARange ->
       Picker.useWeekB p = true ->
       num_lt (Picker.weekB p) (num 1) = true
       \/ num_lt (num 48) (Picker.weekB p) = true ->
       Picker.sendWhatsApp_check p = Some WeekBRange).
Proof.
  split; [|split].
  - intros mb which q s Hout next avail r.
    assert (Hc : Menus.clampWeek mb (Fin q) = next).
    { unfold Menus.clampWeek. cbn [isFinite negb]. rewrite clamp_finite.
      subst next. destruct (Qle_bool 1 q) eqn:H1; [|reflexivity].
      destruct (Qle_bool 48 q) eqn:H48; [reflexivity|].
      exfalso. apply Qle_bool_iff in H1. destruct Hout as [Hlt|Hgt].
      - exact (Qlt_not_le _ _ Hlt H1).
      - apply Qlt_le_weak, Qle_bool_iff in Hgt. congruence. }
    split; [exact Hc|].
    subst r. unfold Menus.setWeekSafely. rewrite Hc. fold avail. split.
    + intros Hne Hhas. rewrite Hhas.
      destruct avail; [congruence|reflexivity].
    + intros Hok.
      assert (Hg : (0 <? List.length avail)%nat && negb (has avail next) = false).
      { destruct Hok as [-> | ->]; [reflexivity|]. apply andb_false_r. }
      rewrite Hg.
      destruct which;
        (destruct (_ && _ && _); [destruct (find_other _ _)|]); now split.
  - intros p Hout. unfold Picker.sendWhatsApp_check.
    destruct Hout as [-> | ->]; [reflexivity|].
    now rewrite orb_true_r.
  - intros p HA HB Hout. unfold Picker.sendWhatsApp_check in *.
    destruct (num_lt (Picker.weekA p) (num 1) || num_lt (num 48) (Picker.weekA p));
      [congruence|].
    rewrite HB. destruct Hout as [-> | ->]; [reflexivity|].
    now rewrite orb_true_r.
Qed.

Lemma out_of_range_week_is_clamped_witness :
  let r := Menus.setWeekSafely menus34 B (num 0) Menus.initial in
  (Menus.clampWeek menus34 (num 0) = num 1
   /\ r = (Menus.initial, Some (MenuNotAvailable (num 1))))
  /\ Picker.sendWhatsApp_check (Picker.setWeekA (num 49) Picker.initial)
     = Some WeekARange
  /\ Picker.sendWhatsApp_check
       (Picker.setWeekB (num 0) (Picker.toggleWeekB Picker.initial))
     = Some WeekBRange.
Proof.
  destruct out_of_range_week_is_clamped as [HM [HA HB]].
  assert (Hout : (inject_Z 0 < 1 \/ 48 < inject_Z 0)%Q)
    by (left; reflexivity).
  destruct (HM menus34 B (inject_Z 0) Menus.initial Hout) as [Hc [Hrej _]].
  split; [|split].
  - split; [exact Hc|]. apply Hrej; [discriminate|reflexivity].
  - apply HA. right. reflexivity.
  - apply HB; [discriminate|reflexivity|]. left. reflexivity.
Defined.

(** C10, as stated, fails.  With a menus.json whose only key is "52",
    [setWeekSafely("A", NaN)] stores 52.  With the keys "48" and "52", the
    weeks 48 and 52 selected after loading and the second week switched on,
    the "-" stepper of week B calls [setWeekSafely("B", 51)], which moves
    slot A from 48 to 52. *)
Lemma week_52_is_stored :
  let r := Menus.setWeekSafely menus52 A NaN Menus.initial in
  let s := Menus.setUseWeekB true
             (Menus.defaultWeeks menus48_52
                (Menus.setMenusLoaded true Menus.initial)) in
  let r' := Menus.setWeekSafely menus48_52 B (num 51) s in
  (snd r = None
   /\ Menus.weekA (fst r) = num 52
   /\ ~ in_range (Menus.weekA (fst r)))
  /\ (Menus.weekA s = num 48 /\ Menus.weekB s = num 52
      /\ snd r' = None
      /\ Menus.weekA (fst r') = num 52
      /\ Menus.weekB (fst r') = num 48
      /\ ~ in_range (Menus.weekA (fst r'))).
Proof.
  cbv zeta. repeat split.
  - intros [_ H]. revert H. unfold Qle. simpl. lia.
  - intros [_ H]. revert H. unfold Qle. simpl. lia.
Qed.

(** C10 (amended): [clampWeek] maps a non-finite number to the first
    available week (1 when none is available) and clamps a finite number
    into [1, 48]; its result is always finite.  After [setWeekSafely] each
    week slot holds its previous value or a finite number, so the call never
    stores NaN or an infinity; and when every available week of the catalog
    lies in [1, 48], each slot holds its previous value or a week in
    [1, 48]. *)
Theorem setWeekSafely_stores_finite_weeks (mb : Menus.MenusByWeek)
  (which : Which) (n : number) (s : Menus.State) :
  let r := fst (Menus.setWeekSafely mb which n s) in
  (isFinite n = false ->
   Menus.clampWeek mb n = hd (num 1) (Menus.availableWeeks mb))
  /\ (isFinite n = true -> in_range (Menus.clampWeek mb n))
  /\ isFinite (Menus.clampWeek mb n) = true
  /\ (forall w, Menus_slot w r = Menus_slot w s
                \/ isFinite (Menus_slot w r) = true)
  /\ (Forall in_range (Menus.availableWeeks mb) ->
      forall w, Menus_slot w r = Menus_slot w s \/ in_range (Menus_slot w r)).
Proof.
  intros r. repeat split.
  - intros Hn. unfold Menus.clampWeek. rewrite Hn. cbn [negb].
    now destruct (Menus.availableWeeks mb).
  - destruct n; try discriminate. intros _. apply clamp_finite_in_range.
  - apply clampWeek_finite.
  - intros w. destruct (setWeekSafely_stores mb which n s w) as [H|[H|H]].
    + now left.
    + right. fold r in H. rewrite H. apply clampWeek_finite.
    + right. now apply (availableWeeks_finite mb).
  - intros Hall w. destruct (setWeekSafely_stores mb which n s w) as [H|[H|H]].
    + now left.
    + right. fold r in H. rewrite H. now apply clampWeek_in_range.
    + right. rewrite Forall_forall in Hall. now apply Hall.
Qed.

Lemma setWeekSafely_stores_finite_weeks_witness :
  let r := fst (Menus.setWeekSafely menus34 A PosInf Menus.initial) in
  Menus.weekA r = num 3 /\ in_range (Menus.weekA r).
Proof.
  assert (Hall : Forall in_range (Menus.availableWeeks menus34)).
  { repeat constructor; unfold Qle; simpl; lia. }
  destruct (setWeekSafely_stores_finite_weeks menus34 A PosInf Menus.initial)
    as [_ [_ [_ [_ Hr]]]].
  split; [reflexivity|].
  destruct (Hr Hall A) as [H|H]; [discriminate H|exact H].
Defined.

(** C4, as stated, fails: with the second week switched on and no menus
    loaded, [setWeekSafely("B", 1)] while slot A holds 1 raises no alert and
    stores 1 in slot B; the call completes with both slots equal. *)
Lemma weekB_set_equal_to_weekA :
  let s := Menus.setUseWeekB true Menus.initial in
  let r := Menus.setWeekSafely Menus.noMenus B (num 1) s in
  Menus.useWeekB (fst r) = true
  /\ snd r = None
  /\ Menus.weekB s = num 2
  /\ Menus.weekB (fst r) = num 1
  /\ strict_eq (Menus.weekA (fst r)) (Menus.weekB (fst r)) = true
  /\ ~ ((snd r <> None /\ Menus.weekB (fst r) = Menus.weekB s)
        \/ strict_eq (Menus.weekA (fst r)) (Menus.weekB (fst r)) = false).
Proof.
  cbv zeta. repeat split.
  intros [[Halert _]|Hne]; [now apply Halert|discriminate Hne].
Qed.

Lemma find_other_None x arr w :
  find_other x arr = None -> In w arr -> strict_eq w x = true.
Proof.
  unfold find_other. intros H Hin.
  pose proof (find_none _ _ H w Hin) as Hn. cbn in Hn.
  now destruct (strict_eq w x).
Qed.

(** When no element differs from [x], the list is empty or holds [x]. *)
Lemma find_other_None_has x arr :
  find_other x arr = None -> arr = [] \/ has arr x = true.
Proof.
  intros H. destruct arr as [|w arr]; [now left|right].
  unfold has. cbn [existsb].
  now rewrite (find_other_None x (w :: arr) w H (or_introl eq_refl)).
Qed.

Lemma strict_eq_sym a b : strict_eq a b = strict_eq b a.
Proof.
  destruct a as [x| | |], b as [y| | |]; try reflexivity. cbn.
  destruct (Qeq_bool x y) eqn:E1, (Qeq_bool y x) eqn:E2; try reflexivity.
  - apply Qeq_bool_iff in E1. symmetry in E1. apply Qeq_bool_iff in E1. congruence.
  - apply Qeq_bool_iff in E2. symmetry in E2. apply Qeq_bool_iff in E2. congruence.
Qed.

(** C4 (amended): setting slot B to the value held by slot A
    - is rejected by [pickWeek] with the "Not allowed" alert, the state
      unchanged (both versions of [pickWeek]);
    - in [setWeekSafely], with the second week switched on, ends in one of
      three ways: it is refused with the "Menu not available" alert, the
      state unchanged, when menus are loaded and do not list the week; it is
      resolved by moving slot A to the first available week that differs, so
      that the call ends with weekA different from weekB, when the menus
      list the week and a week that differs from it; and it is stored as
      asked, leaving both slots equal, when no available week differs from
      it (no menus loaded, or every key of menus.json is that week). *)
Theorem duplicate_week_in_slot_B :
  (forall s v, strict_eq v (Picker.weekA s) = true ->
     Picker.pickWeek B v s = (s, Some NotAllowedB))
  /\ (forall mb s v, strict_eq v (Priced.weekA s) = true ->
     Priced.pickWeek mb B v s = (s, Some NotAllowedB))
  /\ (forall mb s n,
     Menus.useWeekB s = true ->
     let next := Menus.clampWeek mb n in
     let avail := Menus.availableWeeks mb in
     let r := Menus.setWeekSafely mb B n s in
     strict_eq next (Menus.weekA s) = true ->
     (avail <> [] -> has avail next = false ->
      r = (s, Some (MenuNotAvailable next)))
     /\ (has avail next = true ->
         forall alt, find_other next avail = Some alt ->
           r = (Menus.setWeekB next (Menus.setWeekA alt s), None)
           /\ In alt avail
           /\ strict_eq (Menus.weekA (fst r)) (Menus.weekB (fst r)) = false)
     /\ (find_other next avail = None ->
         r = (Menus.setWeekB next s, None)
         /\ strict_eq (Menus.weekA (fst r)) (Menus.weekB (fst r)) = true)
     /\ ((avail <> [] /\ has avail next = false)
         \/ (has avail next = true /\ exists alt, find_other next avail = Some alt)
         \/ find_other next avail = None)).
Proof.
  split; [|split].
  - intros s v H. unfold Picker.pickWeek. now rewrite H.
  - intros mb s v H. unfold Priced.pickWeek. now rewrite H.
  - intros mb s n HB next avail r Heq.
    subst r. unfold Menus.setWeekSafely. fold next. fold avail.
    rewrite HB, Heq. cbn [andb]. split; [|split; [|split]].
    + intros Hne Hhas. rewrite Hhas.
      destruct avail; [congruence|reflexivity].
    + intros Hhas alt Halt. rewrite Hhas, andb_false_r.
      rewrite (has_and_other_two _ _ _ Hhas Halt), Halt.
      destruct (find_other_Some _ _ _ Halt) as [Hin Hne].
      repeat split; assumption.
    + intros Hnone.
      assert (Hg : (0 <? List.length avail)%nat && negb (has avail next) = false).
      { destruct (find_other_None_has _ _ Hnone) as [-> | ->];
          [reflexivity|apply andb_false_r]. }
      rewrite Hg, Hnone.
      assert (Hr : (if (1 <? List.length avail)%nat then s else s) = s)
        by now destruct (1 <? List.length avail)%nat.
      rewrite Hr. split; [reflexivity|].
      cbn [fst Menus.setWeekB Menus.weekA Menus.weekB].
      now rewrite strict_eq_sym.
    + destruct (find_other next avail) as [alt|] eqn:Ea; [|now right; right].
      destruct (has avail next) eqn:Eh.
      * right. left. split; [reflexivity|]. now exists alt.
      * left. split; [|reflexivity]. apply find_other_Some in Ea.
        destruct Ea as [Hin _]. intros E. rewrite E in Hin. contradiction.
Qed.

Lemma duplicate_week_in_slot_B_witness :
  let s := Menus.setWeekB (num 4)
             (Menus.setWeekA (num 3) (Menus.setUseWeekB true Menus.initial)) in
  let r := Menus.setWeekSafely menus34 B (num 3) s in
  let twice := Menus.mkMenus [num 3; num 3] (fun _ => None) in
  let r2 := Menus.setWeekSafely twice B (num 3) s in
  r = (Menus.setWeekB (num 3) (Menus.setWeekA (num 4) s), None)
  /\ strict_eq (Menus.weekA (fst r)) (Menus.weekB (fst r)) = false
  /\ r2 = (Menus.setWeekB (num 3) s, None)
  /\ strict_eq (Menus.weekA (fst r2)) (Menus.weekB (fst r2)) = true
  /\ Picker.pickWeek B (num 1) Picker.initial = (Picker.initial, Some NotAllowedB).
Proof.
  intros s r twice r2.
  destruct duplicate_week_in_slot_B as [HP [_ HM]].
  destruct (HM menus34 s (num 3) eq_refl eq_refl) as [_ [Hres _]].
  destruct (Hres eq_refl (num 4) eq_refl) as [Hr [_ Hne]].
  destruct (HM twice s (num 3) eq_refl eq_refl) as [_ [_ [Hsame _]]].
  destruct (Hsame eq_refl) as [Hr2 Heq2].
  split; [exact Hr|]. split; [exact Hne|].
  split; [exact Hr2|]. split; [exact Heq2|].
  apply HP. reflexivity.
Defined.

(** ** Clearing the order *)

(** C7, as stated, fails: [clearOrder] of the version that loads menus.json
    keeps the customer name, the switch of the second week and both week
    slots. *)
Lemma clearOrder_keeps_name_and_weeks :
  let s := Menus.mkState (js "Sam") (js "no onions") true scenarioGrid
             scenarioGrid true (num 3) (num 4) [] in
  Menus.name (Menus.clearOrder s) = js "Sam"
  /\ Menus.name (Menus.clearOrder s) <> []
  /\ Menus.useWeekB (Menus.clearOrder s) = true
  /\ Menus.weekA (Menus.clearOrder s) = num 3
  /\ Menus.weekB (Menus.clearOrder s) = num 4.
Proof. cbv zeta. repeat split. discriminate. Qed.

Lemma strict_eq_refl a : isFinite a = true -> strict_eq a a = true.
Proof. destruct a; try discriminate. intros _. cbn. now apply Qeq_bool_iff. Qed.

Lemma strict_eq_trans a b c :
  strict_eq a b = true -> strict_eq b c = true -> strict_eq a c = true.
Proof.
  destruct a, b, c; cbn; try discriminate; try reflexivity.
  rewrite !Qeq_bool_iff. intros H1 H2. now rewrite H1.
Qed.

(** Comparing a number that is [===] a whole number with another one. *)
Lemma strict_eq_num_r n z z' :
  strict_eq n (num z) = true -> strict_eq n (num z') = (z =? z').
Proof.
  intros H. destruct (Z.eqb_spec z z') as [<-|Hne]; [exact H|].
  destruct (strict_eq n (num z')) eqn:E; [|reflexivity].
  rewrite strict_eq_sym in H.
  pose proof (strict_eq_trans _ _ _ H E) as Ht.
  rewrite strict_eq_whole in Ht. apply Z.eqb_eq in Ht. contradiction.
Qed.

(** [first === 48 ? 47 : first + 1] on a whole number of the safe range:
    the next number, 47 after 48, and never the number itself. *)
Lemma nextTo_whole first z :
  strict_eq first (num z) = true -> safe (z + 1) ->
  strict_eq (Priced.nextTo first) (num (if z =? 48 then 47 else z + 1)) = true
  /\ strict_eq (Priced.nextTo first) first = false.
Proof.
  intros Hz Hs. unfold Priced.nextTo.
  rewrite (strict_eq_num_r first z 48 Hz).
  destruct (Z.eqb_spec z 48) as [->|Hne].
  - split; [now rewrite strict_eq_whole|].
    rewrite strict_eq_sym, (strict_eq_num_r first 48 47 Hz). reflexivity.
  - rewrite (num_add_whole_eq first z 1 Hz Hs). split.
    + rewrite strict_eq_whole. apply Z.eqb_refl.
    + rewrite strict_eq_sym, (strict_eq_num_r first z (z + 1) Hz).
      apply Z.eqb_neq. lia.
Qed.

(** A number that differs from the only week of a list is not in it. *)
Lemma has_other_false x y arr :
  find_other x arr = None -> strict_eq y x = false -> isFinite x = true ->
  has arr y = false.
Proof.
  intros Hnone Hne Hx. unfold has.
  destruct (existsb (fun w => strict_eq w y) arr) eqn:E; [|reflexivity].
  apply existsb_exists in E. destruct E as [w [Hin Hw]].
  pose proof (find_other_None x arr w Hnone Hin) as Hwx.
  rewrite strict_eq_sym in Hw.
  pose proof (strict_eq_trans _ _ _ Hw Hwx). congruence.
Qed.

(** C7 (amended): [clearOrder] empties the notes and both grids in every
    version.  In the two versions with a week picker it also empties the
    name, switches the second week off and resets the week slots: to 1 and 2
    with fixed weeks; with bundled menus, week A to the first available week
    and week B to the first available week that differs from it, and, when
    no available week differs and the first week is a whole number below
    2^53, to the next number (first + 1, or 47 after 48), which the menus do
    not list; these are 1 and 2 when the menus list no week.  In the version
    that loads menus.json it leaves the name, the
    switch of the second week and the week slots as they are. *)
Theorem clearOrder_resets :
  (forall s, let s' := Picker.clearOrder s in
     s' = Picker.initial
     /\ Picker.name s' = [] /\ Picker.notes s' = []
     /\ Picker.qtyA s' = emptyWeekQuantities
     /\ Picker.qtyB s' = emptyWeekQuantities
     /\ Picker.useWeekB s' = false
     /\ Picker.weekA s' = num 1 /\ Picker.weekB s' = num 2)
  /\ (forall mb s, let s' := Priced.clearOrder mb s in
     let avail := Priced.availableWeeks mb in
     s' = Priced.initial mb
     /\ Priced.name s' = [] /\ Priced.notes s' = []
     /\ Priced.qtyA s' = emptyWeekQuantities
     /\ Priced.qtyB s' = emptyWeekQuantities
     /\ Priced.useWeekB s' = false
     /\ Some (Priced.weekA s') = hd_error avail
     /\ (forall second, find_other (Priced.weekA s') avail = Some second ->
         Priced.weekB s' = second /\ In second avail
         /\ strict_eq second (Priced.weekA s') = false)
     /\ (forall z, find_other (Priced.weekA s') avail = None ->
         strict_eq (Priced.weekA s') (num z) = true -> safe (z + 1) ->
         strict_eq (Priced.weekB s') (num (if z =? 48 then 47 else z + 1)) = true
         /\ has avail (Priced.weekB s') = false)
     /\ (filter isFinite (Priced.weekKeys mb) = [] ->
         Priced.weekA s' = num 1 /\ Priced.weekB s' = num 2))
  /\ (forall s, let s' := Menus.clearOrder s in
     Menus.notes s' = []
     /\ Menus.qtyA s' = emptyWeekQuantities
     /\ Menus.qtyB s' = emptyWeekQuantities
     /\ Menus.name s' = Menus.name s
     /\ Menus.useWeekB s' = Menus.useWeekB s
     /\ Menus.weekA s' = Menus.weekA s
     /\ Menus.weekB s' = Menus.weekB s).
Proof.
  split; [|split].
  - intros s. cbv zeta. repeat split.
  - intros mb s. cbv zeta.
    cbn [Priced.clearOrder Priced.name Priced.notes Priced.qtyA Priced.qtyB
         Priced.useWeekB Priced.weekA Priced.weekB].
    split; [reflexivity|]. do 5 (split; [reflexivity|]).
    split; [|split; [|split]].
    + unfold Priced.firstWeek, Priced.availableWeeks.
      now destruct (sort_asc _).
    + intros second H. unfold Priced.secondWeek. rewrite H.
      apply find_other_Some in H. tauto.
    + intros z Hnone Hz Hs. unfold Priced.secondWeek. rewrite Hnone.
      destruct (nextTo_whole _ z Hz Hs) as [Hn Hd].
      split; [exact Hn|].
      apply (has_other_false (Priced.firstWeek mb)); [exact Hnone|exact Hd|].
      now destruct (Priced.firstWeek mb).
    + intros H. unfold Priced.secondWeek, Priced.firstWeek, Priced.availableWeeks.
      now rewrite H.
  - intros s. cbv zeta. repeat split.
Qed.

Lemma clearOrder_resets_witness :
  let mb := Priced.mkMenus [num 48] (fun _ => None) in
  let s' := Priced.clearOrder mb (Priced.toggleWeekB (Priced.initial mb)) in
  Priced.weekA s' = num 48
  /\ strict_eq (Priced.weekB s') (num 47) = true
  /\ has (Priced.availableWeeks mb) (Priced.weekB s') = false.
Proof.
  intros mb s'. split; [reflexivity|].
  destruct clearOrder_resets as [_ [HR _]].
  destruct (HR mb (Priced.toggleWeekB (Priced.initial mb)))
    as [_ [_ [_ [_ [_ [_ [_ [_ [Hone _]]]]]]]]].
  apply (Hone 48); [reflexivity|reflexivity|].
  unfold safe. vm_compute. discriminate.
Defined.

(** ** Strings *)

Lemma trimStart_spec s :
  exists l, s = l ++ trimStart s /\ forallb isWhiteSpace l = true
            /\ match trimStart s with
               | [] => True
               | c :: _ => isWhiteSpace c = false
               end.
Proof.
  induction s as [|c s IH]; simpl.
  - exists []. auto.
  - destruct (isWhiteSpace c) eqn:E.
    + destruct IH as [l [H1 [H2 H3]]]. exists (c :: l). simpl.
      rewrite E, H2. repeat split; [congruence|exact H3].
    + exists []. auto.
Qed.

Lemma trimStart_all_white s : forallb isWhiteSpace s = true -> trimStart s = [].
Proof.
  induction s as [|c s IH]; simpl; [reflexivity|].
  intros H. apply andb_prop in H. destruct H as [-> H]. auto.
Qed.

(** A notes field of white space only trims to the empty string. *)
Lemma trim_all_white s : forallb isWhiteSpace s = true -> trim s = [].
Proof.
  intros H. unfold trim. now rewrite (trimStart_all_white s H).
Qed.

(** [trim] removes white space at both ends and nothing else. *)
Lemma trim_spec s :
  exists l r, s = l ++ trim s ++ r
              /\ forallb isWhiteSpace l = true
              /\ forallb isWhiteSpace r = true
              /\ match trim s with
                 | [] => True
                 | c :: _ => isWhiteSpace c = false
                 end
              /\ match rev (trim s) with
                 | [] => True
                 | c :: _ => isWhiteSpace c = false
                 end.
Proof.
  destruct (trimStart_spec s) as [l [Hs [Hl Hhd]]].
  destruct (trimStart_spec (rev (trimStart s))) as [r [Hr [Hrw Hlast]]].
  exists l, (rev r).
  assert (Ht : trimStart s = trim s ++ rev r).
  { unfold trim, trimEnd. rewrite <- rev_app_distr, <- Hr. now rewrite rev_involutive. }
  repeat split.
  - now rewrite <- Ht.
  - exact Hl.
  - rewrite forallb_forall in *. intros x Hx. apply Hrw. now apply in_rev.
  - rewrite Ht in Hhd. destruct (trim s); [exact I|exact Hhd].
  - unfold trim, trimEnd. now rewrite rev_involutive.
Qed.

Lemma dropEmptyHead_cons x l : x <> [] -> dropEmptyHead (x :: l) = x :: l.
Proof. destruct x; [congruence|reflexivity]. Qed.

Lemma popEmptyTail_last l x : x <> [] -> popEmptyTail (l ++ [x]) = l ++ [x].
Proof.
  intros H. unfold popEmptyTail. rewrite rev_app_distr. cbn [rev app].
  rewrite dropEmptyHead_cons by exact H.
  change (x :: rev l) with (rev [x] ++ rev l).
  now rewrite <- rev_app_distr, rev_involutive.
Qed.

Lemma join_app sep l1 l2 :
  l1 <> [] -> l2 <> [] ->
  join sep (l1 ++ l2) = join sep l1 ++ sep ++ join sep l2.
Proof.
  intros H1 H2. induction l1 as [|a l1 IH]; [congruence|].
  destruct l1 as [|b l1].
  - destruct l2; [congruence|reflexivity].
  - change (join sep ((a :: b :: l1) ++ l2))
      with (a ++ sep ++ join sep ((b :: l1) ++ l2)).
    rewrite IH by discriminate.
    change (join sep (a :: b :: l1)) with (a ++ sep ++ join sep (b :: l1)).
    now rewrite <- !app_assoc.
Qed.

(** ** Notes in the order texts *)

(** Joining the lines that end with a non-empty line [t], followed by the
    optional notes lines, appends [notesSuffix] to the text without them. *)
Lemma text_with_notes (pre : list jsstring) (t n : jsstring) :
  t <> [] ->
  popEmptyTail ((pre ++ [t]) ++ Menus.notesLines n)
  = (pre ++ [t]) ++ Menus.notesLines n
  /\ join LF ((pre ++ [t]) ++ Menus.notesLines n)
     = join LF (pre ++ [t]) ++ notesSuffix n.
Proof.
  intros Ht. unfold Menus.notesLines, notesSuffix.
  destruct (truthy (trim n)).
  - split.
    + change [[]; js "Notes: " ++ trim n]
        with ([[]] ++ [js "Notes: " ++ trim n]).
      rewrite (app_assoc (pre ++ [t])).
      apply popEmptyTail_last. discriminate.
    + rewrite join_app; [reflexivity| |discriminate].
      destruct pre; discriminate.
  - rewrite !app_nil_r. split; [|reflexivity].
    now apply popEmptyTail_last.
Qed.

Lemma totalLine_nonempty s : Menus.totalLine s <> [].
Proof. unfold Menus.totalLine. discriminate. Qed.

(** Unfold the derived totals down to the fields of the state. *)
Ltac menus_fields :=
  unfold Menus.totalLine, Menus.hasAnySelections, Menus.totalMeals,
    Menus.totalCost, Menus.weekATotalMeals, Menus.weekATotalCost,
    Menus.weekBTotalMeals, Menus.weekBTotalCost;
  cbn [Menus.setNotes Menus.setExpandedDesc Menus.setMenusLoaded
       Menus.name Menus.notes Menus.weekA Menus.weekB
       Menus.qtyA Menus.qtyB Menus.useWeekB Menus.menusLoaded
       Menus.expandedDesc].


Lemma whatsappLines_shape mb so s :
  exists pre,
    Menus.whatsappLines mb so s
    = (pre ++ [Menus.totalLine s]) ++ Menus.notesLines (Menus.notes s)
    /\ Menus.whatsappLines mb so (Menus.setNotes [] s)
       = pre ++ [Menus.totalLine s].
Proof.
  exists ([js "Meal Order"; js "Name: " ++ nameOrPlaceholder (Menus.name s); []]
          ++ Menus.buildWhatsAppWeekLines mb so (Menus.weekA s) (Menus.qtyA s)
          ++ (if Menus.useWeekB s
                 && negb (strict_eq (Menus.weekB s) (Menus.weekA s))
              then [] :: Menus.buildWhatsAppWeekLines mb so (Menus.weekB s)
                           (Menus.qtyB s)
              else [])
          ++ [[]]).
  unfold Menus.whatsappLines. menus_fields.
  replace (Menus.notesLines []) with (@nil jsstring) by reflexivity.
  split; rewrite <- ?app_assoc; cbn [app]; reflexivity.
Qed.

Lemma summaryLines_shape mb so s :
  exists pre,
    Menus.summaryLines mb so s
    = (pre ++ [Menus.totalLine s]) ++ Menus.notesLines (Menus.notes s)
    /\ Menus.summaryLines mb so (Menus.setNotes [] s)
       = pre ++ [Menus.totalLine s].
Proof.
  exists ([js "Meal Order"; js "Name: " ++ nameOrPlaceholder (Menus.name s); []]
          ++ Menus.buildDetailedLinesForWeek mb so (Menus.weekA s) (Menus.qtyA s)
          ++ (if Menus.useWeekB s
                 && negb (strict_eq (Menus.weekB s) (Menus.weekA s))
              then Menus.buildDetailedLinesForWeek mb so (Menus.weekB s)
                     (Menus.qtyB s)
              else [])).
  unfold Menus.summaryLines. menus_fields.
  replace (Menus.notesLines []) with (@nil jsstring) by reflexivity.
  split; rewrite <- ?app_assoc; cbn [app]; reflexivity.
Qed.














(** ** The empty session *)

(** C6, as stated, fails: for the empty session the WhatsApp text is the
    empty string, so it holds no total line. *)
Lemma empty_session_text_has_no_total_line :
  let text := Menus.whatsappText Menus.noMenus (fun _ => []) Menus.initial in
  Menus.totalMeals Menus.initial = 0
  /\ Menus.totalCost Menus.initial = 0
  /\ text = []
  /\ includes (js "0 meals " ++ MIDDOT ++ js " R0.00") text = false.
Proof. cbv zeta. repeat split. Qed.

(** C6 (amended): for the empty session (every quantity of both grids zero)
    the totals are 0 meals and a cost of 0, shown as R0.00.  The WhatsApp
    text and the on-screen summary are then the empty string: no day line
    and no total line.  [buildOrderText] has no day line and ends, before
    the optional notes, with the lines "Total meals: 0" and
    "Total cost: R0.00". *)
Theorem empty_session_texts (so : Q -> jsstring) (mb : Menus.MenusByWeek)
  (s : Menus.State) (p : Picker.State) :
  (Menus.qtyA s = emptyWeekQuantities ->
   Menus.qtyB s = emptyWeekQuantities ->
   Menus.totalMeals s = 0 /\ Menus.totalCost s = 0
   /\ formatRand (Menus.totalCost s) = js "R0.00"
   /\ Menus.whatsappText mb so s = []
   /\ Menus.onScreenSummaryText mb so s = [])
  /\ (Picker.qtyA p = emptyWeekQuantities ->
      Picker.qtyB p = emptyWeekQuantities ->
      Picker.totalMeals p = 0 /\ Picker.totalCost p = 0
      /\ Picker.dayLines (Picker.qtyA p) = []
      /\ Picker.dayLines (Picker.qtyB p) = []
      /\ Picker.orderLines so p
         = [js "Meal Order"; js "Name: " ++ nameOrPlaceholder (Picker.name p); []]
           ++ Picker.weekBlock so (Picker.weekA p) emptyWeekQuantities 0 0
           ++ (if Picker.useWeekB p
               then Picker.weekBlock so (Picker.weekB p) emptyWeekQuantities 0 0
               else [])
           ++ [js "Total meals: 0"; js "Total cost: R0.00"]
           ++ Menus.notesLines (Picker.notes p)).
Proof.
  split.
  - intros HA HB.
    assert (Hm : Menus.totalMeals s = 0).
    { menus_fields. rewrite HA, HB. now destruct (Menus.useWeekB s). }
    assert (Hc : Menus.totalCost s = 0).
    { menus_fields. rewrite HA, HB. now destruct (Menus.useWeekB s). }
    unfold Menus.whatsappText, Menus.onScreenSummaryText, Menus.hasAnySelections.
    rewrite Hm, Hc. repeat split.
  - intros HA HB.
    assert (HmA : Picker.weekATotalMeals p = 0)
      by (unfold Picker.weekATotalMeals; now rewrite HA).
    assert (HcA : Picker.weekATotalCost p = 0)
      by (unfold Picker.weekATotalCost; now rewrite HA).
    assert (HmB : Picker.weekBTotalMeals p = 0)
      by (unfold Picker.weekBTotalMeals; rewrite HB;
          now destruct (Picker.useWeekB p)).
    assert (HcB : Picker.weekBTotalCost p = 0)
      by (unfold Picker.weekBTotalCost; rewrite HB;
          now destruct (Picker.useWeekB p)).
    assert (Hm : Picker.totalMeals p = 0)
      by (unfold Picker.totalMeals; now rewrite HmA, HmB).
    assert (Hc : Picker.totalCost p = 0)
      by (unfold Picker.totalCost; now rewrite HcA, HcB).
    rewrite HA, HB. repeat split; try assumption.
    unfold Picker.orderLines.
    now rewrite HmA, HcA, HmB, HcB, Hm, Hc, HA, HB.
Qed.

Lemma empty_session_texts_witness :
  Menus.totalMeals Menus.initial = 0
  /\ Menus.totalCost Menus.initial = 0
  /\ formatRand (Menus.totalCost Menus.initial) = js "R0.00"
  /\ Menus.whatsappText menus34 (fun _ => []) Menus.initial = []
  /\ Menus.onScreenSummaryText menus34 (fun _ => []) Menus.initial = [].
Proof.
  apply (empty_session_texts (fun _ => []) menus34 Menus.initial Picker.initial);
    reflexivity.
Defined.

(** ** The texts as functions of the session *)

Lemma texts_of_deps mb mb' so s s' :
  Menus.textDeps mb s = Menus.textDeps mb' s' ->
  Menus.onScreenSummaryText mb so s = Menus.onScreenSummaryText mb' so s'
  /\ Menus.whatsappText mb so s = Menus.whatsappText mb' so s'.
Proof.
  unfold Menus.textDeps. intros H.
  timeout 10 (injection H as Hh Hn Hno Hu Ha Hb Hqa Hqb Hm Hc Hmb).
  subst mb'.
  unfold Menus.onScreenSummaryText, Menus.whatsappText, Menus.summaryLines,
    Menus.whatsappLines, Menus.totalLine.
  timeout 10 (rewrite Hh, Hn, Hno, Hu, Ha, Hb, Hqa, Hqb, Hm, Hc).
  timeout 10 (split; reflexivity).
Qed.

(** A memo cell holds the text of the state it was computed from. *)
Lemma rendered_cell text history cell :
  Menus.rendered text history cell ->
  forall deps value, cell = Some (deps, value) ->
    exists mb s, deps = Menus.textDeps mb s /\ value = text mb s.
Proof.
  induction 1 as [|history cell mb s cell' Hr IH Hm]; intros deps value E;
    [discriminate|].
  injection E as ->. inversion Hm; subst.
  - exists mb, s. split; reflexivity.
  - exists mb, s. split; reflexivity.
  - destruct (IH _ _ eq_refl) as [mb0 [s0 [Hd Hv]]].
    exists mb0, s0. split; assumption.
Qed.

Lemma rendered_last text :
  (forall mb mb' s s',
     Menus.textDeps mb s = Menus.textDeps mb' s' -> text mb s = text mb' s') ->
  forall history mb s cell,
    Menus.rendered text (history ++ [(mb, s)]) (Some cell) ->
    cell = (Menus.textDeps mb s, text mb s).
Proof.
  intros Hdeps history mb s cell H.
  inversion H as [|history' cell0 mb' s' cell' Hr Hm Eh]; subst.
  apply app_inj_tail in Eh. destruct Eh as [-> Ep]. injection Ep as -> ->.
  inversion Hm; subst; try reflexivity.
  destruct (rendered_cell _ _ _ Hr _ _ eq_refl) as [mb0 [s0 [Hd Hv]]].
  rewrite Hv. f_equal. symmetry. now apply Hdeps.
Qed.

Lemma startsWith_app p x : startsWith p (p ++ x) = true.
Proof. induction p as [|c p IH]; [reflexivity|]. cbn. now rewrite N.eqb_refl. Qed.

Lemma whatsappLines_pop mb so s :
  popEmptyTail (Menus.whatsappLines mb so s) = Menus.whatsappLines mb so s.
Proof.
  destruct (whatsappLines_shape mb so s) as [pre [-> _]].
  apply text_with_notes, totalLine_nonempty.
Qed.

Lemma summaryLines_pop mb so s :
  popEmptyTail (Menus.summaryLines mb so s) = Menus.summaryLines mb so s.
Proof.
  destruct (summaryLines_shape mb so s) as [pre [-> _]].
  apply text_with_notes, totalLine_nonempty.
Qed.

Lemma includes_app p a b : includes p (a ++ p ++ b) = true.
Proof.
  induction a as [|c a IH].
  - cbn [app]. destruct (p ++ b) eqn:E; cbn [includes];
      rewrite <- E, startsWith_app; reflexivity.
  - cbn [app includes]. rewrite IH. apply orb_true_r.
Qed.

Lemma join_cons sep (a : jsstring) (l : list jsstring) :
  l <> [] -> join sep (a :: l) = a ++ sep ++ join sep l.
Proof. destruct l; [congruence|reflexivity]. Qed.

(** A line that is neither the first nor the last stands in the joined text
    between two separators. *)
Lemma includes_line sep (l1 l2 : list jsstring) (x : jsstring) :
  l1 <> [] -> l2 <> [] ->
  includes (sep ++ x ++ sep) (join sep (l1 ++ x :: l2)) = true.
Proof.
  intros H1 H2. rewrite join_app by (assumption || discriminate).
  rewrite join_cons by exact H2.
  replace (join sep l1 ++ sep ++ x ++ sep ++ join sep l2)
    with (join sep l1 ++ (sep ++ x ++ sep) ++ join sep l2)
    by (now rewrite <- !app_assoc).
  apply includes_app.
Qed.

(** The text begins with its first four lines when a fifth follows. *)
Lemma startsWith_four sep (a b c d : jsstring) (rest : list jsstring) :
  rest <> [] ->
  startsWith (a ++ sep ++ b ++ sep ++ c ++ sep ++ d ++ sep)
    (join sep (a :: b :: c :: d :: rest)) = true.
Proof.
  intros H. rewrite !join_cons by (assumption || discriminate).
  replace (a ++ sep ++ b ++ sep ++ c ++ sep ++ d ++ sep ++ join sep rest)
    with ((a ++ sep ++ b ++ sep ++ c ++ sep ++ d ++ sep) ++ join sep rest)
    by (now rewrite <- !app_assoc).
  apply startsWith_app.
Qed.

Lemma startsWith_two sep (a b : jsstring) (rest : list jsstring) :
  rest <> [] ->
  startsWith (a ++ sep ++ b ++ sep) (join sep (a :: b :: rest)) = true.
Proof.
  intros H. rewrite !join_cons by (assumption || discriminate).
  replace (a ++ sep ++ b ++ sep ++ join sep rest)
    with ((a ++ sep ++ b ++ sep) ++ join sep rest)
    by (now rewrite <- !app_assoc).
  apply startsWith_app.
Qed.

Lemma app_cons_not_nil {X : Type} (l1 : list X) x l2 : l1 ++ x :: l2 <> [].
Proof. destruct l1; discriminate. Qed.

(** The line of an ordered dish in the lines of a week. *)
Lemma dish_line_in_week mb so w q d m :
  m <> LowCarb -> 0 < cell q d m ->
  let parts := Menus.getMealParts (Menus.getMenuForWeek mb w) d m in
  let shown :=
    if truthy (Menus.itemName parts) then Menus.itemName parts
    else js "Menu item" in
  exists l1 l2,
    Menus.buildDetailedLinesForWeek mb so w q
    = (Menus.weekHeading mb so w :: l1)
      ++ (js "- " ++ MealType_label m ++ js ": " ++ String_Z (cell q d m)
          ++ js " (" ++ shown ++ js ")")
      :: l2
    /\ l2 <> [].
Proof.
  intros Hm Hc parts shown.
  set (line := js "- " ++ MealType_label m ++ js ": " ++ String_Z (cell q d m)
               ++ js " (" ++ shown ++ js ")").
  set (mealLine := fun day meal =>
         let count := or0 (cell q day meal) in
         if count <=? 0 then []
         else
           let parts := Menus.getMealParts (Menus.getMenuForWeek mb w) day meal in
           let nameOnly :=
             if MealType_eqb meal LowCarb then js "Low Carb"
             else if truthy (Menus.itemName parts) then Menus.itemName parts
                  else js "Menu item" in
           [js "- " ++ MealType_label meal ++ js ": " ++ String_Z count
            ++ js " (" ++ nameOnly ++ js ")"]).
  set (block := fun day =>
         let dayLines := flat_map (mealLine day) Menus.MEALS in
         match dayLines with
         | [] => []
         | _ => DayName_label day :: dayLines
         end).
  assert (Hin1 : In line (flat_map (mealLine d) Menus.MEALS)).
  { apply in_flat_map. exists m. split; [destruct m; cbn; tauto|].
    unfold mealLine. rewrite or0_id.
    destruct (Z.leb_spec (cell q d m) 0) as [Hle|_]; [lia|].
    replace (MealType_eqb m LowCarb) with false
      by (destruct m; try reflexivity; congruence).
    left. reflexivity. }
  assert (Hin2 : In line (flat_map block DAYS)).
  { apply in_flat_map. exists d. split; [destruct d; cbn; tauto|].
    unfold block. cbv zeta.
    destruct (flat_map (mealLine d) Menus.MEALS) eqn:E;
      [contradiction|now right]. }
  apply in_split in Hin2. destruct Hin2 as [l1 [l2 Hs]].
  exists l1, (l2 ++ [js "Subtotal: " ++ String_Z (Menus.sumWeekMeals q)
                     ++ js " meals " ++ MIDDOT ++ js " "
                     ++ formatRand (Menus.sumWeekCost q); []]).
  split; [|apply app_cons_not_nil].
  transitivity
    (Menus.weekHeading mb so w
     :: flat_map block DAYS
        ++ [js "Subtotal: " ++ String_Z (Menus.sumWeekMeals q)
            ++ js " meals " ++ MIDDOT ++ js " "
            ++ formatRand (Menus.sumWeekCost q); []]);
    [reflexivity|].
  rewrite Hs. cbn [app]. now rewrite <- app_assoc.
Qed.

Lemma getMealParts_dish menu d m :
  m <> LowCarb ->
  Menus.getMealParts menu d m
  = match Menus.dishOf menu d m with
    | None => Menus.mkItem (js "Menu item coming soon.") []
    | Some it => Menus.mkItem (Menus.itemName it) (Menus.description it)
    end.
Proof.
  intros Hm. unfold Menus.getMealParts, Menus.dishOf.
  replace (MealType_eqb m LowCarb) with false
    by (destruct m; try reflexivity; congruence).
  destruct menu as [menu|]; [destruct (Menus.days menu d)|]; reflexivity.
Qed.

(** The line of a dish ordered in week A stands in the detailed summary. *)
Lemma dish_line_in_summary mb so s d m :
  Menus.hasAnySelections s = true ->
  m <> LowCarb -> 0 < cell (Menus.qtyA s) d m ->
  let parts :=
    Menus.getMealParts (Menus.getMenuForWeek mb (Menus.weekA s)) d m in
  let shown :=
    if truthy (Menus.itemName parts) then Menus.itemName parts
    else js "Menu item" in
  includes
    (LF ++ (js "- " ++ MealType_label m ++ js ": "
            ++ String_Z (cell (Menus.qtyA s) d m)
            ++ js " (" ++ shown ++ js ")") ++ LF)
    (Menus.onScreenSummaryText mb so s) = true.
Proof.
  intros Hsel Hm Hc parts shown.
  unfold Menus.onScreenSummaryText. rewrite Hsel. cbn [negb].
  rewrite summaryLines_pop. unfold Menus.summaryLines.
  destruct (dish_line_in_week mb so (Menus.weekA s) (Menus.qtyA s) d m Hm Hc)
    as [l1 [l2 [-> Hl2]]].
  fold parts. fold shown.
  match goal with
  | |- includes _ (join LF (?h ++ ((?w :: l1) ++ ?x :: l2) ++ ?t)) = true =>
      replace (h ++ ((w :: l1) ++ x :: l2) ++ t)
        with ((h ++ w :: l1) ++ x :: (l2 ++ t))
        by (now rewrite <- !app_assoc)
  end.
  apply includes_line.
  - discriminate.
  - destruct l2; [congruence|discriminate].
Qed.

Lemma weekHeading_no_menu mb so w :
  Menus.getMenuForWeek mb w = None ->
  Menus.weekHeading mb so w = js "Week " ++ pad2 so w.
Proof. intros H. unfold Menus.weekHeading. rewrite H. now rewrite app_nil_r. Qed.

(** Both texts open with the two head lines, a blank line and the heading
    of week A, and more lines follow. *)
Lemma summaryLines_head mb so s :
  exists rest,
    rest <> []
    /\ Menus.summaryLines mb so s
       = js "Meal Order" :: (js "Name: " ++ nameOrPlaceholder (Menus.name s))
         :: [] :: Menus.weekHeading mb so (Menus.weekA s) :: rest.
Proof.
  unfold Menus.summaryLines, Menus.buildDetailedLinesForWeek. cbn [app].
  eexists. split; [|reflexivity].
  rewrite <- !app_assoc. apply app_cons_not_nil.
Qed.

Lemma whatsappLines_head mb so s :
  exists rest,
    rest <> []
    /\ Menus.whatsappLines mb so s
       = js "Meal Order" :: (js "Name: " ++ nameOrPlaceholder (Menus.name s))
         :: [] :: Menus.weekHeading mb so (Menus.weekA s) :: rest.
Proof.
  unfold Menus.whatsappLines, Menus.buildWhatsAppWeekLines. cbn [app].
  eexists. split; [|reflexivity].
  rewrite app_assoc. apply app_cons_not_nil.
Qed.

(** C9: both texts are values of [useMemo]; after any sequence of renders
    the memo cell of each holds the text of the state rendered last, so a
    render that changes nothing gives the same string again and a text on
    screen is never stale.  Both are defined on every state, and missing
    data gives placeholder text in them: with a meal selected, a blank name
    gives the line "Name: [name]"; a week A without menu gives the heading
    "Week NN" without date range; and in the detailed summary a dish ordered
    in week A that menus.json does not list reads "(Menu item coming
    soon.)", and one listed without name "(Menu item)". *)
Theorem texts_are_functions_of_the_session (so : Q -> jsstring) :
  (forall history mb s cell,
     Menus.rendered (fun mb s => Menus.onScreenSummaryText mb so s)
       (history ++ [(mb, s)]) (Some cell) ->
     snd cell = Menus.onScreenSummaryText mb so s)
  /\ (forall history mb s cell,
     Menus.rendered (fun mb s => Menus.whatsappText mb so s)
       (history ++ [(mb, s)]) (Some cell) ->
     snd cell = Menus.whatsappText mb so s)
  /\ (forall mb s,
     Menus.hasAnySelections s = true ->
     let summary := Menus.onScreenSummaryText mb so s in
     let message := Menus.whatsappText mb so s in
     (forallb isWhiteSpace (Menus.name s) = true ->
      let opening := js "Meal Order" ++ LF ++ js "Name: [name]" ++ LF in
      startsWith opening summary = true /\ startsWith opening message = true)
     /\ (Menus.getMenuForWeek mb (Menus.weekA s) = None ->
         let opening :=
           js "Meal Order" ++ LF
           ++ (js "Name: " ++ nameOrPlaceholder (Menus.name s)) ++ LF
           ++ [] ++ LF
           ++ (js "Week " ++ pad2 so (Menus.weekA s)) ++ LF in
         startsWith opening summary = true /\ startsWith opening message = true)
     /\ (forall d m, m <> LowCarb -> 0 < cell (Menus.qtyA s) d m ->
         let line shown :=
           LF ++ (js "- " ++ MealType_label m ++ js ": "
                  ++ String_Z (cell (Menus.qtyA s) d m)
                  ++ js " (" ++ shown ++ js ")") ++ LF in
         let dish :=
           Menus.dishOf (Menus.getMenuForWeek mb (Menus.weekA s)) d m in
         (dish = None ->
          includes (line (js "Menu item coming soon.")) summary = true)
         /\ (forall it, dish = Some it -> Menus.itemName it = [] ->
             includes (line (js "Menu item")) summary = true)
         /\ (forall it, dish = Some it -> Menus.itemName it <> [] ->
             includes (line (Menus.itemName it)) summary = true))).
Proof.
  split; [|split].
  - intros history mb s cell H.
    apply (rendered_last (fun mb s => Menus.onScreenSummaryText mb so s)) in H.
    + rewrite H. reflexivity.
    + intros mb1 mb2 s1 s2 Hd. exact (proj1 (texts_of_deps _ _ so _ _ Hd)).
  - intros history mb s cell H.
    apply (rendered_last (fun mb s => Menus.whatsappText mb so s)) in H.
    + rewrite H. reflexivity.
    + intros mb1 mb2 s1 s2 Hd. exact (proj2 (texts_of_deps _ _ so _ _ Hd)).
  - intros mb s Hsel summary message.
    assert (Hs : summary = join LF (Menus.summaryLines mb so s)).
    { subst summary. unfold Menus.onScreenSummaryText. rewrite Hsel. cbn [negb].
      now rewrite summaryLines_pop. }
    assert (Hw : message = join LF (Menus.whatsappLines mb so s)).
    { subst message. unfold Menus.whatsappText. rewrite Hsel. cbn [negb].
      now rewrite whatsappLines_pop. }
    split; [|split].
    + intros Hblank opening. subst opening. rewrite Hs, Hw.
      destruct (summaryLines_head mb so s) as [r1 [_ ->]].
      destruct (whatsappLines_head mb so s) as [r2 [_ ->]].
      unfold nameOrPlaceholder. rewrite (trim_all_white _ Hblank).
      cbn [truthy].
      split; apply startsWith_two; discriminate.
    + intros Hmenu opening. subst opening. rewrite Hs, Hw.
      destruct (summaryLines_head mb so s) as [r1 [H1 ->]].
      destruct (whatsappLines_head mb so s) as [r2 [H2 ->]].
      rewrite (weekHeading_no_menu mb so _ Hmenu).
      split; now apply startsWith_four.
    + intros d m Hm Hc line dish.
      pose proof (dish_line_in_summary mb so s d m Hsel Hm Hc) as Hin.
      cbv zeta in Hin. fold summary in Hin.
      rewrite (getMealParts_dish _ d m Hm) in Hin. fold dish in Hin.
      split; [|split].
      * intros Hd. rewrite Hd in Hin. exact Hin.
      * intros it Hd Hn. rewrite Hd in Hin. cbn [Menus.itemName] in Hin.
        rewrite Hn in Hin. exact Hin.
      * intros it Hd Hn. rewrite Hd in Hin. cbn [Menus.itemName] in Hin.
        destruct (Menus.itemName it); [congruence|exact Hin].
Qed.

Lemma texts_are_functions_of_the_session_witness :
  let s := Menus.setName (js "  ")
             (Menus.setQtyA (fun _ => scenarioGrid) Menus.initial) in
  startsWith (js "Meal Order" ++ LF ++ js "Name: [name]" ++ LF)
    (Menus.whatsappText Menus.noMenus (fun _ => []) s) = true
  /\ includes (LF ++ js "- Meat: 2 (Menu item coming soon.)" ++ LF)
       (Menus.onScreenSummaryText Menus.noMenus (fun _ => []) s) = true.
Proof.
  intro s.
  destruct (texts_are_functions_of_the_session (fun _ => [])) as [_ [_ H]].
  destruct (H Menus.noMenus s eq_refl) as [Hname [_ Hdish]].
  split.
  - apply Hname. reflexivity.
  - assert (Hm : Meat <> LowCarb) by discriminate.
    assert (Hc : 0 < cell (Menus.qtyA s) Monday Meat) by reflexivity.
    exact (proj1 (Hdish Monday Meat Hm Hc) eq_refl).
Defined.

(* ================================================================== *)
(** * Further properties of the code *)

(** ** The grid under [changeQty] *)

Lemma cell_bump_same d m delta q :
  cell (bump d m delta q) d m = clamp0 (cell q d m + delta).
Proof. rewrite cell_bump. now destruct d, m. Qed.

Lemma cell_bump_other d m delta q d' m' :
  (d', m') <> (d, m) -> cell (bump d m delta q) d' m' = cell q d' m'.
Proof.
  intros H. rewrite cell_bump.
  destruct d, m, d', m'; try reflexivity; now elim H.
Qed.

(** X1: a call of [changeQty] replaces the quantity of its own cell by the
    clamped sum and leaves every other cell of both grids, and every other
    field of the state (name, notes, both weeks, the switch of the second
    week, the open week list, and in [Menus] the load flag and the expanded
    descriptions), as they were. *)
Theorem changeQty_touches_one_cell (w : Which) (d : DayName) (m : MealType)
  (delta : Z) :
  (forall s, let s' := Picker.changeQty w d m delta s in
     cell (Picker_grid w s') d m = clamp0 (cell (Picker_grid w s) d m + delta)
     /\ (forall w' d' m', (w', d', m') <> (w, d, m) ->
           cell (Picker_grid w' s') d' m' = cell (Picker_grid w' s) d' m')
     /\ Picker.name s' = Picker.name s /\ Picker.notes s' = Picker.notes s
     /\ Picker.weekA s' = Picker.weekA s /\ Picker.weekB s' = Picker.weekB s
     /\ Picker.useWeekB s' = Picker.useWeekB s
     /\ Picker.weekPickerOpen s' = Picker.weekPickerOpen s)
  /\ (forall s, let s' := Menus.changeQty w d m delta s in
     cell (Menus_grid w s') d m = Z.max 0 (cell (Menus_grid w s) d m + delta)
     /\ (forall w' d' m', (w', d', m') <> (w, d, m) ->
           cell (Menus_grid w' s') d' m' = cell (Menus_grid w' s) d' m')
     /\ Menus.name s' = Menus.name s /\ Menus.notes s' = Menus.notes s
     /\ Menus.weekA s' = Menus.weekA s /\ Menus.weekB s' = Menus.weekB s
     /\ Menus.useWeekB s' = Menus.useWeekB s
     /\ Menus.menusLoaded s' = Menus.menusLoaded s
     /\ Menus.expandedDesc s' = Menus.expandedDesc s)
  /\ (forall s, let s' := Priced.changeQty w d m delta s in
     cell (Priced_grid w s') d m = clamp0 (cell (Priced_grid w s) d m + delta)
     /\ (forall w' d' m', (w', d', m') <> (w, d, m) ->
           cell (Priced_grid w' s') d' m' = cell (Priced_grid w' s) d' m')
     /\ Priced.name s' = Priced.name s /\ Priced.notes s' = Priced.notes s
     /\ Priced.weekA s' = Priced.weekA s /\ Priced.weekB s' = Priced.weekB s
     /\ Priced.useWeekB s' = Priced.useWeekB s
     /\ Priced.weekPickerOpen s' = Priced.weekPickerOpen s).
Proof.
  assert (Hother : forall (w' : Which) (d' : DayName) (m' : MealType)
                     (q : WeekQuantities),
             (w', d', m') <> (w, d, m) ->
             cell (if Which_eqb w w' then bump d m delta q else q) d' m'
             = cell q d' m').
  { intros w' d' m' q H. destruct (Which_eqb w w') eqn:E; [|reflexivity].
    apply cell_bump_other. intros Heq. apply H.
    destruct w, w'; try discriminate; congruence. }
  split; [|split]; intros s; cbv zeta.
  - split; [|split].
    + rewrite Picker_grid_changeQty.
      replace (Which_eqb w w) with true by now destruct w.
      apply cell_bump_same.
    + intros w' d' m' H. rewrite Picker_grid_changeQty. now apply Hother.
    + destruct w; repeat split.
  - split; [|split].
    + rewrite Menus_grid_changeQty.
      replace (Which_eqb w w) with true by now destruct w.
      rewrite cell_bump_same. apply clamp0_max.
    + intros w' d' m' H. rewrite Menus_grid_changeQty. now apply Hother.
    + destruct w; repeat split.
  - split; [|split].
    + rewrite Priced_grid_changeQty.
      replace (Which_eqb w w) with true by now destruct w.
      apply cell_bump_same.
    + intros w' d' m' H. rewrite Priced_grid_changeQty. now apply Hother.
    + destruct w; repeat split.
Qed.

Lemma changeQty_touches_one_cell_witness :
  let s := Picker.changeQty A Monday Meat 1 Picker.initial in
  cell (Picker.qtyA s) Monday Veg = 0 /\ cell (Picker.qtyB s) Monday Meat = 0.
Proof.
  intro s.
  destruct (proj1 (changeQty_touches_one_cell A Monday Meat 1) Picker.initial)
    as [_ [H _]].
  split.
  - apply (H A Monday Veg). discriminate.
  - apply (H B Monday Meat). discriminate.
Defined.

Lemma nonneg_bump d m delta q : nonneg q -> nonneg (bump d m delta q).
Proof.
  intros H d' m'. rewrite cell_bump.
  destruct (_ && _); [rewrite clamp0_max; lia|apply H].
Qed.

Lemma nonneg_empty : nonneg emptyWeekQuantities.
Proof. intros d m. now destruct d, m. Qed.

Lemma nonneg_total q : nonneg q ->
  0 <= cells_total q
  /\ (cells_total q = 0 <-> forall d m, cell q d m = 0)
  /\ (0 < cells_total q <-> exists d m, 0 < cell q d m).
Proof.
  intros H. rewrite cells_of_grid.
  pose proof (H Monday Meat). pose proof (H Monday Veg).
  pose proof (H Monday LowCarb). pose proof (H Tuesday Meat).
  pose proof (H Tuesday Veg). pose proof (H Tuesday LowCarb).
  pose proof (H Wednesday Meat). pose proof (H Wednesday Veg).
  pose proof (H Wednesday LowCarb). pose proof (H Thursday Meat).
  pose proof (H Thursday Veg). pose proof (H Thursday LowCarb).
  pose proof (H Friday Meat). pose proof (H Friday Veg).
  pose proof (H Friday LowCarb).
  assert (Hz : cell q Monday Meat + cell q Monday Veg + cell q Monday LowCarb
    + cell q Tuesday Meat + cell q Tuesday Veg + cell q Tuesday LowCarb
    + cell q Wednesday Meat + cell q Wednesday Veg + cell q Wednesday LowCarb
    + cell q Thursday Meat + cell q Thursday Veg + cell q Thursday LowCarb
    + cell q Friday Meat + cell q Friday Veg + cell q Friday LowCarb = 0
    <-> forall d m, cell q d m = 0).
  { split.
    - intros Hs d m. destruct d, m; lia.
    - intros Hall. rewrite !Hall. reflexivity. }
  split; [lia|]. split; [exact Hz|].
  split.
  - intros Hpos.
    destruct (Z.eq_dec (cell q Monday Meat) 0); [|exists Monday, Meat; lia].
    destruct (Z.eq_dec (cell q Monday Veg) 0); [|exists Monday, Veg; lia].
    destruct (Z.eq_dec (cell q Monday LowCarb) 0); [|exists Monday, LowCarb; lia].
    destruct (Z.eq_dec (cell q Tuesday Meat) 0); [|exists Tuesday, Meat; lia].
    destruct (Z.eq_dec (cell q Tuesday Veg) 0); [|exists Tuesday, Veg; lia].
    destruct (Z.eq_dec (cell q Tuesday LowCarb) 0); [|exists Tuesday, LowCarb; lia].
    destruct (Z.eq_dec (cell q Wednesday Meat) 0); [|exists Wednesday, Meat; lia].
    destruct (Z.eq_dec (cell q Wednesday Veg) 0); [|exists Wednesday, Veg; lia].
    destruct (Z.eq_dec (cell q Wednesday LowCarb) 0);
      [|exists Wednesday, LowCarb; lia].
    destruct (Z.eq_dec (cell q Thursday Meat) 0); [|exists Thursday, Meat; lia].
    destruct (Z.eq_dec (cell q Thursday Veg) 0); [|exists Thursday, Veg; lia].
    destruct (Z.eq_dec (cell q Thursday LowCarb) 0);
      [|exists Thursday, LowCarb; lia].
    destruct (Z.eq_dec (cell q Friday Meat) 0); [|exists Friday, Meat; lia].
    destruct (Z.eq_dec (cell q Friday Veg) 0); [|exists Friday, Veg; lia].
    destruct (Z.eq_dec (cell q Friday LowCarb) 0); [|exists Friday, LowCarb; lia].
    lia.
  - intros [d [m Hdm]]. destruct d, m; lia.
Qed.




(** X3: with non-negative grids, [hasAnySelections] holds exactly when some
    cell of grid A is positive, or the second week is switched on and some
    cell of grid B is positive. *)
Theorem hasAnySelections_iff_some_cell (s : Menus.State) :
  nonneg (Menus.qtyA s) -> nonneg (Menus.qtyB s) ->
  (Menus.hasAnySelections s = true <->
   (exists d m, 0 < cell (Menus.qtyA s) d m)
   \/ (Menus.useWeekB s = true /\ exists d m, 0 < cell (Menus.qtyB s) d m)).
Proof.
  intros HA HB.
  unfold Menus.hasAnySelections, Menus.totalMeals, Menus.weekATotalMeals,
    Menus.weekBTotalMeals.
  rewrite (proj1 (Menus_sums (Menus.qtyA s))).
  rewrite (proj1 (Menus_sums (Menus.qtyB s))).
  destruct (nonneg_total _ HA) as [HA0 [_ HAp]].
  destruct (nonneg_total _ HB) as [HB0 [_ HBp]].
  rewrite Z.ltb_lt, <- HAp, <- HBp.
  destruct (Menus.useWeekB s).
  - split; [intros H|intros [H|[_ H]]]; lia.
  - split; [intros H; left; lia|intros [H|[H _]]; [lia|discriminate]].
Qed.

Lemma hasAnySelections_iff_some_cell_witness :
  let s := Menus.changeQty B Friday Veg 1 (Menus.setUseWeekB true Menus.initial) in
  Menus.hasAnySelections s = true.
Proof.
  intro s. apply (hasAnySelections_iff_some_cell s).
  - intros d m; destruct d, m; cbn; lia.
  - intros d m; destruct d, m; cbn; lia.
  - right. split; [reflexivity|]. exists Friday, Veg. reflexivity.
Defined.

Lemma bump_at_cell d m delta q v :
  clamp0 (cell q d m + delta) = v ->
  bump d m delta q = week_set q d (day_set (week_get q d) m v).
Proof. intros <-. reflexivity. Qed.

Lemma week_set_same q d m : week_set q d (day_set (week_get q d) m (cell q d m)) = q.
Proof. destruct q as [[] [] [] [] []], d, m; reflexivity. Qed.

Lemma bump_undo d m q :
  0 <= cell q d m -> bump d m (-1) (bump d m 1 q) = q.
Proof.
  intros H.
  assert (H1 : clamp0 (cell q d m + 1) = cell q d m + 1)
    by (rewrite clamp0_max; lia).
  rewrite (bump_at_cell d m 1 q _ H1).
  assert (H2 : cell (week_set q d (day_set (week_get q d) m (cell q d m + 1))) d m
               = cell q d m + 1)
    by (destruct q as [[] [] [] [] []], d, m; reflexivity).
  erewrite (bump_at_cell d m (-1) _ (cell q d m)).
  - destruct q as [[] [] [] [] []], d, m; reflexivity.
  - rewrite H2, clamp0_max. lia.
Qed.

Lemma bump_minus_at_zero d m q : cell q d m = 0 -> bump d m (-1) q = q.
Proof.
  intros H. rewrite (bump_at_cell d m (-1) q (cell q d m)).
  - apply week_set_same.
  - now rewrite H.
Qed.

(** X4: on a cell that is not negative, "+" followed by "-" gives the state
    back; "-" on a cell at zero changes nothing.  This holds in the three
    versions. *)
Theorem plus_then_minus_restores (w : Which) (d : DayName) (m : MealType) :
  (forall s, 0 <= cell (Picker_grid w s) d m ->
     Picker.changeQty w d m (-1) (Picker.changeQty w d m 1 s) = s)
  /\ (forall s, cell (Picker_grid w s) d m = 0 ->
     Picker.changeQty w d m (-1) s = s)
  /\ (forall s, 0 <= cell (Menus_grid w s) d m ->
     Menus.changeQty w d m (-1) (Menus.changeQty w d m 1 s) = s)
  /\ (forall s, cell (Menus_grid w s) d m = 0 ->
     Menus.changeQty w d m (-1) s = s)
  /\ (forall s, 0 <= cell (Priced_grid w s) d m ->
     Priced.changeQty w d m (-1) (Priced.changeQty w d m 1 s) = s)
  /\ (forall s, cell (Priced_grid w s) d m = 0 ->
     Priced.changeQty w d m (-1) s = s).
Proof.
  repeat split; intros s H; destruct s, w;
    unfold Picker.changeQty, Menus.changeQty, Priced.changeQty,
      Picker.setQtyA, Picker.setQtyB, Menus.setQtyA, Menus.setQtyB,
      Priced.setQtyA, Priced.setQtyB, Picker_grid, Menus_grid, Priced_grid in *;
    cbn [Picker.name Picker.notes Picker.weekA Picker.weekB Picker.useWeekB
         Picker.qtyA Picker.qtyB Picker.weekPickerOpen
         Menus.name Menus.notes Menus.weekA Menus.weekB Menus.useWeekB
         Menus.qtyA Menus.qtyB Menus.menusLoaded Menus.expandedDesc
         Priced.name Priced.notes Priced.weekA Priced.weekB Priced.useWeekB
         Priced.qtyA Priced.qtyB Priced.weekPickerOpen] in *;
    rewrite ?bump_max_bump;
    first [ rewrite (bump_undo d m _ H)
          | rewrite (bump_minus_at_zero d m _ H) ]; reflexivity.
Qed.

Lemma plus_then_minus_restores_witness :
  Menus.changeQty B Friday Veg (-1) (Menus.changeQty B Friday Veg 1 Menus.initial)
  = Menus.initial
  /\ Menus.changeQty B Friday Veg (-1) Menus.initial = Menus.initial.
Proof.
  destruct (plus_then_minus_restores B Friday Veg) as [_ [_ [H1 [H2 _]]]].
  split; [apply H1; cbn; lia|apply H2; reflexivity].
Defined.





(** ** Numbers *)

Lemma has_In arr x : In x arr -> isFinite x = true -> has arr x = true.
Proof.
  intros Hin Hf. unfold has. apply existsb_exists. exists x.
  split; [exact Hin|now apply strict_eq_refl].
Qed.

Lemma in_range_lt n :
  isFinite n = true ->
  (in_range n <->
   num_lt n (num 1) = false /\ num_lt (num 48) n = false).
Proof.
  destruct n as [q| | |]; try discriminate. intros _. cbn.
  rewrite !negb_false_iff, !Qle_bool_iff. reflexivity.
Qed.

Lemma WEEK_OPTIONS_range w : In w WEEK_OPTIONS -> in_range w.
Proof.
  unfold WEEK_OPTIONS. intros H. apply in_map_iff in H.
  destruct H as [i [<- Hi]]. apply in_seq in Hi.
  unfold in_range, num. split.
  - change 1%Q with (inject_Z 1). rewrite <- Zle_Qle. lia.
  - change 48%Q with (inject_Z 48). rewrite <- Zle_Qle. lia.
Qed.

(** ** Week validation and the week picker *)

(** X6: for finite weeks, the validation that opens [sendWhatsApp] in
    [Picker] passes exactly when week A lies in 1..48 and, with the second
    week switched on, week B lies in 1..48 and differs from week A.  A NaN
    week is not caught: every comparison with it is false. *)
Theorem sendWhatsApp_check_passes_iff (s : Picker.State) :
  (isFinite (Picker.weekA s) = true -> isFinite (Picker.weekB s) = true ->
   (Picker.sendWhatsApp_check s = None <->
    in_range (Picker.weekA s)
    /\ (Picker.useWeekB s = true ->
        in_range (Picker.weekB s)
        /\ strict_eq (Picker.weekB s) (Picker.weekA s) = false)))
  /\ (Picker.weekA s = NaN -> Picker.useWeekB s = false ->
      Picker.sendWhatsApp_check s = None).
Proof.
  split.
  - intros HA HB. unfold Picker.sendWhatsApp_check.
    rewrite (in_range_lt _ HA), (in_range_lt _ HB).
    destruct (num_lt (Picker.weekA s) (num 1));
      destruct (num_lt (num 48) (Picker.weekA s));
      destruct (Picker.useWeekB s);
      destruct (num_lt (Picker.weekB s) (num 1));
      destruct (num_lt (num 48) (Picker.weekB s));
      destruct (strict_eq (Picker.weekB s) (Picker.weekA s));
      cbn; intuition congruence.
  - intros HA HB. unfold Picker.sendWhatsApp_check. now rewrite HA, HB.
Qed.

Lemma sendWhatsApp_check_passes_iff_witness :
  Picker.sendWhatsApp_check (Picker.toggleWeekB Picker.initial) = None
  /\ Picker.sendWhatsApp_check (Picker.setWeekA NaN Picker.initial) = None.
Proof.
  split.
  - apply (proj1 (sendWhatsApp_check_passes_iff _)); try reflexivity.
    split; [apply in_range_num_1|]. intros _. split; [|reflexivity].
    split; unfold Qle; simpl; lia.
  - apply (proj2 (sendWhatsApp_check_passes_iff _)); reflexivity.
Defined.

(** X7: in both versions with a week picker, a pick that is rejected leaves
    the state as it is; a pick that is accepted for week B, or for week A
    while the second week is on, ends with week A different from week B;
    and a press on a row of the week list never raises the "Not allowed"
    alert, because the rows that would are disabled. *)
Theorem pickWeek_keeps_weeks_apart (which : Which) (value : number) :
  (forall s s' a, Picker.pickWeek which value s = (s', Some a) -> s' = s)
  /\ (forall s s', Picker.pickWeek which value s = (s', None) ->
      which = B \/ Picker.useWeekB s = true ->
      strict_eq (Picker.weekA s') (Picker.weekB s') = false)
  /\ (forall s, snd (Picker.pressWeekItem which value s) = None)
  /\ (forall mb s s' a,
      Priced.pickWeek mb which value s = (s', Some a) -> s' = s)
  /\ (forall mb s s', Priced.pickWeek mb which value s = (s', None) ->
      which = B \/ Priced.useWeekB s = true ->
      strict_eq (Priced.weekA s') (Priced.weekB s') = false)
  /\ (forall mb s, snd (Priced.pressWeekItem mb which value s) = None).
Proof.
  repeat split.
  - intros s s' a. unfold Picker.pickWeek.
    destruct which; destruct (_ : bool); congruence.
  - intros s s' H Hon. unfold Picker.pickWeek in H. destruct which.
    + destruct Hon as [Hon|Hon]; [discriminate|]. rewrite Hon in H. cbn in H.
      destruct (strict_eq value (Picker.weekB s)) eqn:E; [discriminate|].
      inversion H; subst. exact E.
    + destruct (strict_eq value (Picker.weekA s)) eqn:E; [discriminate|].
      inversion H; subst. cbn. now rewrite strict_eq_sym.
  - intros s. unfold Picker.pressWeekItem, Picker.pickWeek.
    destruct which; cbn [andb].
    + destruct (Picker.useWeekB s && strict_eq value (Picker.weekB s));
        reflexivity.
    + destruct (strict_eq value (Picker.weekA s)); reflexivity.
  - intros mb s s' a. unfold Priced.pickWeek.
    destruct which; destruct (_ : bool); congruence.
  - intros mb s s' H Hon. unfold Priced.pickWeek in H. destruct which.
    + destruct Hon as [Hon|Hon]; [discriminate|]. rewrite Hon in H.
      cbn [andb] in H.
      destruct (strict_eq value (Priced.weekB s)) eqn:E; [discriminate|].
      destruct (negb _ || _);
        [destruct (find_other value _) as [next|] eqn:En;
         [destruct (strict_eq next (num 0))|]|];
        inversion H; subst; cbn; try exact E.
      apply find_other_Some in En. rewrite strict_eq_sym. tauto.
    + destruct (strict_eq value (Priced.weekA s)) eqn:E; [discriminate|].
      inversion H; subst. cbn. now rewrite strict_eq_sym.
  - intros mb s. unfold Priced.pressWeekItem, Priced.pickWeek.
    destruct which; cbn [andb].
    + destruct (Priced.useWeekB s && strict_eq value (Priced.weekB s));
        reflexivity.
    + destruct (strict_eq value (Priced.weekA s)); reflexivity.
Qed.

Lemma pickWeek_keeps_weeks_apart_witness :
  let s := Picker.toggleWeekB Picker.initial in
  strict_eq (Picker.weekA (fst (Picker.pickWeek A (num 7) s)))
    (Picker.weekB (fst (Picker.pickWeek A (num 7) s))) = false
  /\ fst (Picker.pickWeek A (num 2) s) = s.
Proof.
  intro s.
  destruct (pickWeek_keeps_weeks_apart A (num 7)) as [_ [H _]].
  destruct (pickWeek_keeps_weeks_apart A (num 2)) as [H2 _].
  split.
  - apply (H s); [reflexivity|right; reflexivity].
  - apply (H2 s _ NotAllowedA). reflexivity.
Defined.

(** ** The list of available weeks *)

Lemma num_le_total a b :
  isFinite a = true -> isFinite b = true ->
  num_le a b = false -> num_le b a = true.
Proof.
  destruct a as [x| | |], b as [y| | |]; try discriminate. intros _ _. cbn.
  intros H. apply Qle_bool_iff. destruct (Qlt_le_dec y x) as [Hlt|Hle].
  - now apply Qlt_le_weak.
  - apply Qle_bool_iff in Hle. congruence.
Qed.

Lemma num_le_trans a b c :
  num_le a b = true -> num_le b c = true -> num_le a c = true.
Proof.
  destruct a as [x| | |], b as [y| | |], c as [z| | |]; cbn;
    try discriminate; try reflexivity.
  rewrite !Qle_bool_iff. apply Qle_trans.
Qed.

Lemma insert_asc_perm x l : Permutation (insert_asc x l) (x :: l).
Proof.
  induction l as [|y l IH]; cbn; [reflexivity|].
  destruct (num_le x y); [reflexivity|].
  rewrite IH. apply perm_swap.
Qed.

Lemma sort_asc_perm l : Permutation (sort_asc l) l.
Proof.
  induction l as [|x l IH]; cbn; [reflexivity|].
  rewrite insert_asc_perm. now constructor.
Qed.

Lemma insert_asc_sorted x l :
  isFinite x = true -> Forall (fun w => isFinite w = true) l ->
  ascending l -> ascending (insert_asc x l).
Proof.
  intros Hx Hl Hs. induction Hs as [|y l Hs IH Hy]; cbn.
  - repeat constructor.
  - inversion Hl as [|? ? Hfy Hfl]; subst.
    destruct (num_le x y) eqn:E.
    + constructor; [now constructor|]. constructor; [exact E|].
      eapply Forall_impl; [|exact Hy]. intros w Hw. cbn in Hw.
      now apply (num_le_trans x y w).
    + constructor; [now apply IH|].
      eapply Permutation_Forall; [symmetry; apply insert_asc_perm|].
      constructor; [now apply num_le_total|exact Hy].
Qed.

Lemma sort_asc_sorted l :
  Forall (fun w => isFinite w = true) l -> ascending (sort_asc l).
Proof.
  induction l as [|x l IH]; intros H; cbn; [constructor|].
  inversion H; subst. apply insert_asc_sorted; auto.
  eapply Permutation_Forall; [symmetry; apply sort_asc_perm|]. assumption.
Qed.

Lemma Priced_availableWeeks_cases mb :
  (filter isFinite (Priced.weekKeys mb) = []
   /\ Priced.availableWeeks mb = WEEK_OPTIONS)
  \/ (filter isFinite (Priced.weekKeys mb) <> []
      /\ Priced.availableWeeks mb
         = sort_asc (filter isFinite (Priced.weekKeys mb))).
Proof.
  unfold Priced.availableWeeks.
  destruct (filter isFinite (Priced.weekKeys mb)) as [|k ks] eqn:E.
  - left. split; reflexivity.
  - right. split; [discriminate|].
    destruct (sort_asc (k :: ks)) eqn:Es; [|reflexivity].
    pose proof (sort_asc_perm (k :: ks)) as Hp. rewrite Es in Hp.
    now apply Permutation_nil in Hp.
Qed.

Lemma filter_isFinite_Forall l : Forall (fun w => isFinite w = true) (filter isFinite l).
Proof. apply Forall_forall. intros x Hx. now apply filter_In in Hx. Qed.

Lemma WEEK_OPTIONS_finite : Forall (fun w => isFinite w = true) WEEK_OPTIONS.
Proof. apply Forall_forall. intros w Hw. apply in_range_finite. now apply WEEK_OPTIONS_range. Qed.

Lemma WEEK_OPTIONS_ascending : ascending WEEK_OPTIONS.
Proof.
  unfold WEEK_OPTIONS.
  assert (H : forall n k, ascending (map (fun i => num (Z.of_nat i + 1)) (seq k n))).
  { induction n as [|n IH]; intros k; cbn; [constructor|].
    constructor; [apply IH|].
    apply Forall_forall. intros w Hw. apply in_map_iff in Hw.
    destruct Hw as [i [<- Hi]]. apply in_seq in Hi.
    unfold num. cbn. apply Qle_bool_iff. rewrite <- Zle_Qle. lia. }
  apply H.
Qed.

Lemma Priced_availableWeeks_finite mb :
  Forall (fun w => isFinite w = true) (Priced.availableWeeks mb).
Proof.
  destruct (Priced_availableWeeks_cases mb) as [[_ ->]|[_ ->]].
  - apply WEEK_OPTIONS_finite.
  - eapply Permutation_Forall; [symmetry; apply sort_asc_perm|].
    apply filter_isFinite_Forall.
Qed.

Lemma Priced_availableWeeks_nonempty mb : Priced.availableWeeks mb <> [].
Proof.
  destruct (Priced_availableWeeks_cases mb) as [[_ ->]|[Hne ->]].
  - discriminate.
  - intros H. pose proof (sort_asc_perm (filter isFinite (Priced.weekKeys mb))) as Hp.
    rewrite H in Hp. apply Permutation_nil in Hp. contradiction.
Qed.

Lemma Priced_availableWeeks_ascending mb : ascending (Priced.availableWeeks mb).
Proof.
  destruct (Priced_availableWeeks_cases mb) as [[_ ->]|[_ ->]].
  - apply WEEK_OPTIONS_ascending.
  - apply sort_asc_sorted, filter_isFinite_Forall.
Qed.

(** X8: [availableWeeks] lists exactly the finite numbers among the keys of
    menus.json, in ascending order; in [Priced] it is never empty, because
    with no finite key it is the list 1..48. *)
Theorem availableWeeks_sorted_keys :
  (forall mb, let avail := Menus.availableWeeks mb in
     ascending avail
     /\ Forall (fun w => isFinite w = true) avail
     /\ Permutation avail (filter isFinite (Menus.weekKeys mb)))
  /\ (forall mb, let avail := Priced.availableWeeks mb in
     avail <> []
     /\ ascending avail
     /\ Forall (fun w => isFinite w = true) avail
     /\ (filter isFinite (Priced.weekKeys mb) <> [] ->
         Permutation avail (filter isFinite (Priced.weekKeys mb)))
     /\ (filter isFinite (Priced.weekKeys mb) = [] -> avail = WEEK_OPTIONS)).
Proof.
  split; intros mb avail.
  - subst avail. unfold Menus.availableWeeks. split; [|split].
    + apply sort_asc_sorted, filter_isFinite_Forall.
    + eapply Permutation_Forall; [symmetry; apply sort_asc_perm|].
      apply filter_isFinite_Forall.
    + apply sort_asc_perm.
  - subst avail. split; [apply Priced_availableWeeks_nonempty|].
    split; [|split; [apply Priced_availableWeeks_finite|]].
    + apply Priced_availableWeeks_ascending.
    + destruct (Priced_availableWeeks_cases mb) as [[E ->]|[Hne ->]]; split.
      * congruence.
      * reflexivity.
      * intros _. apply sort_asc_perm.
      * congruence.
Qed.

Lemma availableWeeks_sorted_keys_witness :
  Priced.availableWeeks (Priced.mkMenus [NaN; PosInf] (fun _ => None))
  = WEEK_OPTIONS.
Proof.
  apply (proj2 availableWeeks_sorted_keys
           (Priced.mkMenus [NaN; PosInf] (fun _ => None))).
  reflexivity.
Defined.

(** The first element of an ascending list is its least. *)
Lemma ascending_head w l x : ascending (w :: l) -> In x l -> num_le w x = true.
Proof.
  intros H Hin. inversion H as [|? ? _ Hall]; subst.
  rewrite Forall_forall in Hall. now apply Hall.
Qed.

Lemma Priced_firstWeek_In mb : In (Priced.firstWeek mb) (Priced.availableWeeks mb).
Proof.
  unfold Priced.firstWeek. pose proof (Priced_availableWeeks_nonempty mb).
  destruct (Priced.availableWeeks mb); [congruence|now left].
Qed.

Lemma Priced_In_has mb w : In w (Priced.availableWeeks mb) -> has (Priced.availableWeeks mb) w = true.
Proof.
  intros H. apply has_In; [exact H|].
  pose proof (Priced_availableWeeks_finite mb) as Hf.
  rewrite Forall_forall in Hf. now apply Hf.
Qed.

Lemma has_finite_In arr x :
  has arr x = true -> exists w, In w arr /\ strict_eq w x = true.
Proof. unfold has. intros H. now apply existsb_exists in H. Qed.

(** X9: the initial state of [Priced] (and so the state after [clearOrder])
    has week A at the least available week.  When another week is
    available, week B is the first one, so it is available and differs from
    week A.  When none is and week A is a whole number below 2^53, week B is
    the next number (47 after 48): it differs from week A and is not an
    available week.  From 2^53 on, first + 1 can be first again: with the
    single key 9007199254740992 both slots hold that week.  The repair
    effect leaves the initial state as it is, and from any state it leaves
    week A at an available week. *)
Theorem Priced_initial_weeks (mb : Priced.MenusByWeek) :
  let avail := Priced.availableWeeks mb in
  let s := Priced.initial mb in
  In (Priced.weekA s) avail
  /\ (forall w, In w avail -> num_le (Priced.weekA s) w = true)
  /\ (find_other (Priced.weekA s) avail <> None ->
      In (Priced.weekB s) avail
      /\ strict_eq (Priced.weekA s) (Priced.weekB s) = false)
  /\ (forall z, find_other (Priced.weekA s) avail = None ->
      strict_eq (Priced.weekA s) (num z) = true -> safe (z + 1) ->
      strict_eq (Priced.weekB s) (num (if z =? 48 then 47 else z + 1)) = true
      /\ strict_eq (Priced.weekA s) (Priced.weekB s) = false
      /\ has avail (Priced.weekB s) = false)
  /\ (let big := Priced.initial (Priced.mkMenus [num (2 ^ 53)] (fun _ => None)) in
      strict_eq (Priced.weekA big) (Priced.weekB big) = true)
  /\ Priced.fixWeeks mb s = s
  /\ (forall s0, has avail (Priced.weekA (Priced.fixWeeks mb s0)) = true).
Proof.
  intros avail s. subst s avail. unfold Priced.initial.
  cbn [Priced.weekA Priced.weekB].
  pose proof (Priced_firstWeek_In mb) as Hin.
  pose proof (Priced_availableWeeks_finite mb) as Hfin.
  rewrite Forall_forall in Hfin.
  split; [exact Hin|]. split; [|split; [|split; [|split; [|split]]]].
  - intros w Hw. unfold Priced.firstWeek in *.
    pose proof (Priced_availableWeeks_ascending mb) as Hasc.
    destruct (Priced.availableWeeks mb) as [|w0 l]; [contradiction|].
    destruct Hw as [<-|Hw].
    + destruct w0; try (specialize (Hfin _ Hin); discriminate).
      cbn. apply Qle_bool_iff. apply Qle_refl.
    + now apply (ascending_head w0 l).
  - unfold Priced.secondWeek.
    destruct (find_other _ (Priced.availableWeeks mb)) as [w2|] eqn:E; [|congruence].
    intros _. apply find_other_Some in E. rewrite strict_eq_sym. exact E.
  - intros z Hnone Hz Hs. unfold Priced.secondWeek. rewrite Hnone.
    destruct (nextTo_whole _ z Hz Hs) as [Hn Hd].
    split; [exact Hn|]. split; [now rewrite strict_eq_sym|].
    apply (has_other_false (Priced.firstWeek mb)); [exact Hnone|exact Hd|].
    now apply Hfin.
  - vm_compute. reflexivity.
  - unfold Priced.fixWeeks. cbn [Priced.weekA Priced.weekB].
    rewrite (Priced_In_has mb _ Hin). cbn [negb].
    unfold Priced.secondWeek in *.
    destruct (find_other (Priced.firstWeek mb) (Priced.availableWeeks mb)) as [w2|] eqn:E.
    + pose proof (find_other_Some _ _ _ E) as [Hin2 Hne].
      rewrite (Priced_In_has mb _ Hin2), Hne. reflexivity.
    + destruct (negb _ || _); reflexivity.
  - intros s0. unfold Priced.fixWeeks.
    destruct (has (Priced.availableWeeks mb) (Priced.weekA s0)) eqn:E; cbn [negb].
    + destruct (negb _ || _); [destruct (find_other _ _) as [p|];
        [destruct (truthy_num p)|]|]; cbn; exact E.
    + destruct (negb _ || _); [destruct (find_other _ _) as [p|];
        [destruct (truthy_num p)|]|]; cbn; now apply Priced_In_has.
Qed.

Lemma Priced_initial_weeks_witness :
  let mb := Priced.mkMenus [num 7; NaN; num 5] (fun _ => None) in
  let one := Priced.mkMenus [num 7] (fun _ => None) in
  Priced.weekA (Priced.initial mb) = num 5
  /\ In (Priced.weekB (Priced.initial mb)) (Priced.availableWeeks mb)
  /\ strict_eq (Priced.weekB (Priced.initial one)) (num 8) = true
  /\ has (Priced.availableWeeks one) (Priced.weekB (Priced.initial one)) = false.
Proof.
  intros mb one. split; [reflexivity|].
  destruct (Priced_initial_weeks mb) as [_ [_ [Hsome _]]].
  destruct (Priced_initial_weeks one) as [_ [_ [_ [Hnone _]]]].
  split; [apply Hsome; discriminate|].
  assert (Hs : safe (7 + 1)) by (unfold safe; vm_compute; discriminate).
  destruct (Hnone 7 eq_refl eq_refl Hs) as [H8 [_ Hno]].
  split; [exact H8|exact Hno].
Defined.

(** ** Event sequences *)

Lemma run_events_invariant {St : Type}
  (step : St -> UIEvent -> St * option Alert) (Inv : St -> Prop) :
  (forall s e, Inv s -> Inv (fst (step s e)) /\ snd (step s e) = None) ->
  forall events s, Inv s ->
    Inv (fst (run_events step events s)) /\ snd (run_events step events s) = [].
Proof.
  intros Hstep events s Hs. unfold run_events.
  assert (H : forall acc : St * list Alert,
             Inv (fst acc) -> snd acc = [] ->
             Inv (fst (fold_left
                         (fun acc e =>
                            let '(s', a) := step (fst acc) e in
                            (s', snd acc ++ match a with Some x => [x] | None => [] end))
                         events acc))
             /\ snd (fold_left
                       (fun acc e =>
                          let '(s', a) := step (fst acc) e in
                          (s', snd acc ++ match a with Some x => [x] | None => [] end))
                       events acc) = []).
  { induction events as [|e events IH]; intros acc Hi Ha; [now split|].
    cbn [fold_left]. destruct (Hstep (fst acc) e Hi) as [Hi' Hn].
    destruct (step (fst acc) e) as [s' a]. cbn [fst snd] in *. subst a.
    apply IH; cbn [fst snd]; [exact Hi'|now rewrite Ha]. }
  now apply H.
Qed.

Lemma pickWeek_no_alert_from_list which item s :
  snd (Picker.pressWeekItem which item s) = None.
Proof.
  unfold Picker.pressWeekItem, Picker.pickWeek. destruct which; cbn [andb].
  - destruct (Picker.useWeekB s && strict_eq item (Picker.weekB s)); reflexivity.
  - destruct (strict_eq item (Picker.weekA s)); reflexivity.
Qed.

Lemma Picker_step_inv s e :
  Picker_inv s -> Picker_inv (fst (Picker_step s e)) /\ snd (Picker_step s e) = None.
Proof.
  intros (HA & HB & HqA & HqB). destruct e; cbn [Picker_step fst snd].
  - now repeat split.
  - now repeat split.
  - now repeat split.
  - now repeat split.
  - destruct (Picker.weekPickerOpen s) as [which|]; [|now repeat split].
    destruct (nth_error WEEK_OPTIONS i) as [item|] eqn:E; [|now repeat split].
    apply nth_error_In in E.
    split; [|apply (pickWeek_no_alert_from_list which item)].
    unfold Picker.pressWeekItem, Picker.pickWeek.
    destruct which; cbn [andb].
    + destruct (Picker.useWeekB s && strict_eq item (Picker.weekB s));
        now repeat split.
    + destruct (strict_eq item (Picker.weekA s)); now repeat split.
  - now repeat split.
  - destruct w; repeat split; cbn; try assumption; now apply nonneg_bump.
  - destruct w; repeat split; cbn; try assumption; now apply nonneg_bump.
  - repeat split; cbn; try apply nonneg_empty.
    + now left.
    + right. now left.
Qed.

(** X10: in [Picker], whatever the user does on the form from the initial
    state, both weeks stay among 1..48 and all quantities stay non-negative;
    no "Not allowed" alert is ever raised; and the validation of
    [sendWhatsApp] can then only stop with "Week B must be different from
    Week A.": its two range alerts are never raised. *)
Theorem Picker_events_keep_weeks_in_range (events : list UIEvent) :
  let r := run_events Picker_step events Picker.initial in
  snd r = []
  /\ In (Picker.weekA (fst r)) WEEK_OPTIONS
  /\ In (Picker.weekB (fst r)) WEEK_OPTIONS
  /\ in_range (Picker.weekA (fst r)) /\ in_range (Picker.weekB (fst r))
  /\ nonneg (Picker.qtyA (fst r)) /\ nonneg (Picker.qtyB (fst r))
  /\ (Picker.sendWhatsApp_check (fst r) = None
      \/ Picker.sendWhatsApp_check (fst r) = Some WeekBDifferent).
Proof.
  intros r.
  assert (H0 : Picker_inv Picker.initial).
  { repeat split; try apply nonneg_empty; cbn; [now left|right; now left]. }
  destruct (run_events_invariant Picker_step Picker_inv Picker_step_inv
              events Picker.initial H0) as [(HA & HB & HqA & HqB) Hn].
  fold r in HA, HB, HqA, HqB, Hn.
  pose proof (WEEK_OPTIONS_range _ HA) as HrA.
  pose proof (WEEK_OPTIONS_range _ HB) as HrB.
  repeat split; try assumption; try apply HrA; try apply HrB.
  unfold Picker.sendWhatsApp_check.
  apply (in_range_lt _ (in_range_finite _ HrA)) in HrA.
  apply (in_range_lt _ (in_range_finite _ HrB)) in HrB.
  destruct HrA as [-> ->], HrB as [-> ->]. cbn [orb].
  destruct (Picker.useWeekB (fst r)); [|now left].
  destruct (strict_eq _ _); [now right|now left].
Qed.

Lemma Priced_pressWeekItem_no_alert mb which item s :
  snd (Priced.pressWeekItem mb which item s) = None.
Proof.
  unfold Priced.pressWeekItem, Priced.pickWeek. destruct which; cbn [andb].
  - destruct (Priced.useWeekB s && strict_eq item (Priced.weekB s)); reflexivity.
  - destruct (strict_eq item (Priced.weekA s)); reflexivity.
Qed.

Lemma Priced_step_inv mb s e :
  Priced_inv mb s ->
  Priced_inv mb (fst (Priced_step mb s e)) /\ snd (Priced_step mb s e) = None.
Proof.
  intros (HA & HB & HqA & HqB). destruct e; cbn [Priced_step fst snd].
  - now repeat split.
  - now repeat split.
  - now repeat split.
  - now repeat split.
  - destruct (Priced.weekPickerOpen s) as [which|]; [|now repeat split].
    destruct (nth_error (Priced.availableWeeks mb) i) as [item|] eqn:E;
      [|now repeat split].
    apply nth_error_In in E.
    split; [|apply Priced_pressWeekItem_no_alert].
    unfold Priced.pressWeekItem, Priced.pickWeek.
    destruct which; cbn [andb].
    + destruct (Priced.useWeekB s && strict_eq item (Priced.weekB s));
        [now repeat split|]. cbn [negb].
      destruct (_ && (_ || _));
        [destruct (find_other item _) as [next|] eqn:En;
         [destruct (strict_eq next (num 0))|]|];
        repeat split; cbn; try assumption.
      intros _. now apply find_other_Some in En.
    + destruct (strict_eq item (Priced.weekA s)); now repeat split.
  - now repeat split.
  - destruct w; repeat split; cbn; try assumption; now apply nonneg_bump.
  - destruct w; repeat split; cbn; try assumption; now apply nonneg_bump.
  - repeat split; cbn; try apply nonneg_empty.
    + apply Priced_firstWeek_In.
    + unfold Priced.secondWeek.
      destruct (find_other _ _) as [w2|] eqn:E; [|congruence].
      intros _. now apply find_other_Some in E.
Qed.

(** X11: in [Priced], whatever the user does on the form from the initial
    state, week A is an available week, so the alert "Week A not available"
    of [sendWhatsApp] is never raised; when the list of available weeks
    holds two different weeks, the same holds for week B.  No "Not allowed"
    alert is raised and all quantities stay non-negative. *)
Theorem Priced_events_keep_week_available (mb : Priced.MenusByWeek)
  (events : list UIEvent) :
  let avail := Priced.availableWeeks mb in
  let r := run_events (Priced_step mb) events (Priced.initial mb) in
  snd r = []
  /\ In (Priced.weekA (fst r)) avail
  /\ nonneg (Priced.qtyA (fst r)) /\ nonneg (Priced.qtyB (fst r))
  /\ Priced.sendWhatsApp_check mb (fst r) <> Some WeekANotAvailable
  /\ (find_other (Priced.firstWeek mb) avail <> None ->
      In (Priced.weekB (fst r)) avail
      /\ Priced.sendWhatsApp_check mb (fst r) <> Some WeekBNotAvailable).
Proof.
  intros avail r. subst avail.
  assert (H0 : Priced_inv mb (Priced.initial mb)).
  { repeat split; try apply nonneg_empty; cbn.
    - apply Priced_firstWeek_In.
    - unfold Priced.secondWeek.
      destruct (find_other _ _) as [w2|] eqn:E; [|congruence].
      intros _. now apply find_other_Some in E. }
  destruct (run_events_invariant (Priced_step mb) (Priced_inv mb)
              (Priced_step_inv mb) events (Priced.initial mb) H0)
    as [(HA & HB & HqA & HqB) Hn].
  fold r in HA, HB, HqA, HqB, Hn.
  pose proof (Priced_In_has mb _ HA) as HhA.
  repeat split; try assumption.
  - unfold Priced.sendWhatsApp_check. rewrite HhA. cbn [negb].
    destruct (Priced.useWeekB (fst r)); [|discriminate].
    destruct (negb _); [discriminate|].
    destruct (strict_eq _ _); discriminate.
  - now apply HB.
  - unfold Priced.sendWhatsApp_check. rewrite HhA. cbn [negb].
    rewrite (Priced_In_has mb _ (HB H)). cbn [negb].
    destruct (Priced.useWeekB (fst r)); [|discriminate].
    destruct (strict_eq _ _); discriminate.
Qed.

Lemma Priced_events_keep_week_available_witness :
  let mb := Priced.mkMenus [num 7; num 5] (fun _ => None) in
  let r := run_events (Priced_step mb)
             [OpenPicker A; PressItem 1; ToggleWeekB; PressPlus B Monday Meat]
             (Priced.initial mb) in
  Priced.weekA (fst r) = num 7 /\ Priced.weekB (fst r) = num 7
  /\ In (Priced.weekB (fst r)) (Priced.availableWeeks mb).
Proof.
  intros mb r. split; [reflexivity|]. split; [reflexivity|].
  apply (Priced_events_keep_week_available mb
           [OpenPicker A; PressItem 1; ToggleWeekB; PressPlus B Monday Meat]).
  discriminate.
Defined.

(** ** [setWeekSafely], the default weeks and [clampWeek] *)

Lemma Menus_In_has mb w :
  In w (Menus.availableWeeks mb) -> has (Menus.availableWeeks mb) w = true.
Proof. intros H. apply has_In; [exact H|]. now apply (availableWeeks_finite mb). Qed.

(** X12: a call of [setWeekSafely] that raises the alert leaves the state as
    it is.  When menus are loaded, a call that raises no alert stores an
    available week in its slot, and two available weeks stay available; and
    with the second week switched on it ends with week A different from week
    B whenever the menus list a week other than the one stored. *)
Theorem setWeekSafely_keeps_weeks_available (mb : Menus.MenusByWeek)
  (which : Which) (n : number) (s : Menus.State) :
  let avail := Menus.availableWeeks mb in
  let next := Menus.clampWeek mb n in
  let r := Menus.setWeekSafely mb which n s in
  (snd r <> None -> fst r = s)
  /\ (snd r = None -> Menus_slot which (fst r) = next)
  /\ (avail <> [] -> snd r = None -> has avail next = true)
  /\ (has avail (Menus.weekA s) = true -> has avail (Menus.weekB s) = true ->
      has avail (Menus.weekA (fst r)) = true
      /\ has avail (Menus.weekB (fst r)) = true)
  /\ (Menus.useWeekB s = true -> avail <> [] -> snd r = None ->
      find_other next avail <> None ->
      strict_eq (Menus.weekA (fst r)) (Menus.weekB (fst r)) = false).
Proof.
  intros avail next r. subst r. unfold Menus.setWeekSafely.
  fold next. fold avail.
  destruct ((0 <? List.length avail)%nat && negb (has avail next)) eqn:Eg.
  - cbn [fst snd]. repeat split; try congruence; try tauto.
  - assert (Hhas : avail <> [] -> has avail next = true).
    { intros Hne. destruct avail as [|a l]; [congruence|].
      cbn [List.length Nat.ltb Nat.leb andb] in Eg.
      now apply negb_false_iff in Eg. }
    assert (Hslot : snd (match which with
        | A => (Menus.setWeekA next
                  (if Menus.useWeekB s && strict_eq next (Menus.weekB s)
                      && (1 <? List.length avail)%nat
                   then match find_other next avail with
                        | Some alt => Menus.setWeekB alt s | None => s end
                   else s), None)
        | B => (Menus.setWeekB next
                  (if Menus.useWeekB s && strict_eq next (Menus.weekA s)
                      && (1 <? List.length avail)%nat
                   then match find_other next avail with
                        | Some alt => Menus.setWeekA alt s | None => s end
                   else s), None)
        end) = @None Alert) by now destruct which.
    split; [intros H; now rewrite Hslot in H|].
    split; [intros _; destruct which; reflexivity|].
    split; [intros Hne _; now apply Hhas|].
    split.
    + intros HA HB.
      assert (Hn : avail = [] \/ has avail next = true).
      { destruct avail; [now left|right; apply Hhas; discriminate]. }
      destruct Hn as [Hn|Hn].
      * rewrite Hn in HA. discriminate HA.
      * destruct which;
          (destruct (_ && _ && _);
           [destruct (find_other next avail) as [alt|] eqn:Ea|]);
          cbn [fst Menus.weekA Menus.weekB Menus.setWeekA Menus.setWeekB];
          split; try assumption;
          apply find_other_Some in Ea; now apply Menus_In_has.
    + intros HB Hne _ Hother. specialize (Hhas Hne).
      destruct (find_other next avail) as [alt|] eqn:Ea; [|congruence].
      rewrite (has_and_other_two _ _ _ Hhas Ea), HB, andb_true_r. cbn [andb].
      apply find_other_Some in Ea. destruct Ea as [_ Ene].
      destruct which.
      * destruct (strict_eq next (Menus.weekB s)) eqn:E; cbn;
          [now rewrite strict_eq_sym|exact E].
      * destruct (strict_eq next (Menus.weekA s)) eqn:E; cbn;
          [exact Ene|now rewrite strict_eq_sym].
Qed.

Lemma setWeekSafely_keeps_weeks_available_witness :
  let s := Menus.setWeekB (num 4)
             (Menus.setWeekA (num 3) (Menus.setUseWeekB true Menus.initial)) in
  let r := Menus.setWeekSafely menus34 A (num 4) s in
  strict_eq (Menus.weekA (fst r)) (Menus.weekB (fst r)) = false
  /\ has (Menus.availableWeeks menus34) (Menus.weekB (fst r)) = true.
Proof.
  intros s r.
  destruct (setWeekSafely_keeps_weeks_available menus34 A (num 4) s)
    as [_ [_ [_ [Hav Hne]]]].
  split.
  - apply Hne; try reflexivity; discriminate.
  - apply Hav; reflexivity.
Defined.

(** X13: the effect that selects the default weeks does nothing before the
    menus are loaded or when they list no week.  Otherwise it puts week A
    at the least available week and week B at the first available week that
    differs from it (at the same week when there is none), switches the
    second week off when fewer than two weeks are listed, and leaves name,
    notes and quantities alone. *)
Theorem defaultWeeks_selects_first_weeks (mb : Menus.MenusByWeek)
  (s : Menus.State) :
  let avail := Menus.availableWeeks mb in
  let s' := Menus.defaultWeeks mb s in
  (Menus.menusLoaded s = false \/ avail = [] -> s' = s)
  /\ (Menus.menusLoaded s = true -> avail <> [] ->
      Some (Menus.weekA s') = hd_error avail
      /\ (forall w, In w avail -> num_le (Menus.weekA s') w = true)
      /\ In (Menus.weekB s') avail
      /\ (find_other (Menus.weekA s') avail <> None ->
          strict_eq (Menus.weekB s') (Menus.weekA s') = false)
      /\ (find_other (Menus.weekA s') avail = None ->
          Menus.weekB s' = Menus.weekA s')
      /\ ((List.length avail < 2)%nat -> Menus.useWeekB s' = false)
      /\ ((2 <= List.length avail)%nat -> Menus.useWeekB s' = Menus.useWeekB s)
      /\ Menus.name s' = Menus.name s /\ Menus.notes s' = Menus.notes s
      /\ Menus.qtyA s' = Menus.qtyA s /\ Menus.qtyB s' = Menus.qtyB s).
Proof.
  intros avail s'. subst s'. unfold Menus.defaultWeeks. fold avail.
  assert (Hasc : ascending avail)
    by apply sort_asc_sorted, filter_isFinite_Forall.
  assert (Hfin : forall w, In w avail -> isFinite w = true)
    by apply availableWeeks_finite.
  split.
  - intros [->| ->]; [reflexivity|]. now destruct (negb _).
  - intros -> Hne. cbn [negb].
    destruct avail as [|first rest] eqn:Ea; [congruence|].
    assert (Hmin : forall w, In w (first :: rest) -> num_le first w = true).
    { intros w [<-|Hw]; [|now apply (ascending_head first rest)].
      specialize (Hfin first (or_introl eq_refl)).
      destruct first; try discriminate. cbn. apply Qle_bool_iff, Qle_refl. }
    assert (Hlen : forall b : bool,
               (List.length (first :: rest) <? 2)%nat = b ->
               ((List.length (first :: rest) < 2)%nat -> b = true)
               /\ ((2 <= List.length (first :: rest))%nat -> b = false)).
    { intros b <-. split; intros Hl.
      - now apply Nat.ltb_lt.
      - apply Nat.ltb_ge. lia. }
    destruct ((List.length (first :: rest) <? 2)%nat) eqn:El;
      destruct (Hlen _ eq_refl) as [Hlt Hge];
      destruct (find_other first (first :: rest)) as [w2|] eqn:E;
      try (pose proof (find_other_Some _ _ _ E) as [Hin2 Hne2]);
      cbn [Menus.setWeekA Menus.setWeekB Menus.setUseWeekB Menus.weekA
           Menus.weekB Menus.useWeekB Menus.name Menus.notes Menus.qtyA
           Menus.qtyB hd_error];
      rewrite ?E;
      repeat split; try assumption; try congruence; try (now left);
      try (intros Hl; specialize (Hlt Hl); congruence);
      try (intros Hl; specialize (Hge Hl); congruence).
Qed.

Lemma defaultWeeks_selects_first_weeks_witness :
  let s' := Menus.defaultWeeks menus34 (Menus.setMenusLoaded true Menus.initial) in
  Menus.weekA s' = num 3 /\ In (Menus.weekB s') (Menus.availableWeeks menus34)
  /\ strict_eq (Menus.weekB s') (Menus.weekA s') = false.
Proof.
  intro s'. split; [reflexivity|].
  destruct (defaultWeeks_selects_first_weeks menus34
              (Menus.setMenusLoaded true Menus.initial)) as [_ H].
  destruct (H eq_refl ltac:(discriminate)) as [_ [_ [Hin [Hne _]]]].
  split; [exact Hin|]. apply Hne. discriminate.
Defined.

Lemma clampWeek_in_range_same mb n :
  in_range n -> strict_eq (Menus.clampWeek mb n) n = true.
Proof.
  destruct n as [q| | |]; cbn [in_range]; try contradiction. intros [H1 H48].
  unfold Menus.clampWeek. cbn [isFinite negb]. rewrite clamp_finite.
  apply Qle_bool_iff in H1. rewrite H1.
  destruct (Qle_bool 48 q) eqn:E.
  - apply Qle_bool_iff in E. cbn [strict_eq num]. apply Qeq_bool_iff.
    now apply Qle_antisym.
  - cbn [strict_eq]. apply Qeq_bool_iff. reflexivity.
Qed.

Lemma clampWeek_idempotent mb n :
  isFinite n = true ->
  Menus.clampWeek mb (Menus.clampWeek mb n) = Menus.clampWeek mb n.
Proof.
  destruct n as [q| | |]; try discriminate. intros _.
  unfold Menus.clampWeek. cbn [isFinite negb]. rewrite clamp_finite.
  destruct (Qle_bool 1 q) eqn:H1; [destruct (Qle_bool 48 q) eqn:H48|].
  - reflexivity.
  - cbn [isFinite negb]. now rewrite clamp_finite, H1, H48.
  - reflexivity.
Qed.

Lemma clamp_integer k :
  Math_min (num 48) (Math_max (num 1) (num k)) = num (Z.min 48 (Z.max 1 k)).
Proof.
  change (num k) with (Fin (inject_Z k)). rewrite clamp_finite. unfold num.
  destruct (Qle_bool 1 (inject_Z k)) eqn:H1.
  - apply Qle_bool_iff in H1. change 1%Q with (inject_Z 1) in H1.
    rewrite <- Zle_Qle in H1.
    destruct (Qle_bool 48 (inject_Z k)) eqn:H48.
    + apply Qle_bool_iff in H48. change 48%Q with (inject_Z 48) in H48.
      rewrite <- Zle_Qle in H48. do 2 f_equal. lia.
    + assert (k < 48).
      { destruct (Z_lt_le_dec k 48) as [Hlt|Hge]; [exact Hlt|].
        rewrite Zle_Qle in Hge. apply Qle_bool_iff in Hge.
        change (inject_Z 48) with 48%Q in Hge. congruence. }
      do 2 f_equal. lia.
  - assert (k < 1).
    { destruct (Z_lt_le_dec k 1) as [Hlt|Hge]; [exact Hlt|].
      rewrite Zle_Qle in Hge. apply Qle_bool_iff in Hge.
      change (inject_Z 1) with 1%Q in Hge. congruence. }
    do 2 f_equal. lia.
Qed.

(** X14: [clampWeek] returns a week of 1..48 as it is (up to [===]) and is
    idempotent on finite numbers.  With no menus loaded the "+" and "-"
    buttons of a week therefore move an integer week by one inside 1..48 and
    stop at 48 and at 1, with no alert. *)
Theorem week_steppers_saturate (mb : Menus.MenusByWeek) :
  (forall n, in_range n -> strict_eq (Menus.clampWeek mb n) n = true)
  /\ (forall n, isFinite n = true ->
      Menus.clampWeek mb (Menus.clampWeek mb n) = Menus.clampWeek mb n)
  /\ (forall which k s,
      Menus.availableWeeks mb = [] ->
      Menus_slot which s = num k ->
      let up := Menus.stepWeek mb which 1 s in
      let down := Menus.stepWeek mb which (-1) s in
      snd up = None /\ snd down = None
      /\ Menus_slot which (fst up) = num (Z.min 48 (Z.max 1 (k + 1)))
      /\ Menus_slot which (fst down) = num (Z.min 48 (Z.max 1 (k - 1)))).
Proof.
  split; [apply clampWeek_in_range_same|]. split; [apply clampWeek_idempotent|].
  intros which k s Hav Hk up down. subst up down.
  unfold Menus.stepWeek, Menus.setWeekSafely.
  replace (match which with A => Menus.weekA s | B => Menus.weekB s end)
    with (num k) by (now destruct which).
  rewrite Hav. cbn [List.length Nat.ltb Nat.leb andb].
  unfold num_plus, num. rewrite <- !inject_Z_plus.
  unfold Menus.clampWeek. cbn [isFinite negb].
  fold (num (k + 1)). fold (num (k + -1)). rewrite !clamp_integer.
  rewrite !andb_false_r.
  replace (k + -1) with (k - 1) by lia.
  destruct which; repeat split.
Qed.

Lemma week_steppers_saturate_witness :
  let s := Menus.setWeekA (num 48) Menus.initial in
  Menus.weekA (fst (Menus.stepWeek Menus.noMenus A 1 s)) = num 48
  /\ Menus.weekA (fst (Menus.stepWeek Menus.noMenus A (-1) s)) = num 47.
Proof.
  intro s.
  destruct (week_steppers_saturate Menus.noMenus) as [_ [_ H]].
  destruct (H A 48 s eq_refl eq_refl) as [_ [_ [Hup Hdown]]].
  split; [exact Hup|exact Hdown].
Defined.

(** ** The lines of the order texts *)

Lemma flat_map_filter {X Y : Type} (f h : X -> list Y) (p : X -> bool) l :
  (forall d, f d = if p d then h d else []) ->
  flat_map f l = flat_map h (filter p l).
Proof.
  intros H. induction l as [|d l IH]; [reflexivity|].
  cbn [flat_map filter]. rewrite H, IH. now destruct (p d).
Qed.

Lemma flat_map_singleton {X Y : Type} (g : X -> Y) l :
  flat_map (fun d => [g d]) l = map g l.
Proof. induction l as [|d l IH]; [reflexivity|]. cbn. now rewrite IH. Qed.

Lemma startsWith_app_l p a b : startsWith (p ++ a) (p ++ b) = startsWith a b.
Proof. induction p as [|c p IH]; [reflexivity|]. cbn. now rewrite N.eqb_refl. Qed.

Lemma join_head sep (a : jsstring) r : exists t, join sep (a :: r) = a ++ t.
Proof.
  destruct r as [|b r].
  - exists []. cbn. now rewrite app_nil_r.
  - exists (sep ++ join sep (b :: r)). reflexivity.
Qed.

Lemma startsWith_app_r p a t :
  startsWith p a = true -> startsWith p (a ++ t) = true.
Proof.
  revert a. induction p as [|c p IH]; intros a H; [reflexivity|].
  destruct a as [|b a]; [discriminate|]. cbn in *.
  apply andb_prop in H. destruct H as [-> H]. now apply IH.
Qed.

Lemma startsWith_join_head p sep (a : jsstring) (r : list jsstring) :
  startsWith p a = true -> startsWith p (join sep (a :: r)) = true.
Proof.
  intros H. destruct (join_head sep a r) as [t ->]. now apply startsWith_app_r.
Qed.

Lemma dayHasOrder_cells q d :
  dayHasOrder q d
  = (0 <? cell q d Meat) || (0 <? cell q d Veg) || (0 <? cell q d LowCarb).
Proof.
  unfold dayHasOrder, MEAL_TYPES. cbn [existsb].
  now rewrite orb_false_r, orb_assoc.
Qed.

(** X15: the lines of a week list exactly the days on which something is
    ordered, in the order Monday to Friday: one line "Mon: x..." per such
    day in the WhatsApp text, one line "- Monday: ..." per such day in
    [buildOrderText], and in the detailed summary the day name followed by
    one line per ordered meal type. *)
Theorem week_lines_list_days_with_orders (mb : Menus.MenusByWeek)
  (so : Q -> jsstring) (w : number) (q : WeekQuantities) :
  let days := filter (dayHasOrder q) DAYS in
  (exists g,
     Menus.buildWhatsAppWeekLines mb so w q
     = Menus.weekHeading mb so w :: map g days
     /\ forall d, dayHasOrder q d = true ->
          startsWith (Menus.DAY_SHORT d ++ js ": " ++ js "x") (g d) = true)
  /\ (exists g,
     Picker.dayLines q = map g days
     /\ forall d, startsWith (js "- " ++ DayName_label d ++ js ": ") (g d) = true)
  /\ (exists g subtotal,
     Menus.buildDetailedLinesForWeek mb so w q
     = Menus.weekHeading mb so w
       :: flat_map (fun d => DayName_label d :: g d) days ++ [subtotal; []]
     /\ forall d, List.length (g d) = dishesOn q d).
Proof.
  intros days. subst days. split; [|split].
  - exists (fun day =>
      Menus.DAY_SHORT day ++ js ": "
      ++ join (js " ")
           ((if 0 <? cell q day Meat
             then [js "x" ++ String_Z (cell q day Meat) ++ js " Meat"] else [])
            ++ (if 0 <? cell q day Veg
                then [js "x" ++ String_Z (cell q day Veg) ++ js " Veg"] else [])
            ++ (if 0 <? cell q day LowCarb
                then [js "x" ++ String_Z (cell q day LowCarb) ++ js " Low Carb"]
                else []))).
    split.
    + unfold Menus.buildWhatsAppWeekLines. cbn [app]. f_equal.
      rewrite <- flat_map_singleton. apply flat_map_filter. intros d.
      change (qMeat (week_get q d)) with (cell q d Meat).
      change (qVeg (week_get q d)) with (cell q d Veg).
      change (qLowCarb (week_get q d)) with (cell q d LowCarb).
      rewrite !or0_id, dayHasOrder_cells.
      destruct (0 <? cell q d Meat), (0 <? cell q d Veg),
        (0 <? cell q d LowCarb); reflexivity.
    + intros d Hd. rewrite dayHasOrder_cells in Hd.
      rewrite !startsWith_app_l.
      destruct (0 <? cell q d Meat); [|destruct (0 <? cell q d Veg);
        [|destruct (0 <? cell q d LowCarb); [|discriminate]]];
        cbn [app]; apply startsWith_join_head, startsWith_app.
  - exists (fun d =>
      js "- " ++ DayName_label d ++ js ": "
      ++ join (js " + ")
           (flat_map
              (fun m =>
                 let n := cell q d m in
                 if 0 <? n then [String_Z n ++ js " " ++ MealType_label m]
                 else [])
              MEAL_TYPES)).
    split.
    + unfold Picker.dayLines. rewrite <- flat_map_singleton.
      apply flat_map_filter. intros d. rewrite dayHasOrder_cells.
      unfold MEAL_TYPES. cbn [flat_map app].
      destruct (0 <? cell q d Meat), (0 <? cell q d Veg),
        (0 <? cell q d LowCarb); reflexivity.
    + intros d. rewrite !app_assoc. apply startsWith_app.
  - exists (fun day =>
      flat_map
        (fun meal =>
           let count := or0 (cell q day meal) in
           if count <=? 0 then []
           else
             let parts :=
               Menus.getMealParts (Menus.getMenuForWeek mb w) day meal in
             let nameOnly :=
               if MealType_eqb meal LowCarb then js "Low Carb"
               else if truthy (Menus.itemName parts) then Menus.itemName parts
                    else js "Menu item" in
             [js "- " ++ MealType_label meal ++ js ": " ++ String_Z count
              ++ js " (" ++ nameOnly ++ js ")"])
        Menus.MEALS).
    eexists. split.
    + unfold Menus.buildDetailedLinesForWeek. cbn [app]. f_equal. f_equal.
      apply flat_map_filter. intros d. rewrite dayHasOrder_cells.
      unfold Menus.MEALS. cbn [flat_map app]. rewrite !or0_id.
      rewrite !Z.leb_antisym.
      destruct (0 <? cell q d Meat), (0 <? cell q d Veg),
        (0 <? cell q d LowCarb); reflexivity.
    + intros d. unfold dishesOn, Menus.MEALS, MEAL_TYPES.
      cbn [flat_map filter app]. rewrite !or0_id, !Z.leb_antisym.
      destruct (0 <? cell q d Meat), (0 <? cell q d Veg),
        (0 <? cell q d LowCarb); reflexivity.
Qed.

Lemma week_lines_list_days_with_orders_witness :
  exists g,
    Menus.buildWhatsAppWeekLines menus34 (fun _ => []) (num 3) scenarioGrid
    = Menus.weekHeading menus34 (fun _ => []) (num 3)
      :: map g [Monday; Wednesday]
    /\ startsWith (js "Mon: x") (g Monday) = true.
Proof.
  destruct (week_lines_list_days_with_orders menus34 (fun _ => []) (num 3)
              scenarioGrid) as [[g [Hg Hs]] _].
  exists g. split; [exact Hg|]. apply (Hs Monday). reflexivity.
Defined.

Lemma join_two_heads sep (a b : jsstring) (r : list jsstring) :
  exists t, join sep (a :: b :: r) = (a ++ sep ++ b) ++ t.
Proof.
  destruct (join_head sep b r) as [t Ht].
  exists t. change (join sep (a :: b :: r)) with (a ++ sep ++ join sep (b :: r)).
  now rewrite Ht, !app_assoc.
Qed.

Lemma startsWith_nonempty p s : p <> [] -> startsWith p s = true -> s <> [].
Proof. destruct p; [congruence|]. destruct s; [discriminate|discriminate]. Qed.

(** X16: the on-screen summary and the WhatsApp text are the empty string
    exactly when no meal is selected; otherwise they begin with the lines
    "Meal Order" and "Name: " followed by the trimmed name or "[name]".
    [buildOrderText] always begins with these two lines. *)
Theorem texts_empty_iff_no_selection (mb : Menus.MenusByWeek)
  (so : Q -> jsstring) (s : Menus.State) (p : Picker.State) :
  (Menus.whatsappText mb so s = [] <-> Menus.hasAnySelections s = false)
  /\ (Menus.onScreenSummaryText mb so s = []
      <-> Menus.hasAnySelections s = false)
  /\ (Menus.hasAnySelections s = true ->
      let opening :=
        js "Meal Order" ++ LF ++ js "Name: " ++ nameOrPlaceholder (Menus.name s)
      in
      startsWith opening (Menus.whatsappText mb so s) = true
      /\ startsWith opening (Menus.onScreenSummaryText mb so s) = true)
  /\ startsWith
       (js "Meal Order" ++ LF ++ js "Name: " ++ nameOrPlaceholder (Picker.name p))
       (Picker.buildOrderText so p) = true.
Proof.
  assert (HW : Menus.hasAnySelections s = true ->
               startsWith (js "Meal Order" ++ LF ++ js "Name: "
                           ++ nameOrPlaceholder (Menus.name s))
                 (Menus.whatsappText mb so s) = true).
  { intros H. unfold Menus.whatsappText. rewrite H. cbn [negb].
    rewrite whatsappLines_pop. unfold Menus.whatsappLines. cbn [app].
    match goal with
    | |- context [join ?sep (?a :: ?b :: ?r)] =>
        destruct (join_two_heads sep a b r) as [t Ht]
    end.
    rewrite Ht. apply startsWith_app. }
  assert (HS : Menus.hasAnySelections s = true ->
               startsWith (js "Meal Order" ++ LF ++ js "Name: "
                           ++ nameOrPlaceholder (Menus.name s))
                 (Menus.onScreenSummaryText mb so s) = true).
  { intros H. unfold Menus.onScreenSummaryText. rewrite H. cbn [negb].
    rewrite summaryLines_pop. unfold Menus.summaryLines. cbn [app].
    match goal with
    | |- context [join ?sep (?a :: ?b :: ?r)] =>
        destruct (join_two_heads sep a b r) as [t Ht]
    end.
    rewrite Ht. apply startsWith_app. }
  split; [|split; [|split]].
  - split.
    + intros H. destruct (Menus.hasAnySelections s) eqn:E; [|reflexivity].
      exfalso. refine (startsWith_nonempty _ _ _ (HW eq_refl) H). discriminate.
    + intros H. unfold Menus.whatsappText. now rewrite H.
  - split.
    + intros H. destruct (Menus.hasAnySelections s) eqn:E; [|reflexivity].
      exfalso. refine (startsWith_nonempty _ _ _ (HS eq_refl) H). discriminate.
    + intros H. unfold Menus.onScreenSummaryText. now rewrite H.
  - intros H. split; [now apply HW|now apply HS].
  - unfold Picker.buildOrderText, Picker.orderLines. cbn [app].
    match goal with
    | |- context [join ?sep (?a :: ?b :: ?r)] =>
        destruct (join_two_heads sep a b r) as [t Ht]
    end.
    rewrite Ht. apply startsWith_app.
Qed.

Lemma texts_empty_iff_no_selection_witness :
  let s := Menus.setName (js "  Sam ") (Menus.changeQty A Monday Meat 1 Menus.initial) in
  startsWith (js "Meal Order" ++ LF ++ js "Name: Sam")
    (Menus.whatsappText menus34 (fun _ => []) s) = true.
Proof.
  intro s.
  destruct (texts_empty_iff_no_selection menus34 (fun _ => []) s Picker.initial)
    as [_ [_ [H _]]].
  exact (proj1 (H eq_refl)).
Defined.

(** The totals of both grids when the second week is switched on. *)
Lemma totalLine_both s :
  Menus.useWeekB s = true ->
  Menus.totalLine s
  = js "TOTAL: "
    ++ String_Z (cells_total (Menus.qtyA s) + cells_total (Menus.qtyB s))
    ++ js " meals " ++ MIDDOT ++ js " R"
    ++ String_Z (cells_cost 90 10 (Menus.qtyA s)
                 + cells_cost 90 10 (Menus.qtyB s))
    ++ js ".00".
Proof.
  intros HB. unfold Menus.totalLine, Menus.totalMeals, Menus.totalCost,
    Menus.weekATotalMeals, Menus.weekATotalCost, Menus.weekBTotalMeals,
    Menus.weekBTotalCost, formatRand, toFixed2.
  rewrite HB.
  rewrite !(proj1 (Menus_sums _)), !(proj2 (Menus_sums _)).
  reflexivity.
Qed.

(** X17: when the second week is switched on but holds the week number of
    week A, and a meal is selected, the WhatsApp text and the on-screen
    summary are the opening lines, the lines of week A alone, the TOTAL line
    and the notes.  The TOTAL line counts the meals and the cost of both
    grids; another grid B with the same number of meals and the same cost
    gives the same two texts. *)
Theorem week_B_hidden_but_counted (mb : Menus.MenusByWeek)
  (so : Q -> jsstring) (s : Menus.State) :
  Menus.useWeekB s = true ->
  strict_eq (Menus.weekB s) (Menus.weekA s) = true ->
  Menus.hasAnySelections s = true ->
  let opening :=
    [js "Meal Order"; js "Name: " ++ nameOrPlaceholder (Menus.name s); []] in
  let total :=
    js "TOTAL: "
    ++ String_Z (cells_total (Menus.qtyA s) + cells_total (Menus.qtyB s))
    ++ js " meals " ++ MIDDOT ++ js " R"
    ++ String_Z (cells_cost 90 10 (Menus.qtyA s)
                 + cells_cost 90 10 (Menus.qtyB s))
    ++ js ".00" in
  Menus.whatsappText mb so s
  = join LF (opening
             ++ Menus.buildWhatsAppWeekLines mb so (Menus.weekA s) (Menus.qtyA s)
             ++ [[]; total] ++ Menus.notesLines (Menus.notes s))
  /\ Menus.onScreenSummaryText mb so s
     = join LF (opening
                ++ Menus.buildDetailedLinesForWeek mb so (Menus.weekA s)
                     (Menus.qtyA s)
                ++ [total] ++ Menus.notesLines (Menus.notes s))
  /\ (forall qB,
      cells_total qB = cells_total (Menus.qtyB s) ->
      cells_cost 90 10 qB = cells_cost 90 10 (Menus.qtyB s) ->
      Menus.whatsappText mb so (Menus.setQtyB (fun _ => qB) s)
      = Menus.whatsappText mb so s
      /\ Menus.onScreenSummaryText mb so (Menus.setQtyB (fun _ => qB) s)
         = Menus.onScreenSummaryText mb so s).
Proof.
  intros HB Heq Hsel opening total.
  assert (Hw : forall s', Menus.useWeekB s' = true ->
            strict_eq (Menus.weekB s') (Menus.weekA s') = true ->
            Menus.hasAnySelections s' = true ->
            Menus.whatsappText mb so s'
            = join LF ([js "Meal Order";
                        js "Name: " ++ nameOrPlaceholder (Menus.name s'); []]
                ++ Menus.buildWhatsAppWeekLines mb so (Menus.weekA s')
                     (Menus.qtyA s')
                ++ [[]; Menus.totalLine s']
                ++ Menus.notesLines (Menus.notes s'))
            /\ Menus.onScreenSummaryText mb so s'
               = join LF ([js "Meal Order";
                        js "Name: " ++ nameOrPlaceholder (Menus.name s'); []]
                ++ Menus.buildDetailedLinesForWeek mb so (Menus.weekA s')
                     (Menus.qtyA s')
                ++ [Menus.totalLine s']
                ++ Menus.notesLines (Menus.notes s'))).
  { intros s' H1 H2 H3.
    unfold Menus.whatsappText, Menus.onScreenSummaryText.
    rewrite H3. cbn [negb].
    rewrite whatsappLines_pop, summaryLines_pop.
    unfold Menus.whatsappLines, Menus.summaryLines.
    rewrite H1, H2. cbn [andb negb]. split; reflexivity. }
  destruct (Hw s HB Heq Hsel) as [E1 E2].
  rewrite (totalLine_both s HB) in E1, E2.
  split; [exact E1|]. split; [exact E2|].
  intros qB Ht Hc.
  set (s' := Menus.setQtyB (fun _ => qB) s).
  assert (Pname : Menus.name s' = Menus.name s) by reflexivity.
  assert (Pnotes : Menus.notes s' = Menus.notes s) by reflexivity.
  assert (PA : Menus.weekA s' = Menus.weekA s) by reflexivity.
  assert (PB : Menus.weekB s' = Menus.weekB s) by reflexivity.
  assert (Pu : Menus.useWeekB s' = Menus.useWeekB s) by reflexivity.
  assert (PqA : Menus.qtyA s' = Menus.qtyA s) by reflexivity.
  assert (PqB : Menus.qtyB s' = qB) by reflexivity.
  clearbody s'.
  assert (HB' : Menus.useWeekB s' = true) by congruence.
  assert (Heq' : strict_eq (Menus.weekB s') (Menus.weekA s') = true)
    by (rewrite PA, PB; exact Heq).
  assert (Hsel' : Menus.hasAnySelections s' = true).
  { revert Hsel.
    unfold Menus.hasAnySelections, Menus.totalMeals, Menus.weekATotalMeals,
      Menus.weekBTotalMeals.
    rewrite HB, HB', PqA, PqB, !(proj1 (Menus_sums _)), Ht. trivial. }
  destruct (Hw s' HB' Heq' Hsel') as [E1' E2'].
  rewrite (totalLine_both s' HB'), Pname, Pnotes, PA, PqA, PqB, Ht, Hc
    in E1', E2'.
  split.
  - etransitivity; [exact E1'|symmetry; exact E1].
  - etransitivity; [exact E2'|symmetry; exact E2].
Qed.

Lemma week_B_hidden_but_counted_witness :
  let s := Menus.changeQty B Friday Veg 1
             (Menus.changeQty A Monday Meat 1
                (Menus.setWeekB (num 1) (Menus.setUseWeekB true Menus.initial))) in
  Menus.whatsappText Menus.noMenus (fun _ => []) s
  = js "Meal Order" ++ LF ++ js "Name: [name]" ++ LF ++ LF ++ js "Week 01" ++ LF
    ++ js "Mon: x1 Meat" ++ LF ++ LF
    ++ js "TOTAL: 2 meals " ++ MIDDOT ++ js " R180.00".
Proof.
  intro s.
  destruct (week_B_hidden_but_counted Menus.noMenus (fun _ => []) s
              eq_refl eq_refl eq_refl) as [Hw _].
  rewrite Hw. reflexivity.
Defined.

(** ** Sending *)

(** X18: [sendWhatsApp] of [Picker] opens nothing when the week validation
    fails.  A URL it opens is the wa.me link, or on a device the
    whatsapp:// link, and carries the encoded text of [buildOrderText];
    a failure of [Linking] ends in the alert "Could not open WhatsApp", and
    the call only rejects when the text cannot be encoded. *)
Theorem Picker_sendWhatsApp_outcomes (so : Q -> jsstring)
  (enc : jsstring -> option jsstring) (web : bool) (linking : Linking)
  (s : Picker.State) :
  let r := Picker.sendWhatsApp so enc web linking s in
  (forall a, Picker.sendWhatsApp_check s = Some a -> r = Invalid a)
  /\ (forall url, r = Opened url ->
      Picker.sendWhatsApp_check s = None
      /\ openURL linking url = true
      /\ exists encoded,
           enc (Picker.buildOrderText so s) = Some encoded
           /\ (url = Picker.webLink encoded
               \/ (web = false /\ url = Picker.deepLink encoded)))
  /\ (r = Uncaught <->
      Picker.sendWhatsApp_check s = None
      /\ enc (Picker.buildOrderText so s) = None)
  /\ (forall a, r = Failed a -> a = CouldNotOpen).
Proof.
  intros r. subst r. unfold Picker.sendWhatsApp.
  destruct (Picker.sendWhatsApp_check s) as [a0|] eqn:Ec.
  - repeat split; try congruence; try discriminate.
    intros [H _]; discriminate.
  - destruct (enc (Picker.buildOrderText so s)) as [encoded|] eqn:Ee.
    + split; [discriminate|]. split; [|split].
      * intros url H. split; [reflexivity|].
        destruct web; cbn [negb] in H.
        -- destruct (openURL linking (Picker.webLink encoded)) eqn:Eo;
             inversion H; subst. split; [exact Eo|]. exists encoded. auto.
        -- destruct (canOpenURL linking (js "whatsapp://send")) as [[|]|].
           ++ destruct (openURL linking (Picker.deepLink encoded)) eqn:Eo;
                inversion H; subst. split; [exact Eo|]. exists encoded. auto.
           ++ destruct (openURL linking (Picker.webLink encoded)) eqn:Eo;
                inversion H; subst. split; [exact Eo|]. exists encoded. auto.
           ++ discriminate.
      * split; [|intros [_ H]; discriminate].
        destruct web; cbn [negb];
          [|destruct (canOpenURL linking (js "whatsapp://send")) as [[|]|]];
          try destruct (openURL linking _); discriminate.
      * intros a. destruct web; cbn [negb];
          [|destruct (canOpenURL linking (js "whatsapp://send")) as [[|]|]];
          try destruct (openURL linking _); congruence.
    + repeat split; try discriminate.
Qed.

Lemma Picker_sendWhatsApp_outcomes_witness :
  Picker.sendWhatsApp (fun _ => []) Some true (mkLinking (fun _ => Some true) (fun _ => true))
    (Picker.setWeekB (num 1) (Picker.toggleWeekB Picker.initial))
  = Invalid WeekBDifferent.
Proof.
  apply (Picker_sendWhatsApp_outcomes (fun _ => []) Some true
           (mkLinking (fun _ => Some true) (fun _ => true))).
  reflexivity.
Defined.

(** X19: [sendWhatsApp] of [Menus] opens nothing when no meal is selected:
    it stops with "No selections yet".  A URL it opens was accepted by
    [canOpenURL], is the wa.me link, or on a device the whatsapp:// link, and
    carries the encoded WhatsApp text; the alert "WhatsApp number not set" is
    never raised, the number being set. *)
Theorem Menus_sendWhatsApp_outcomes (mb : Menus.MenusByWeek)
  (so : Q -> jsstring) (enc : jsstring -> option jsstring) (web : bool)
  (linking : Linking) (s : Menus.State) :
  let r := Menus.sendWhatsApp mb so enc web linking s in
  (Menus.hasAnySelections s = false -> r = Failed NoSelections)
  /\ (forall url, r = Opened url ->
      Menus.hasAnySelections s = true
      /\ canOpenURL linking url = Some true
      /\ openURL linking url = true
      /\ exists encoded,
           enc (Menus.whatsappText mb so s) = Some encoded
           /\ (url = Menus.waLink encoded
               \/ (web = false /\ url = Menus.appLink encoded)))
  /\ (forall a, r = Failed a -> a = NoSelections \/ a = CannotOpen).
Proof.
  intros r. subst r. unfold Menus.sendWhatsApp.
  replace (negb (truthy Menus.WHATSAPP_NUMBER)
           || includes (js "X") Menus.WHATSAPP_NUMBER) with false
    by (vm_compute; reflexivity).
  destruct (Menus.hasAnySelections s); cbn [negb].
  - split; [discriminate|].
    destruct (enc (Menus.whatsappText mb so s)) as [encoded|];
      [|repeat split; discriminate].
    destruct web.
    + destruct (canOpenURL linking (Menus.waLink encoded)) as [[|]|] eqn:Ec.
      * destruct (openURL linking (Menus.waLink encoded)) eqn:Eo;
          [|repeat split; discriminate].
        split; [|discriminate]. intros url H. inversion H; subst.
        repeat split; try assumption. exists encoded. auto.
      * split; [discriminate|]. intros a H. inversion H. auto.
      * repeat split; discriminate.
    + destruct (canOpenURL linking (Menus.appLink encoded)) as [[|]|] eqn:Ec.
      * destruct (openURL linking (Menus.appLink encoded)) eqn:Eo;
          [|repeat split; discriminate].
        split; [|discriminate]. intros url H. inversion H; subst.
        repeat split; try assumption. exists encoded. auto.
      * destruct (canOpenURL linking (Menus.waLink encoded)) as [[|]|] eqn:Ec2.
        -- destruct (openURL linking (Menus.waLink encoded)) eqn:Eo;
             [|repeat split; discriminate].
           split; [|discriminate]. intros url H. inversion H; subst.
           repeat split; try assumption. exists encoded. auto.
        -- split; [discriminate|]. intros a H. inversion H. auto.
        -- repeat split; discriminate.
      * repeat split; discriminate.
  - split; [reflexivity|]. split; [discriminate|].
    intros a H. inversion H. auto.
Qed.

Lemma Menus_sendWhatsApp_outcomes_witness :
  Menus.sendWhatsApp menus34 (fun _ => []) Some false
    (mkLinking (fun _ => Some true) (fun _ => true)) Menus.initial
  = Failed NoSelections.
Proof.
  apply (Menus_sendWhatsApp_outcomes menus34 (fun _ => []) Some false
           (mkLinking (fun _ => Some true) (fun _ => true)) Menus.initial).
  reflexivity.
Defined.

(** ** The single-week form *)

Lemma Single_step_inv s e : Single_inv s -> Single_inv (Single.step s e).
Proof.
  intros [Hw Hq]. destruct e; cbn [Single.step]; split; cbn; try assumption;
    unfold Single.stepDown, Single.stepUp; try lia.
  - intros d' f'. pose proof (Hq d' f'). pose proof (Hq d f).
    destruct (Single.order s) as [[] [] [] [] []];
      destruct d, f, d', f'; cbn in *; lia.
  - intros d' f'. pose proof (Hq d' f'). pose proof (Hq d f).
    destruct (Single.order s) as [[] [] [] [] []];
      destruct d, f, d', f'; cbn in *; lia.
Qed.

Lemma Single_totalMeals_cells s :
  Single.totalMeals s
  = Single.meat (Single.oMonday (Single.order s))
    + Single.veg (Single.oMonday (Single.order s))
    + Single.meat (Single.oTuesday (Single.order s))
    + Single.veg (Single.oTuesday (Single.order s))
    + Single.meat (Single.oWednesday (Single.order s))
    + Single.veg (Single.oWednesday (Single.order s))
    + Single.meat (Single.oThursday (Single.order s))
    + Single.veg (Single.oThursday (Single.order s))
    + Single.meat (Single.oFriday (Single.order s))
    + Single.veg (Single.oFriday (Single.order s)).
Proof. unfold Single.totalMeals, DAYS. cbn [fold_left Single.getDay]. lia. Qed.

(** X20: in the single-week form, whatever buttons are pressed from the
    initial state, the week number and all quantities stay non-negative, the
    meal total is non-negative, and the cost is 90 times the meal total. *)
Theorem Single_events_keep_counts_nonnegative (events : list Single.Event) :
  let s := Single.run events Single.initial in
  0 <= Single.week s
  /\ (forall d f, 0 <= Single.getField (Single.getDay (Single.order s) d) f)
  /\ 0 <= Single.totalMeals s
  /\ Single.totalCost s = 90 * Single.totalMeals s.
Proof.
  intros s.
  assert (H : forall events s0, Single_inv s0 -> Single_inv (Single.run events s0)).
  { induction events0 as [|e es IH]; intros s0 H0; [exact H0|].
    cbn [Single.run fold_left]. apply IH. now apply Single_step_inv. }
  assert (H0 : Single_inv Single.initial).
  { split; [cbn; lia|]. intros d f. destruct d, f; cbn; lia. }
  destruct (H events _ H0) as [Hw Hq]. fold s in Hw, Hq.
  split; [exact Hw|]. split; [exact Hq|]. split.
  - rewrite Single_totalMeals_cells.
    pose proof (Hq Monday Single.FMeat). pose proof (Hq Monday Single.FVeg).
    pose proof (Hq Tuesday Single.FMeat). pose proof (Hq Tuesday Single.FVeg).
    pose proof (Hq Wednesday Single.FMeat). pose proof (Hq Wednesday Single.FVeg).
    pose proof (Hq Thursday Single.FMeat). pose proof (Hq Thursday Single.FVeg).
    pose proof (Hq Friday Single.FMeat). pose proof (Hq Friday Single.FVeg).
    cbn in *. lia.
  - unfold Single.totalCost, Single.MEAL_PRICE. lia.
Qed.

(** X21: in the single-week form a "+" on a quantity adds one meal and 90 to
    the cost; a "-" on a positive quantity removes one meal and 90; a "-" on
    a quantity at zero leaves the state as it is; and "+" followed by "-" on
    a non-negative quantity gives the state back. *)
Theorem Single_buttons_move_totals (d : DayName) (f : Single.Field)
  (s : Single.State) :
  let v := Single.getField (Single.getDay (Single.order s) d) f in
  Single.totalMeals (Single.step s (Single.QtyPlus d f))
  = Single.totalMeals s + 1
  /\ Single.totalCost (Single.step s (Single.QtyPlus d f))
     = Single.totalCost s + 90
  /\ (0 < v ->
      Single.totalMeals (Single.step s (Single.QtyMinus d f))
      = Single.totalMeals s - 1
      /\ Single.totalCost (Single.step s (Single.QtyMinus d f))
         = Single.totalCost s - 90)
  /\ (v = 0 -> Single.step s (Single.QtyMinus d f) = s)
  /\ (0 <= v ->
      Single.step (Single.step s (Single.QtyPlus d f)) (Single.QtyMinus d f) = s).
Proof.
  intros v. subst v. unfold Single.totalCost, Single.MEAL_PRICE.
  rewrite !Single_totalMeals_cells.
  destruct s as [n w [[] [] [] [] []] vg lc].
  unfold Single.stepDown, Single.stepUp.
  repeat split; intros; destruct d, f; cbn in *;
    unfold Single.stepDown, Single.stepUp, Single.updateDay; cbn;
    try lia; repeat f_equal; lia.
Qed.

Lemma Single_buttons_move_totals_witness :
  Single.step Single.initial (Single.QtyMinus Monday Single.FVeg) = Single.initial
  /\ Single.totalCost
       (Single.step (Single.step Single.initial (Single.QtyPlus Friday Single.FMeat))
          (Single.QtyMinus Friday Single.FMeat)) = 0.
Proof.
  split.
  - apply (Single_buttons_move_totals Monday Single.FVeg Single.initial).
    reflexivity.
  - destruct (Single_buttons_move_totals Friday Single.FMeat
                (Single.step Single.initial (Single.QtyPlus Friday Single.FMeat)))
      as [_ [_ [H _]]].
    rewrite (proj2 (H ltac:(cbn; lia))). reflexivity.
Defined.

Lemma one_line_app a b : one_line (a ++ b) = one_line a && one_line b.
Proof. apply forallb_app. Qed.

Lemma lines_of_nonempty text : lines_of text <> [].
Proof.
  induction text as [|c text IH]; cbn; [discriminate|].
  destruct (c =? 10)%N; [discriminate|]. destruct (lines_of text); discriminate.
Qed.

Lemma lines_of_one_line a : one_line a = true -> lines_of a = [a].
Proof.
  induction a as [|c a IH]; cbn; [reflexivity|].
  intros H. apply andb_prop in H. destruct H as [Hc Ha].
  apply negb_true_iff in Hc. rewrite Hc, (IH Ha). reflexivity.
Qed.

Lemma lines_of_line a b :
  one_line a = true -> lines_of (a ++ LF ++ b) = a :: lines_of b.
Proof.
  induction a as [|c a IH]; cbn; [reflexivity|].
  intros H. apply andb_prop in H. destruct H as [Hc Ha].
  apply negb_true_iff in Hc. rewrite Hc. cbn in IH. rewrite (IH Ha). reflexivity.
Qed.

(** Splitting the joined lines gives the lines back. *)
Lemma lines_of_join (ls : list jsstring) :
  ls <> [] -> forallb one_line ls = true -> lines_of (join LF ls) = ls.
Proof.
  induction ls as [|a ls IH]; [congruence|]. intros _ H.
  cbn [forallb] in H. apply andb_prop in H. destruct H as [Ha Hls].
  destruct ls as [|b ls].
  - cbn [join]. now apply lines_of_one_line.
  - change (join LF (a :: b :: ls)) with (a ++ LF ++ join LF (b :: ls)).
    rewrite (lines_of_line _ _ Ha), IH; [reflexivity|discriminate|exact Hls].
Qed.

Lemma digits_one_line d : one_line (js (NilEmpty.string_of_uint d)) = true.
Proof. induction d; cbn; try reflexivity; exact IHd. Qed.

Lemma string_of_uint_one_line d :
  one_line (js (NilZero.string_of_uint d)) = true.
Proof. destruct d; first [reflexivity | apply digits_one_line]. Qed.

Lemma String_Z_one_line z : one_line (String_Z z) = true.
Proof.
  unfold String_Z. destruct (Z.to_int z) as [d|d]; cbn.
  - apply string_of_uint_one_line.
  - apply string_of_uint_one_line.
Qed.

Lemma padStart0_one_line n x : one_line x = true -> one_line (padStart0 n x) = true.
Proof.
  intros H. unfold padStart0. rewrite one_line_app, H, andb_true_r.
  induction (n - List.length x)%nat; [reflexivity|exact IHn0].
Qed.

Lemma Single_dayLine_one_line s d : one_line (Single.dayLine s d) = true.
Proof.
  unfold Single.dayLine. rewrite !one_line_app.
  replace (one_line (DayName_label d)) with true by (now destruct d).
  cbn [andb]. replace (one_line (js ": ")) with true by reflexivity.
  cbn [andb].
  destruct (0 <? Single.meat _), (0 <? Single.veg _); cbn [app join];
    rewrite ?one_line_app, ?String_Z_one_line; reflexivity.
Qed.

(** X22: [buildWhatsAppMessage] joins fourteen entries, the day lines being
    the fourth to the eighth.  Two entries end in a line break of their own,
    so the message, when the name holds no line break, has sixteen lines:
    the title, a blank line, the name, the week, a blank line, one line for
    each of the five days in order, a blank line, the two switches, a blank
    line and the two totals.  The line of a day reads "<Day>: -" when
    neither Meat nor Veg is ordered on it and "<Day>: x..." otherwise. *)
Theorem Single_message_lists_every_day (s : Single.State) :
  List.length (Single.messageLines s) = 14%nat
  /\ (forall i d, nth_error DAYS i = Some d ->
      nth_error (Single.messageLines s) (3 + i) = Some (Single.dayLine s d))
  /\ (one_line (Single.name s) = true ->
      lines_of (join LF (Single.messageLines s))
      = [js "Evening Meal Order"; []; js "Name: " ++ Single.name s;
         js "Week: " ++ padStart0 2 (String_Z (Single.week s)); []]
        ++ map (Single.dayLine s) DAYS
        ++ [[];
            js "Vegan: " ++ (if Single.vegan s then js "Yes" else js "No");
            js "Low Carb: " ++ (if Single.lowCarb s then js "Yes" else js "No");
            [];
            js "Total Meals: " ++ String_Z (Single.totalMeals s);
            js "Total Cost: R" ++ toFixed2 (Single.totalCost s)])
  /\ (forall d,
      let day := Single.getDay (Single.order s) d in
      (Single.meat day <= 0 -> Single.veg day <= 0 ->
       Single.dayLine s d = DayName_label d ++ js ": -")
      /\ (0 < Single.meat day \/ 0 < Single.veg day ->
          startsWith (DayName_label d ++ js ": " ++ js "x") (Single.dayLine s d)
          = true)).
Proof.
  split; [reflexivity|]. split; [|split].
  - intros i d H. destruct i as [|[|[|[|[|i]]]]]; cbn in H; inversion H;
      try reflexivity. destruct i; discriminate.
  - intros Hname.
    set (sixteen :=
      [js "Evening Meal Order"; []; js "Name: " ++ Single.name s;
       js "Week: " ++ padStart0 2 (String_Z (Single.week s)); []]
      ++ map (Single.dayLine s) DAYS
      ++ [[];
          js "Vegan: " ++ (if Single.vegan s then js "Yes" else js "No");
          js "Low Carb: " ++ (if Single.lowCarb s then js "Yes" else js "No");
          [];
          js "Total Meals: " ++ String_Z (Single.totalMeals s);
          js "Total Cost: R" ++ toFixed2 (Single.totalCost s)]).
    assert (Hj : join LF (Single.messageLines s) = join LF sixteen).
    { unfold Single.messageLines, sixteen, DAYS.
      cbn [map app]. rewrite !join_cons by discriminate.
      rewrite <- !app_assoc. reflexivity. }
    rewrite Hj. apply lines_of_join; [discriminate|].
    unfold sixteen, DAYS. cbn [map app forallb].
    rewrite !Single_dayLine_one_line, !one_line_app, Hname.
    rewrite (padStart0_one_line 2 _ (String_Z_one_line _)).
    unfold toFixed2. rewrite !one_line_app, !String_Z_one_line.
    destruct (Single.vegan s), (Single.lowCarb s); reflexivity.
  - intros d day. subst day. unfold Single.dayLine. split.
    + intros Hm Hv.
      replace (0 <? Single.meat (Single.getDay (Single.order s) d)) with false
        by (symmetry; apply Z.ltb_ge; exact Hm).
      replace (0 <? Single.veg (Single.getDay (Single.order s) d)) with false
        by (symmetry; apply Z.ltb_ge; exact Hv).
      reflexivity.
    + intros H. rewrite !startsWith_app_l.
      destruct (Z.ltb_spec 0 (Single.meat (Single.getDay (Single.order s) d)));
        [|destruct (Z.ltb_spec 0 (Single.veg (Single.getDay (Single.order s) d)));
          [|lia]];
        cbn [app]; apply startsWith_join_head, startsWith_app.
Qed.

Lemma Single_message_lists_every_day_witness :
  Single.dayLine Single.initial Tuesday = js "Tuesday: -"
  /\ List.length (lines_of (join LF (Single.messageLines Single.initial)))
     = 16%nat.
Proof.
  destruct (Single_message_lists_every_day Single.initial) as [_ [_ [Hl Hd]]].
  split.
  - apply (Hd Tuesday); cbn; lia.
  - rewrite (Hl eq_refl). reflexivity.
Defined.

(** ** Prices, names and week labels *)

(** X23: [getPricingForWeek] gives the prices 90 and 10 for a week without
    menu or whose menu carries no price, and the prices of the menu
    otherwise.  With no price in the menus of both weeks, the totals of
    [Priced] are the totals [Picker] computes from the same grids. *)
Theorem Priced_prices_default_to_Picker (mb : Priced.MenusByWeek) :
  (forall w, Priced.getMenuForWeek mb w = None ->
     Priced.getPricingForWeek mb w = (90, 10))
  /\ (forall w m, Priced.getMenuForWeek mb w = Some m ->
     Priced.getPricingForWeek mb w
     = (match Priced.price m with Some p => p | None => 90 end,
        match Priced.lowCarbExtra m with Some e => e | None => 10 end))
  /\ (forall (s : Priced.State) (p : Picker.State),
     Priced.getPricingForWeek mb (Priced.weekA s) = (90, 10) ->
     Priced.getPricingForWeek mb (Priced.weekB s) = (90, 10) ->
     Picker.qtyA p = Priced.qtyA s -> Picker.qtyB p = Priced.qtyB s ->
     Picker.useWeekB p = Priced.useWeekB s ->
     Priced.totalMeals s = Picker.totalMeals p
     /\ Priced.totalCost mb s = Picker.totalCost p).
Proof.
  split; [|split].
  - intros w H. unfold Priced.getPricingForWeek. now rewrite H.
  - intros w m H. unfold Priced.getPricingForWeek. now rewrite H.
  - intros s p HA HB Hqa Hqb Hu.
    unfold Priced.totalMeals, Priced.totalCost, Priced.weekATotalMeals,
      Priced.weekBTotalMeals, Priced.weekATotalCost, Priced.weekBTotalCost,
      Picker.totalMeals, Picker.totalCost, Picker.weekATotalMeals,
      Picker.weekBTotalMeals, Picker.weekATotalCost, Picker.weekBTotalCost.
    rewrite HA, HB, Hqa, Hqb, Hu.
    rewrite !(proj1 (Priced_sums _ 0 0)), !(proj2 (Priced_sums _ 90 10)).
    rewrite !(proj1 (Picker_sums _)), !(proj2 (Picker_sums _)).
    split; reflexivity.
Qed.

Lemma Priced_prices_default_to_Picker_witness :
  let mb := Priced.mkMenus [num 3] (fun _ => None) in
  Priced.totalCost mb (Priced.setQtyA (fun _ => scenarioGrid) (Priced.initial mb))
  = Picker.totalCost (Picker.setQtyA (fun _ => scenarioGrid) Picker.initial).
Proof.
  intro mb.
  apply (Priced_prices_default_to_Picker mb); reflexivity.
Defined.

(** X24: the name shown on the "Name:" line is never empty and never begins
    or ends with white space: it is the trimmed name, or "[name]" when the
    name is blank. *)
Theorem name_line_is_trimmed_or_placeholder (name : jsstring) :
  nameOrPlaceholder name <> []
  /\ (forallb isWhiteSpace name = true -> nameOrPlaceholder name = js "[name]")
  /\ (trim name <> [] -> nameOrPlaceholder name = trim name)
  /\ (exists c rest, nameOrPlaceholder name = c :: rest
                     /\ isWhiteSpace c = false)
  /\ (exists c rest, rev (nameOrPlaceholder name) = c :: rest
                     /\ isWhiteSpace c = false).
Proof.
  unfold nameOrPlaceholder.
  destruct (trim_spec name) as [l [r [_ [_ [_ [Hhd Hlast]]]]]].
  split; [|split; [|split; [|split]]].
  - destruct (trim name) eqn:E; cbn; discriminate.
  - intros H. now rewrite (trim_all_white _ H).
  - intros H. destruct (trim name); [congruence|reflexivity].
  - destruct (trim name) as [|c t] eqn:E; cbn [truthy].
    + eexists _, _. split; [reflexivity|reflexivity].
    + exists c, t. split; [reflexivity|exact Hhd].
  - destruct (trim name) as [|c t] eqn:E; cbn [truthy].
    + eexists _, _. split; [reflexivity|reflexivity].
    + destruct (rev (c :: t)) as [|c' t'] eqn:Er.
      * apply (f_equal (@List.length _)) in Er. rewrite length_rev in Er.
        discriminate.
      * exists c', t'. split; [reflexivity|exact Hlast].
Qed.

Lemma name_line_is_trimmed_or_placeholder_witness :
  nameOrPlaceholder [32; 9; 160]%N = js "[name]".
Proof.
  apply (name_line_is_trimmed_or_placeholder [32; 9; 160]%N). reflexivity.
Defined.

(** X25: the label of an integer week from 0 to 99 has exactly two
    characters, both decimal digits: one-digit weeks are padded with "0". *)
Theorem week_label_has_two_digits (so : Q -> jsstring) (k : Z) :
  0 <= k <= 99 ->
  exists a b,
    pad2 so (num k) = [a; b]
    /\ (48 <= a <= 57)%N /\ (48 <= b <= 57)%N
    /\ k = Z.of_N (a - 48) * 10 + Z.of_N (b - 48).
Proof.
  intros Hk.
  assert (Hall :
    forallb
      (fun i =>
         match pad2 so (num (Z.of_nat i)) with
         | [a; b] =>
             ((48 <=? a) && (a <=? 57) && (48 <=? b) && (b <=? 57))%N
             && (Z.of_nat i =? Z.of_N (a - 48) * 10 + Z.of_N (b - 48))
         | _ => false
         end)
      (seq 0 100) = true) by (vm_compute; reflexivity).
  rewrite forallb_forall in Hall.
  specialize (Hall (Z.to_nat k)).
  rewrite Z2Nat.id in Hall by lia.
  assert (Hin : In (Z.to_nat k) (seq 0 100)) by (apply in_seq; lia).
  specialize (Hall Hin).
  destruct (pad2 so (num k)) as [|a [|b [|c t]]]; try discriminate.
  exists a, b.
  rewrite !andb_true_iff, !N.leb_le, Z.eqb_eq in Hall.
  destruct Hall as [[[[? ?] ?] ?] ?]. repeat split; assumption.
Qed.

Lemma week_label_has_two_digits_witness :
  pad2 (fun _ => []) (num 7) = js "07".
Proof.
  destruct (week_label_has_two_digits (fun _ => []) 7 ltac:(lia))
    as [a [b [H _]]].
  rewrite H. revert H. vm_compute. intros H. now inversion H.
Defined.
